(** * PMAT: the persistence model of the persistent-memory analysis tool

    A shallow embedding of [pmat/pmat_main.c]: the cache simulator, the
    write buffer, the registered-region and transient tables, the writeback
    into backing files, the crash simulator's parent side and the
    client-request dispatcher, followed by the properties of the tool's
    specification that concern them.

    Tool aborts ([tl_assert]) are [None]; the global [pmem] record and the
    part of the operating system the tool talks to are passed explicitly.
    The functions that compute with [Double]s are given twice: in exact
    rationals, as the machine carries them, and in IEEE 754 binary64, as
    the compiled code computes them ([Binary64]). *)

From Stdlib Require Import ZArith List String Ascii Bool Lia QArith Qfield.
From Stdlib Require Import Permutation.
Import ListNotations.

Local Open Scope string_scope.
Local Open Scope Z_scope.

(** ** Machine integers *)

(** [UWord], [Addr], [SizeT], [ULong]: 64-bit unsigned. *)
Definition wrap64 (x : Z) : Z := x mod 2 ^ 64.

(** [Word]: 64-bit signed. *)
Definition sword64 (x : Z) : Z := (x + 2 ^ 63) mod 2 ^ 64 - 2 ^ 63.

(** [Int]: 32-bit signed, the type [%d] fetches from the argument list. *)
Definition sint32 (x : Z) : Z := (x + 2 ^ 31) mod 2 ^ 32 - 2 ^ 31.

(** ** Tool aborts *)

Notation "' x <- e ;; k" :=
  (match e with Some x => k | None => None end)
  (at level 61, x pattern, e at next level, right associativity).

(** ** Cache-line arithmetic *)

(** Modelled from the spec: [pmat_include.h] is not among the sources.  The
    line size [L] is 64 ([PMAT_CACHELINE_SIZE] of [pmat.h], the literal 64 of
    [trace_pmem_store] and the 64-bit [dirtyBits] mask agree with it), and
    [trim(a) = a & ~(L-1)], [offset(a) = a & (L-1)]. *)
Definition CACHELINE_SIZE : Z := 64.
Definition TRIM_CACHELINE (a : Z) : Z := Z.land a (Z.lnot (CACHELINE_SIZE - 1)).
Definition OFFSET_CACHELINE (a : Z) : Z := Z.land a (CACHELINE_SIZE - 1).

(** [PMAT_VERIFICATION_FAILURE] of [pmat.h]. *)
Definition PMAT_VERIFICATION_FAILURE : Z := 0xBD.

(** ** The host framework's ordered set

    Modelled from the spec: the OSet of the host framework is not among the
    sources.  A set is the list of its elements in iteration order; a
    comparator takes the key first and the element second and answers 0 on
    a match.  A lookup stops at the first element that compares equal;
    inserting an element that compares equal to a present one is an
    assertion failure of the framework, so that a set holds no two
    elements that compare equal and removing the elements that match a key
    removes the one there is. *)
Section OSet.
Variable E : Type.

Definition OSetGen_Size (t : list E) : Z := Z.of_nat (List.length t).

Definition OSetGen_Lookup (cmp : E -> E -> Z) (t : list E) (k : E) : option E :=
  find (fun e => cmp k e =? 0) t.

Definition OSetGen_Contains (cmp : E -> E -> Z) (t : list E) (k : E) : bool :=
  match OSetGen_Lookup cmp t k with Some _ => true | None => false end.

(** A lookup with a caller-supplied comparator, which may itself assert. *)
Fixpoint OSetGen_LookupWithCmp (t : list E) (k : E)
         (cmp : E -> E -> option Z) : option (option E) :=
  match t with
  | [] => Some None
  | e :: t' =>
      ' c <- cmp k e ;;
      if c =? 0 then Some (Some e) else OSetGen_LookupWithCmp t' k cmp
  end.

(** Sorted insertion: before the first element that is not smaller. *)
Fixpoint oset_place (cmp : E -> E -> Z) (e : E) (t : list E) : list E :=
  match t with
  | [] => [e]
  | x :: t' => if cmp e x <=? 0 then e :: t else x :: oset_place cmp e t'
  end.

Definition OSetGen_Insert (cmp : E -> E -> Z) (t : list E) (e : E)
  : option (list E) :=
  match OSetGen_Lookup cmp t e with
  | Some _ => None
  | None => Some (oset_place cmp e t)
  end.

Definition OSetGen_Remove (cmp : E -> E -> Z) (t : list E) (k : E) : list E :=
  filter (fun e => negb (cmp k e =? 0)) t.
End OSet.

Arguments OSetGen_Size {E} t.
Arguments OSetGen_Lookup {E} cmp t k.
Arguments OSetGen_Contains {E} cmp t k.
Arguments OSetGen_LookupWithCmp {E} t k cmp.
Arguments oset_place {E} cmp e t.
Arguments OSetGen_Insert {E} cmp t e.
Arguments OSetGen_Remove {E} cmp t k.

(** ** Data model *)

(** [struct pmat_cache_entry]: [data] holds [CACHELINE_SIZE] bytes. *)
Record pmat_cache_entry := mk_cache_entry {
  lastPendingStore : Z;
  addr : Z;
  dirtyBits : Z;
  data : list Z
}.

(** [struct pmat_write_buffer_entry]. *)
Record pmat_write_buffer_entry := mk_wb_entry {
  entry : pmat_cache_entry;
  tid : Z
}.

(** [struct pmat_registered_file]. *)
Record pmat_registered_file := mk_registered_file {
  rf_name : string;
  rf_addr : Z;
  rf_size : Z;
  rf_descr : Z
}.

(** [struct pmat_transient_entry]. *)
Record pmat_transient_entry := mk_transient_entry {
  tr_addr : Z;
  tr_size : Z
}.

Definition zcmp (a b : Z) : Z :=
  if a <? b then -1 else if b <? a then 1 else 0.

(** Modelled from the spec: the comparators of [pmat_include.h].  Cache
    entries are keyed by their aligned address, write-buffer entries by the
    address of the line they hold, registered files by their base address; a
    transient query matches a recorded range that wholly contains it. *)
Definition cmp_pmat_cache_entries (k e : pmat_cache_entry) : Z :=
  zcmp (addr k) (addr e).

Definition cmp_pmat_write_buffer_entries (k e : pmat_write_buffer_entry) : Z :=
  zcmp (addr (entry k)) (addr (entry e)).

Definition cmp_pmat_registered_files1 (k e : pmat_registered_file) : Z :=
  zcmp (rf_addr k) (rf_addr e).

Definition cmp_pmat_transient_entries (k e : pmat_transient_entry) : Z :=
  if tr_addr k <? tr_addr e then -1
  else if tr_addr e + tr_size e <? tr_addr k + tr_size k then 1
  else 0.

(** ** The operating system, as far as the tool uses it *)

Record file := mk_file {
  f_mode : Z;
  f_bytes : list Z
}.

(** What the tool does to the outside besides the backing files. *)
Inductive event :=
| Emit (msg : string)
| OutOfBounds (line : Z) (spill : list Z)
| Unlink (path : string)
| Exec (cmd : string) (args : list string)
| CrashCheck.

Record timespec := mk_timespec { tv_sec : Z; tv_nsec : Z }.

(** One run of the verifier, as the parent observes it. *)
Record child_run := mk_child_run {
  cr_start : timespec;
  cr_end : timespec;
  cr_retval : Z
}.

Record world := mk_world {
  w_files : string -> option file;
  w_fds : Z -> option string;
  w_next_fd : Z;
  w_umask : Z;
  w_unopenable : list string;
  (** the stream [VG_(random)] draws from, and the number of draws so far *)
  w_random : nat -> Z;
  w_drawn : nat;
  (** contents of uninitialised stack bytes *)
  w_uninit : nat -> Z;
  (** the [k]-th run of the verifier *)
  w_verifier_runs : Z -> child_run;
  w_trace : list event
}.

(** Modelled from the spec: the capacity constants [CacheMax] and [WbMax]
    ([NUM_CACHE_ENTRIES], [NUM_WB_ENTRIES] of [pmat_include.h], which is not
    among the sources) are implementation-tunable, so they are parameters
    of the machine. *)
Record limits := mk_limits {
  NUM_CACHE_ENTRIES : Z;
  NUM_WB_ENTRIES : Z
}.

(** [struct pmem_ops].  The machine carries its [Double]s as exact
    rationals: nothing it does to the cache, the write buffer or the files
    depends on their values.  [Binary64] below has the statistics in the
    arithmetic of the source. *)
Record pmem_ops := mk_pmem {
  pmat_registered_files : list pmat_registered_file;
  pmat_cache_entries : list pmat_cache_entry;
  pmat_write_buffer_entries : list pmat_write_buffer_entry;
  pmat_num_verifications : Z;
  pmat_num_bad_verifications : Z;
  pmat_should_verify : bool;
  pmat_verifier : option string;
  pmat_transient_addresses : list pmat_transient_entry;
  pmat_average_verification_time : Q;
  pmat_min_verification_time : Q;
  pmat_max_verification_time : Q;
  pmat_mean_verification_time : Q;
  pmat_ssd_verification_time : Q
}.

Record machine := mk_machine {
  lim : limits;
  pmem : pmem_ops;
  sys : world
}.

(** ** Field updates *)

Definition set_pmem (p : pmem_ops) (m : machine) : machine :=
  mk_machine (lim m) p (sys m).

Definition set_sys (w : world) (m : machine) : machine :=
  mk_machine (lim m) (pmem m) w.

Definition with_registered_files (r : list pmat_registered_file) (p : pmem_ops) :=
  mk_pmem r (pmat_cache_entries p) (pmat_write_buffer_entries p)
    (pmat_num_verifications p) (pmat_num_bad_verifications p)
    (pmat_should_verify p) (pmat_verifier p) (pmat_transient_addresses p)
    (pmat_average_verification_time p) (pmat_min_verification_time p)
    (pmat_max_verification_time p) (pmat_mean_verification_time p)
    (pmat_ssd_verification_time p).

Definition with_cache_entries (c : list pmat_cache_entry) (p : pmem_ops) :=
  mk_pmem (pmat_registered_files p) c (pmat_write_buffer_entries p)
    (pmat_num_verifications p) (pmat_num_bad_verifications p)
    (pmat_should_verify p) (pmat_verifier p) (pmat_transient_addresses p)
    (pmat_average_verification_time p) (pmat_min_verification_time p)
    (pmat_max_verification_time p) (pmat_mean_verification_time p)
    (pmat_ssd_verification_time p).

Definition with_write_buffer_entries (b : list pmat_write_buffer_entry)
           (p : pmem_ops) :=
  mk_pmem (pmat_registered_files p) (pmat_cache_entries p) b
    (pmat_num_verifications p) (pmat_num_bad_verifications p)
    (pmat_should_verify p) (pmat_verifier p) (pmat_transient_addresses p)
    (pmat_average_verification_time p) (pmat_min_verification_time p)
    (pmat_max_verification_time p) (pmat_mean_verification_time p)
    (pmat_ssd_verification_time p).

Definition with_num_verifications (n : Z) (p : pmem_ops) :=
  mk_pmem (pmat_registered_files p) (pmat_cache_entries p)
    (pmat_write_buffer_entries p) n (pmat_num_bad_verifications p)
    (pmat_should_verify p) (pmat_verifier p) (pmat_transient_addresses p)
    (pmat_average_verification_time p) (pmat_min_verification_time p)
    (pmat_max_verification_time p) (pmat_mean_verification_time p)
    (pmat_ssd_verification_time p).

Definition with_num_bad_verifications (n : Z) (p : pmem_ops) :=
  mk_pmem (pmat_registered_files p) (pmat_cache_entries p)
    (pmat_write_buffer_entries p) (pmat_num_verifications p) n
    (pmat_should_verify p) (pmat_verifier p) (pmat_transient_addresses p)
    (pmat_average_verification_time p) (pmat_min_verification_time p)
    (pmat_max_verification_time p) (pmat_mean_verification_time p)
    (pmat_ssd_verification_time p).

Definition with_should_verify (b : bool) (p : pmem_ops) :=
  mk_pmem (pmat_registered_files p) (pmat_cache_entries p)
    (pmat_write_buffer_entries p) (pmat_num_verifications p)
    (pmat_num_bad_verifications p) b (pmat_verifier p)
    (pmat_transient_addresses p)
    (pmat_average_verification_time p) (pmat_min_verification_time p)
    (pmat_max_verification_time p) (pmat_mean_verification_time p)
    (pmat_ssd_verification_time p).

Definition with_transient_addresses (t : list pmat_transient_entry)
           (p : pmem_ops) :=
  mk_pmem (pmat_registered_files p) (pmat_cache_entries p)
    (pmat_write_buffer_entries p) (pmat_num_verifications p)
    (pmat_num_bad_verifications p) (pmat_should_verify p) (pmat_verifier p) t
    (pmat_average_verification_time p) (pmat_min_verification_time p)
    (pmat_max_verification_time p) (pmat_mean_verification_time p)
    (pmat_ssd_verification_time p).

Definition with_times (mn mx mean ssd : Q) (p : pmem_ops) :=
  mk_pmem (pmat_registered_files p) (pmat_cache_entries p)
    (pmat_write_buffer_entries p) (pmat_num_verifications p)
    (pmat_num_bad_verifications p) (pmat_should_verify p) (pmat_verifier p)
    (pmat_transient_addresses p)
    (pmat_average_verification_time p) mn mx mean ssd.

Definition with_files (f : string -> option file) (w : world) :=
  mk_world f (w_fds w) (w_next_fd w) (w_umask w) (w_unopenable w)
    (w_random w) (w_drawn w) (w_uninit w) (w_verifier_runs w) (w_trace w).

Definition with_trace (t : list event) (w : world) :=
  mk_world (w_files w) (w_fds w) (w_next_fd w) (w_umask w) (w_unopenable w)
    (w_random w) (w_drawn w) (w_uninit w) (w_verifier_runs w) t.

Definition emit (e : event) (m : machine) : machine :=
  set_sys (with_trace (w_trace (sys m) ++ [e]) (sys m)) m.

Definition set_cache (c : list pmat_cache_entry) (m : machine) : machine :=
  set_pmem (with_cache_entries c (pmem m)) m.

Definition set_write_buffer (b : list pmat_write_buffer_entry) (m : machine)
  : machine :=
  set_pmem (with_write_buffer_entries b (pmem m)) m.

(** ** System calls *)

(** [VG_(random)(NULL)]: the next [UInt] of the stream. *)
Definition VG_random (w : world) : Z * world :=
  (w_random w (w_drawn w) mod 2 ^ 32,
   mk_world (w_files w) (w_fds w) (w_next_fd w) (w_umask w) (w_unopenable w)
     (w_random w) (S (w_drawn w)) (w_uninit w) (w_verifier_runs w) (w_trace w)).

Definition upd_file (files : string -> option file) (p : string) (f : file)
  : string -> option file :=
  fun q => if String.eqb q p then Some f else files q.

(** [VG_(open)(path, VKI_O_CREAT | VKI_O_TRUNC | VKI_O_RDWR, mode)]: the
    descriptor, or [None] for an error result. *)
Definition VG_open (path : string) (mode : Z) (w : world) : option Z * world :=
  if existsb (String.eqb path) (w_unopenable w) then (None, w)
  else
    let f := match w_files w path with
             | Some old => mk_file (f_mode old) []
             | None => mk_file (Z.land mode (Z.lnot (w_umask w))) []
             end in
    (Some (w_next_fd w),
     mk_world (upd_file (w_files w) path f)
       (fun d => if d =? w_next_fd w then Some path else w_fds w d)
       (w_next_fd w + 1) (w_umask w) (w_unopenable w)
       (w_random w) (w_drawn w) (w_uninit w) (w_verifier_runs w) (w_trace w)).

Definition resize (n : nat) (l : list Z) : list Z :=
  firstn n l ++ repeat 0 (n - List.length l).

(** [VG_(ftruncate)(fd, size)]: the length is an [Off64T]; a negative one or
    a bad descriptor is an error, which the caller does not look at. *)
Definition VG_ftruncate (fd size : Z) (w : world) : world :=
  match w_fds w fd with
  | Some path =>
      match w_files w path with
      | Some f =>
          if sword64 size <? 0 then w
          else with_files (upd_file (w_files w) path
                   (mk_file (f_mode f) (resize (Z.to_nat size) (f_bytes f)))) w
      | None => w
      end
  | None => w
  end.

(** [VG_(lseek)(fd, off, VKI_SEEK_SET)]: the new offset, or -1. *)
Definition VG_lseek (fd off : Z) (w : world) : Z :=
  match w_fds w fd with
  | Some _ => if sword64 off <? 0 then -1 else off
  | None => -1
  end.

(** The file behind a descriptor. *)
Definition fd_file (w : world) (fd : Z) : option (string * file) :=
  ' path <- w_fds w fd ;;
  ' f <- w_files w path ;;
  Some (path, f).

(** [VG_(read)(fd, buf, n)] at offset [off] into an uninitialised buffer:
    the bytes the file has there, and for the rest whatever the buffer held.
    The caller does not look at the count. *)
Definition read_into (junk : nat -> Z) (bytes : list Z) (off n : nat) : list Z :=
  map (fun i => match nth_error bytes (off + i) with
                | Some b => b
                | None => junk i
                end) (seq 0 n).

(** [VG_(write)(fd, buf, n)] at offset [off]; a gap before [off] reads as
    zeros. *)
Definition write_at (bytes : list Z) (off : nat) (buf : list Z) : list Z :=
  firstn off bytes ++ repeat 0 (off - List.length bytes) ++ buf
    ++ skipn (off + List.length buf) bytes.

(** The byte of the file at [path] at offset [off] (0 where there is none). *)
Definition file_byte (w : world) (path : string) (off : nat) : Z :=
  match w_files w path with
  | Some f => nth off (f_bytes f) 0
  | None => 0
  end.

(** ** Registered regions *)

(** Comparator for finding the file associated with an address.  The key has
    size 0; [None] is a failed [tl_assert2]. *)
Definition find_file_by_addr (lhs rhs : pmat_registered_file) : option Z :=
  if rf_size rhs =? 0 then
    if rf_size lhs =? 0 then None
    else if rf_addr rhs <? rf_addr lhs then Some (-1)
    else if rf_addr rhs >? wrap64 (rf_addr lhs + rf_size lhs) then Some 1
    else Some 0
  else if rf_size lhs =? 0 then
    if rf_addr lhs <? rf_addr rhs then Some 1
    else if rf_addr lhs >? wrap64 (rf_addr rhs + rf_size rhs) then Some (-1)
    else Some 0
  else None.

(** Comparator for finding the file associated with a name ([VG_(strcmp)]). *)
Definition find_file_by_name (lhs rhs : pmat_registered_file) : option Z :=
  Some match String.compare (rf_name lhs) (rf_name rhs) with
       | Eq => 0
       | Lt => -1
       | Gt => 1
       end.

(** [struct pmat_registered_file file = {0}; file.addr = a;] *)
Definition addr_key (a : Z) : pmat_registered_file :=
  mk_registered_file "" a 0 0.

Definition lookup_file (a : Z) (m : machine)
  : option (option pmat_registered_file) :=
  OSetGen_LookupWithCmp (pmat_registered_files (pmem m)) (addr_key a)
    find_file_by_addr.

Definition is_pmem_access (a size : Z) (m : machine) : option bool :=
  if OSetGen_Size (pmat_registered_files (pmem m)) =? 0 then Some false
  else
    ' found <- lookup_file a m ;;
    match found with
    | Some _ =>
        if OSetGen_Size (pmat_transient_addresses (pmem m)) =? 0 then Some true
        else
          match OSetGen_Lookup cmp_pmat_transient_entries
                  (pmat_transient_addresses (pmem m))
                  (mk_transient_entry a size) with
          | Some _ => Some false
          | None => Some true
          end
    | None => Some false
    end.

(** ** Writeback into the backing file *)

Definition line_bytes : nat := Z.to_nat CACHELINE_SIZE.

(** The loop of [write_to_file]: byte [i] of the entry replaces byte [i] of
    the line read from the file where [dirtyBits & (1ULL << i)] is set. *)
Definition merge_line (e : pmat_cache_entry) (cacheline : list Z) : list Z :=
  map (fun i =>
         if Z.land (dirtyBits e) (wrap64 (Z.shiftl 1 (Z.of_nat i))) =? 0
         then nth i cacheline 0
         else nth i (data e) 0) (seq 0 line_bytes).

Definition write_to_file (wbe : pmat_write_buffer_entry) (m : machine)
  : option machine :=
  let e := entry wbe in
  ' found <- lookup_file (addr e) m ;;
  ' realFile <- found ;;
  let off := wrap64 (addr e - rf_addr realFile) in
  if negb (VG_lseek (rf_descr realFile) off (sys m) =? off) then None
  else
    ' (path, f) <- fd_file (sys m) (rf_descr realFile) ;;
    let cacheline :=
      read_into (w_uninit (sys m)) (f_bytes f) (Z.to_nat off) line_bytes in
    let cacheline := merge_line e cacheline in
    Some (set_sys (with_files
                     (upd_file (w_files (sys m)) path
                        (mk_file (f_mode f)
                           (write_at (f_bytes f) (Z.to_nat off) cacheline)))
                     (sys m)) m).

(** The loop shared by the fence and the write-buffer eviction: each chosen
    entry is written to its file and removed from the write buffer. *)
Fixpoint drain (arr : list pmat_write_buffer_entry) (m : machine)
  : option machine :=
  match arr with
  | [] => Some m
  | wbentry :: arr' =>
      ' m1 <- write_to_file wbentry m ;;
      drain arr'
        (set_write_buffer
           (OSetGen_Remove cmp_pmat_write_buffer_entries
              (pmat_write_buffer_entries (pmem m1)) wbentry) m1)
  end.

(** One draw of [VG_(random)] per element, in iteration order. *)
Fixpoint select_random {E : Type} (pick : Z -> bool) (t : list E) (w : world)
  : list E * world :=
  match t with
  | [] => ([], w)
  | e :: t' =>
      let (r, w1) := VG_random w in
      let (vs, w2) := select_random pick t' w1 in
      (if pick r then e :: vs else vs, w2)
  end.

Definition _do_fence (running : Z) (m : machine) : option machine :=
  if OSetGen_Size (pmat_write_buffer_entries (pmem m)) =? 0 then Some m
  else
    drain (filter (fun wbentry => tid wbentry =? running)
             (pmat_write_buffer_entries (pmem m))) m.

(** The entry the write buffer already holds for the line of [e], if any,
    is written to its file and discarded. *)
Definition supersede (e : pmat_cache_entry) (m : machine) : option machine :=
  match OSetGen_Lookup cmp_pmat_write_buffer_entries
          (pmat_write_buffer_entries (pmem m)) (mk_wb_entry e 0) with
  | Some exist_ =>
      ' m1 <- write_to_file exist_ m ;;
      Some (set_write_buffer
              (OSetGen_Remove cmp_pmat_write_buffer_entries
                 (pmat_write_buffer_entries (pmem m1)) exist_) m1)
  | None => Some m
  end.

Definition do_writeback (running : Z) (e : pmat_cache_entry) (m : machine)
  : option machine :=
  let m := set_cache (OSetGen_Remove cmp_pmat_cache_entries
                        (pmat_cache_entries (pmem m)) e) m in
  ' found <- lookup_file (addr e) m ;;
  ' _ <- found ;;
  ' m <- supersede e m ;;
  ' wb <- OSetGen_Insert cmp_pmat_write_buffer_entries
            (pmat_write_buffer_entries (pmem m)) (mk_wb_entry e running) ;;
  let m := set_write_buffer wb m in
  if OSetGen_Size wb >? NUM_WB_ENTRIES (lim m) then
    let (arr, w) := select_random (fun r => r mod 10 =? 0) wb (sys m) in
    drain arr (set_sys w m)
  else Some m.

(** ** Verification statistics *)

(** In exact arithmetic; [Binary64] has them in binary64. *)

Local Open Scope Q_scope.

Definition update_stats (sec : Q) (p : pmem_ops) : pmem_ops :=
  let delta1 := sec - pmat_mean_verification_time p in
  let mean := pmat_mean_verification_time p
              + delta1 / inject_Z (pmat_num_verifications p) in
  let delta2 := sec - mean in
  with_times (pmat_min_verification_time p) (pmat_max_verification_time p)
    mean (pmat_ssd_verification_time p + delta1 * delta2) p.

Definition get_stats (p : pmem_ops) : Q * Q :=
  (pmat_mean_verification_time p,
   pmat_ssd_verification_time p / inject_Z (pmat_num_verifications p)).

Definition VG_MAX (a b : Q) : Q := if Qle_bool a b then b else a.
Definition VG_MIN (a b : Q) : Q := if Qle_bool b a then b else a.

(** Seconds between two readings of the clock. *)
Definition diff (start end_ : timespec) : Q :=
  let temp :=
    if (tv_nsec end_ - tv_nsec start <? 0)%Z
    then mk_timespec (tv_sec end_ - tv_sec start - 1)
                     (1000000000 + tv_nsec end_ - tv_nsec start)
    else mk_timespec (tv_sec end_ - tv_sec start)
                     (tv_nsec end_ - tv_nsec start) in
  inject_Z (tv_sec temp) + inject_Z (tv_nsec temp) / 1000000000.

(** What [simulate_crash] does to the statistics once the child has been
    waited for: count the run, then fold its time into the statistics. *)
Definition record_verification (sec : Q) (p : pmem_ops) : pmem_ops :=
  let p := with_num_verifications
             (sword64 (pmat_num_verifications p + 1)) p in
  let p := update_stats sec p in
  let mx := VG_MAX (pmat_max_verification_time p) sec in
  let mn := VG_MIN (pmat_min_verification_time p) sec in
  let mn := if Qeq_bool mn 0 then sec else mn in
  with_times mn mx (pmat_mean_verification_time p)
    (pmat_ssd_verification_time p) p.

Local Close Scope Q_scope.

(** ** Crash simulation *)

(** [VG_(snprintf)(buf, n, ...)]: at most [n - 1] characters are kept. *)
Definition VG_snprintf (n : nat) (s : string) : string :=
  substring 0 (n - 1) s.

(** Decimal digits of a non-negative number, most significant first; ten
    digits are enough for an [Int]. *)
Fixpoint digits (fuel : nat) (n : Z) (acc : string) : string :=
  match fuel with
  | O => acc
  | S fuel' =>
      let acc' := String (ascii_of_nat (48 + Z.to_nat (n mod 10))) acc in
      if n / 10 =? 0 then acc' else digits fuel' (n / 10) acc'
  end.

Definition decimal (n : Z) : string := digits 10 n "".

(** The conversion [%d] applied to a machine word: the argument is fetched
    as an [Int]. *)
Definition fmt_d (x : Z) : string :=
  let v := sint32 x in
  if v <? 0 then "-" ++ decimal (- v) else decimal v.

(** The wait-status macros of the kernel interface (not among the
    sources), with Linux's encoding of the status word. *)
Definition VKI_WTERMSIG (status : Z) : Z := Z.land status 0x7f.
Definition VKI_WIFEXITED (status : Z) : bool := VKI_WTERMSIG status =? 0.
Definition VKI_WEXITSTATUS (status : Z) : Z :=
  Z.shiftr (Z.land status 0xff00) 8.
Definition VKI_WIFSIGNALED (status : Z) : bool :=
  (1 <=? VKI_WTERMSIG status) && (VKI_WTERMSIG status <=? 126).

(** [copy_file]: [/bin/cp] is run in a child and waited for. *)
Definition copy_file (f1 f2 : string) (m : machine) : machine :=
  emit (Exec "/bin/cp" ["cp"; f1; f2; "--reflink=auto"]) m.

Definition copy_name (name : string) (n : Z) (suffix : string) : string :=
  VG_snprintf 1024 (name ++ "." ++ fmt_d n ++ "." ++ suffix).

Definition copy_files (suffix : string) (m : machine) : machine :=
  fold_left
    (fun m tmp =>
       copy_file (rf_name tmp)
         (copy_name (rf_name tmp) (pmat_num_verifications (pmem m)) suffix) m)
    (pmat_registered_files (pmem m)) m.

Definition attempt_file (n : Z) (ext : string) : string :=
  VG_snprintf 64 ("bad-verification-" ++ fmt_d n ++ ext).

Definition count_bad (m : machine) : machine :=
  set_pmem (with_num_bad_verifications
              (sword64 (pmat_num_bad_verifications (pmem m) + 1)) (pmem m)) m.

(** The parent's side of [simulate_crash]; the child replaces itself by the
    verifier and never comes back.  The clock readings and the status that
    [waitpid] stores come from the world. *)
Definition simulate_crash (m : machine) : option machine :=
  match pmat_verifier (pmem m) with
  | None =>
      Some (emit (Emit "[Error] Attempt to force a crash without a verification function!") m)
  | Some _ =>
      if OSetGen_Size (pmat_registered_files (pmem m)) =? 0 then
        Some (emit (Emit "[Error] Attempt to force a crash without registering persistent region!") m)
      else
        let run := w_verifier_runs (sys m) (pmat_num_verifications (pmem m)) in
        let retval := cr_retval run in
        let sec := diff (cr_start run) (cr_end run) in
        let m := set_pmem (record_verification sec (pmem m)) m in
        let n := pmat_num_verifications (pmem m) in
        if VKI_WIFEXITED retval then
          let status := VKI_WEXITSTATUS retval in
          if (status =? PMAT_VERIFICATION_FAILURE)
             || (status =? - PMAT_VERIFICATION_FAILURE) then
            Some (copy_files "bad" (count_bad m))
          else if status =? 0 then
            Some (emit (Unlink (attempt_file n ".stdout"))
                    (emit (Unlink (attempt_file n ".stderr"))
                       (emit (Unlink (attempt_file n ".dump")) m)))
          else Some (copy_files "bad" (count_bad m))
        else if VKI_WIFSIGNALED retval then
          Some (copy_files "bad.coredump" (count_bad m))
        else None
  end.

Definition maybe_simulate_crash (m : machine) : option machine :=
  let m := emit CrashCheck m in
  if negb (pmat_should_verify (pmem m))
     || match pmat_verifier (pmem m) with None => true | Some _ => false end
     || (OSetGen_Size (pmat_registered_files (pmem m)) =? 0)
  then Some m
  else
    let (r, w) := VG_random (sys m) in
    let m := set_sys w m in
    if r mod 100 =? 0 then simulate_crash m else Some m.

(** ** Stores *)

(** The [size] bytes at [&value], least significant first. *)
Definition value_bytes (value : Z) (size : nat) : list Z :=
  map (fun i => Z.land (Z.shiftr value (8 * Z.of_nat i)) 255) (seq 0 size).

(** [VG_(memcpy)(data + off, src, n)] on the [CACHELINE_SIZE] bytes of an
    entry: the bytes of the entry afterwards, and the bytes that were
    written past its end. *)
Definition memcpy_data (bytes : list Z) (off : nat) (src : list Z)
  : list Z * list Z :=
  (map (fun i =>
          if (off <=? i)%nat && (i <? off + List.length src)%nat
          then nth (i - off) src 0
          else nth i bytes 0) (seq 0 line_bytes),
   skipn (line_bytes - off) src).

(** [((1ULL << size) - 1ULL) << startOffset] *)
Definition dirty_mask (size startOffset : Z) : Z :=
  wrap64 (Z.shiftl (wrap64 (wrap64 (Z.shiftl 1 size) - 1)) startOffset).

Definition note_spill (line : Z) (spill : list Z) (m : machine) : machine :=
  match spill with
  | [] => m
  | _ => emit (OutOfBounds line spill) m
  end.

(** In-place update of the node a lookup returned. *)
Fixpoint oset_update {E : Type} (cmp : E -> E -> Z) (t : list E) (k : E)
         (f : E -> E) : list E :=
  match t with
  | [] => []
  | x :: t' =>
      if cmp k x =? 0 then f x :: t' else x :: oset_update cmp t' k f
  end.

Fixpoint writeback_all (running : Z) (arr : list pmat_cache_entry)
         (m : machine) : option machine :=
  match arr with
  | [] => Some m
  | e :: arr' => ' m1 <- do_writeback running e m ;; writeback_all running arr' m1
  end.

(** The check that follows the insertion of a new entry: when the cache
    holds more than [NUM_CACHE_ENTRIES] entries, each entry is chosen with
    one draw of [VG_(random)(NULL) % 2] and the chosen ones are written
    back. *)
Definition cache_capacity_check (running : Z) (m : machine) : option machine :=
  if OSetGen_Size (pmat_cache_entries (pmem m)) >? NUM_CACHE_ENTRIES (lim m)
  then
    let (arr, w) :=
      select_random (fun r => negb (r mod 2 =? 0))
        (pmat_cache_entries (pmem m)) (sys m) in
    writeback_all running arr (set_sys w m)
  else Some m.

Definition split_warning : string :=
  "Warning: Split cache lines are not supported".

(** The two checks for a store that leaves its cache line: they warn, and
    the store goes on. *)
Definition warn_if_split (a size : Z) (m : machine) : machine :=
  let m :=
    if TRIM_CACHELINE a =? TRIM_CACHELINE (wrap64 (a + size - 1)) then m
    else emit (Emit split_warning) (emit (Emit "pt1=%ld, pt2=%ld") m) in
  let startOffset := OFFSET_CACHELINE a in
  let endOffset :=
    if OFFSET_CACHELINE (wrap64 (a + size)) =? 0 then CACHELINE_SIZE
    else OFFSET_CACHELINE (wrap64 (a + size)) in
  if startOffset >? endOffset then emit (Emit split_warning) m else m.

(** [struct pmat_cache_entry entry; entry.addr = TRIM_CACHELINE(addr);] *)
Definition store_key (a : Z) : pmat_cache_entry :=
  mk_cache_entry 0 (TRIM_CACHELINE a) 0 [].

(** The entry after a store into it. *)
Definition stored_into (context a size value : Z) (x : pmat_cache_entry)
  : pmat_cache_entry :=
  mk_cache_entry context (addr x)
    (wrap64 (Z.lor (dirtyBits x) (dirty_mask size (OFFSET_CACHELINE a))))
    (fst (memcpy_data (data x) (Z.to_nat (OFFSET_CACHELINE a))
            (value_bytes value (Z.to_nat size)))).

(** The entry a store creates: a zero-filled node ([VG_(OSetGen_AllocNode)]
    of the host framework hands out zero-filled nodes, and [data] is cleared
    again), then stored into. *)
Definition fresh_entry (context a size value : Z) : pmat_cache_entry :=
  stored_into context a size value
    (mk_cache_entry 0 (TRIM_CACHELINE a) 0 (repeat 0 line_bytes)).

(** The bytes [VG_(memcpy)] writes past the end of the entry's [data]. *)
Definition store_spill (a size value : Z) : list Z :=
  skipn (line_bytes - Z.to_nat (OFFSET_CACHELINE a))
    (value_bytes value (Z.to_nat size)).

(** [running] is [VG_(get_running_tid)()], [context] what
    [VG_(record_ExeContext)] returns for it. *)
Definition trace_pmem_store (running context : Z) (a size value : Z)
           (m : machine) : option machine :=
  ' tracked <- is_pmem_access a size m ;;
  if negb tracked then Some m
  else
    let m := warn_if_split a size m in
    match OSetGen_Lookup cmp_pmat_cache_entries
            (pmat_cache_entries (pmem m)) (store_key a) with
    | Some exists_ =>
        Some (note_spill (TRIM_CACHELINE a) (store_spill a size value)
                (set_cache (oset_update cmp_pmat_cache_entries
                              (pmat_cache_entries (pmem m)) (store_key a)
                              (stored_into context a size value)) m))
    | None =>
        let e := fresh_entry context a size value in
        let m := note_spill (TRIM_CACHELINE a) (store_spill a size value) m in
        ' cache <- OSetGen_Insert cmp_pmat_cache_entries
                     (pmat_cache_entries (pmem m)) e ;;
        ' m <- cache_capacity_check running (set_cache cache m) ;;
        maybe_simulate_crash m
    end.

(** ** Flushes and fences *)

Definition do_flush (running : Z) (base size : Z) (m : machine)
  : option machine :=
  match OSetGen_Lookup cmp_pmat_cache_entries
          (pmat_cache_entries (pmem m)) (store_key base) with
  | Some exists_ => do_writeback running exists_ m
  | None => Some m
  end.

Definition PMAT_CACHELINE_SIZE : Z := 64.

Definition trace_pmem_flush (running : Z) (a : Z) (m : machine)
  : option machine :=
  ' m <- do_flush running a PMAT_CACHELINE_SIZE m ;;
  maybe_simulate_crash m.

Definition trace_pmem_flush_fence (running : Z) (a : Z) (m : machine)
  : option machine :=
  ' m <- do_flush running a PMAT_CACHELINE_SIZE m ;;
  ' m <- _do_fence running m ;;
  maybe_simulate_crash m.

Definition do_fence (running : Z) (m : machine) : option machine :=
  ' m <- maybe_simulate_crash m ;;
  ' m <- _do_fence running m ;;
  maybe_simulate_crash m.

(** ** Client requests *)

(** [Vg_pmatClientRequest] with the arguments each request carries.  A null
    [name] pointer is [None].  [Foreign] is a request of another tool. *)
Inductive Vg_pmatClientRequest :=
| PMC_DO_FLUSH (a len : Z)
| PMC_DO_FENCE
| PMC_RESERVED1
| PMC_WRITE_STATS
| PMC_RESERVED2
| PMC_RESERVED3
| PMC_RESERVED4
| PMC_RESERVED5
| PMC_RESERVED7
| PMC_RESERVED8
| PMC_RESERVED6
| PMC_PMAT_REGISTER (name : option string) (a size : Z)
| PMC_PMAT_UNREGISTER_BY_NAME (name : string)
| PMC_PMAT_UNREGISTER_BY_ADDR (a : Z)
| PMC_PMAT_FORCE_SIMULATE_CRASH
| PMC_PMAT_CRASH_DISABLE
| PMC_PMAT_CRASH_ENABLE
| PMC_PMAT_TRANSIENT (a size : Z)
| GDB_MONITOR_COMMAND (keyword : Z)
| Foreign.

Definition set_registered_files (r : list pmat_registered_file) (m : machine) :=
  set_pmem (with_registered_files r (pmem m)) m.

Definition set_transient_addresses (t : list pmat_transient_entry)
           (m : machine) :=
  set_pmem (with_transient_addresses t (pmem m)) m.

(** The mode [0666] passed to every [VG_(open)]. *)
Definition open_mode : Z := 438.

(** [handle_gdb_monitor_command], on the result of [VG_(keyword_id)]. *)
Definition handle_gdb_monitor_command (keyword : Z) (m : machine)
  : option (bool * machine) :=
  if keyword =? -2 then Some (true, m)
  else if keyword =? -1 then Some (false, m)
  else if keyword =? 0 then Some (true, emit (Emit "pmat gdb monitor commands") m)
  else None.

Definition unregister (found : option pmat_registered_file) (m : machine)
  : machine :=
  match found with
  | None => m
  | Some f =>
      set_registered_files
        (OSetGen_Remove cmp_pmat_registered_files1
           (pmat_registered_files (pmem m)) f) m
  end.

Definition pmat_handle_client_request (running : Z)
           (arg : Vg_pmatClientRequest) (m : machine)
  : option (bool * machine) :=
  match arg with
  | Foreign => Some (false, m)
  | PMC_PMAT_TRANSIENT a size =>
      ' proceed <-
          (if OSetGen_Size (pmat_registered_files (pmem m)) >? 0 then
             ' found <- lookup_file a m ;;
             Some match found with Some _ => true | None => false end
           else Some true) ;;
      if negb proceed then Some (true, m)
      else
        let e := mk_transient_entry a size in
        if OSetGen_Contains cmp_pmat_transient_entries
             (pmat_transient_addresses (pmem m)) e
        then Some (true, m)
        else
          ' t <- OSetGen_Insert cmp_pmat_transient_entries
                   (pmat_transient_addresses (pmem m)) e ;;
          Some (true, set_transient_addresses t m)
  | PMC_PMAT_CRASH_ENABLE =>
      Some (true, set_pmem (with_should_verify true (pmem m)) m)
  | PMC_PMAT_CRASH_DISABLE =>
      Some (true, set_pmem (with_should_verify false (pmem m)) m)
  | PMC_PMAT_REGISTER _name a size =>
      match _name with
      | None =>
          Some (false, emit (Emit "First argument 'name' must _not_ be NULL!") m)
      | Some name =>
          if negb (TRIM_CACHELINE a =? a) then
            Some (false, emit (Emit "Address 0x%lx is not aligned to cache line size of %d!") m)
          else
            let (res, w) := VG_open name open_mode (sys m) in
            ' descr <- res ;;
            let w := VG_ftruncate descr size w in
            if descr =? wrap64 (-1) then None
            else
              ' files <- OSetGen_Insert cmp_pmat_registered_files1
                           (pmat_registered_files (pmem m))
                           (mk_registered_file name a size descr) ;;
              Some (true, set_registered_files files (set_sys w m))
      end
  | PMC_PMAT_UNREGISTER_BY_ADDR a =>
      if OSetGen_Size (pmat_registered_files (pmem m)) >? 0 then
        ' found <- lookup_file a m ;;
        Some (true, unregister found m)
      else Some (true, m)
  | PMC_PMAT_UNREGISTER_BY_NAME name =>
      if OSetGen_Size (pmat_registered_files (pmem m)) >? 0 then
        ' found <- OSetGen_LookupWithCmp (pmat_registered_files (pmem m))
                     (mk_registered_file name 0 0 0) find_file_by_name ;;
        Some (true, unregister found m)
      else Some (true, m)
  | PMC_PMAT_FORCE_SIMULATE_CRASH =>
      ' m <- simulate_crash m ;; Some (true, m)
  | PMC_DO_FLUSH a len =>
      ' m <- do_flush running a len m ;;
      ' m <- maybe_simulate_crash m ;;
      Some (true, m)
  | PMC_DO_FENCE =>
      ' m <- do_fence running m ;; Some (true, m)
  | GDB_MONITOR_COMMAND keyword => handle_gdb_monitor_command keyword m
  | PMC_RESERVED1 => Some (true, m)
  | PMC_RESERVED2 | PMC_RESERVED3 | PMC_RESERVED4 | PMC_RESERVED5
  | PMC_RESERVED6 | PMC_RESERVED7 | PMC_RESERVED8 =>
      Some (false, emit (Emit "Warning: deprecated pmat client request code 0x%llx") m)
  | PMC_WRITE_STATS =>
      Some (false, emit (Emit "Warning: unknown pmat client request code 0x%llx") m)
  end.

(** ** Start-up and the runs of the tool *)

Definition pmat_post_clo_init (l : limits) (verifier : option string)
           (w : world) : machine :=
  mk_machine l
    (mk_pmem [] [] [] 0 0 true verifier [] 0%Q 0%Q 0%Q 0%Q 0%Q) w.

(** What the host framework asks of the tool while the guest runs: the
    three instrumentation callbacks and the client requests, each on
    behalf of the running thread. *)
Inductive call :=
| Store (running context a size value : Z)
| Flush (running a : Z)
| FlushFence (running a : Z)
| Fence (running : Z)
| Request (running : Z) (arg : Vg_pmatClientRequest).

Definition step (c : call) (m : machine) : option machine :=
  match c with
  | Store running context a size value =>
      trace_pmem_store running context a size value m
  | Flush running a => trace_pmem_flush running a m
  | FlushFence running a => trace_pmem_flush_fence running a m
  | Fence running => do_fence running m
  | Request running arg =>
      ' (_, m') <- pmat_handle_client_request running arg m ;; Some m'
  end.

Fixpoint run (cs : list call) (m : machine) : option machine :=
  match cs with
  | [] => Some m
  | c :: cs' => ' m1 <- step c m ;; run cs' m1
  end.

(** * The rest of [pmat_main.c] *)

From Stdlib Require Import Lqa Qpower.

(** ** The verifier's argument vector *)


(** ** Widening of the stored value *)

(** The types and the constant tags of the intermediate representation
    that the instrumentation tells apart; [Ity_other] and [Ico_other] stand
    for those it leaves to the [default] of its switches. *)
Inductive IRType :=
| Ity_INVALID
| Ity_I1
| Ity_I8
| Ity_I16
| Ity_I32
| Ity_I64
| Ity_F64
| Ity_V128
| Ity_V256
| Ity_other.

Inductive IROp :=
| Iop_1Uto64
| Iop_8Uto64
| Iop_16Uto64
| Iop_32Uto64.

(** A constant with the value it carries. *)
Inductive IRConst :=
| Ico_U1 (v : Z)
| Ico_U8 (v : Z)
| Ico_U16 (v : Z)
| Ico_U32 (v : Z)
| Ico_U64 (v : Z)
| Ico_other.

Definition tmp_needs_widen (type : IRType) : bool :=
  match type with
  | Ity_I1 | Ity_I8 | Ity_I16 | Ity_I32 => true
  | _ => false
  end.

Definition const_needs_widen (con : IRConst) : bool :=
  match con with
  | Ico_U1 _ | Ico_U8 _ | Ico_U16 _ | Ico_U32 _ | Ico_U64 _ => true
  | Ico_other => false
  end.

(** The cast [(UInt)]. *)
Definition UInt (x : Z) : Z := x mod 2 ^ 32.

(** [widen_const]: the value of the host-word constant it builds; [None]
    is the failed assertion of the [default]. *)
Definition widen_const (con : IRConst) : option Z :=
  match con with
  | Ico_U1 v => Some (UInt v)
  | Ico_U8 v => Some (UInt v)
  | Ico_U16 v => Some (UInt v)
  | Ico_U32 v => Some (UInt v)
  | Ico_U64 v => Some (UInt v)
  | Ico_other => None
  end.

(** [widen_operation], on the type of its expression. *)
Definition widen_operation (type : IRType) : option IROp :=
  match type with
  | Ity_I1 => Some Iop_1Uto64
  | Ity_I8 => Some Iop_8Uto64
  | Ity_I16 => Some Iop_16Uto64
  | Ity_I32 => Some Iop_32Uto64
  | _ => None
  end.

(** ** The report at exit *)

(** In exact arithmetic; [Binary64.sqrt] is the loop of [sqrt] in
    binary64. *)

Local Open Scope Q_scope.

(** The precision [error] of [sqrt]. *)
Definition sqrt_error : Q := 1 # 100000.

(** The loop of [sqrt]; [fuel] bounds the number of times its condition is
    evaluated. *)
Fixpoint sqrt_loop (fuel : nat) (number s : Q) : option Q :=
  match fuel with
  | O => None
  | S fuel' =>
      if Qle_bool (s - number / s) sqrt_error then Some s
      else sqrt_loop fuel' number ((s + number / s) / 2)
  end.

Definition sqrt (fuel : nat) (number : Q) : option Q :=
  sqrt_loop fuel number number.

(** The two loops of [scientificNotation]. *)
Fixpoint scale_down (fuel : nat) (norm : Q) (exp : Z) : option (Q * Z) :=
  match fuel with
  | O => None
  | S fuel' =>
      if Qle_bool 10 norm then scale_down fuel' (norm / 10) (exp + 1)%Z
      else Some (norm, exp)
  end.

Fixpoint scale_up (fuel : nat) (norm : Q) (exp : Z) : option (Q * Z) :=
  match fuel with
  | O => None
  | S fuel' =>
      if Qle_bool 1 norm then Some (norm, exp)
      else scale_up fuel' (norm * 10) (exp - 1)%Z
  end.

(** [scientificNotation(d, &norm, &exp)]: the mantissa and the exponent it
    leaves.  A [Double]'s exponent stays within a few hundred, far from the
    ends of the [Word] that counts it. *)
Definition scientificNotation (fuel : nat) (d : Q) : option (Q * Z) :=
  if Qeq_bool d 0 then Some (d, 0%Z)
  else
    ' (norm, exp) <- scale_down fuel d 0%Z ;;
    scale_up fuel norm exp.

Local Close Scope Q_scope.

(** ** Stack traces *)

(** An [ExeContext] of the host framework: where it lives and the
    instruction addresses of its stack trace, innermost first.  A null
    pointer is [None]. *)
Record ExeContext := mk_ExeContext {
  ec_where : Z;
  ec_ips : list Z
}.

Section StackTraces.

(** What [VG_(describe_IP)] answers for an instruction address. *)
Variable describe_IP : Z -> string.

(** [VG_(strstr)(haystack, needle) != NULL] *)
Definition strstr (haystack needle : string) : bool :=
  match index 0 needle haystack with
  | Some _ => true
  | None => false
  end.

Definition is_ip_memset_memcpy (ip : Z) : bool :=
  let buf := describe_IP ip in
  let present := strstr buf "memcpy" in
  present || strstr buf "memset".

(** Whether the comparison leaves out the top of the two stacks: [++i]. *)
Definition omit_top (ips1 ips2 : list Z) : nat :=
  if (nth 0 ips1 0 =? nth 0 ips2 0)
     || (is_ip_memset_memcpy (nth 0 ips1 0)
         && is_ip_memset_memcpy (nth 0 ips2 0))
  then 1%nat else 0%nat.

(** The loop of [cmp_exe_context] over two traces of one depth. *)
Fixpoint same_ips (ips1 ips2 : list Z) : bool :=
  match ips1, ips2 with
  | a :: ips1', b :: ips2' =>
      if negb (a =? b) then false else same_ips ips1' ips2'
  | _, _ => true
  end.

(** The loop of [cmp_exe_context_pointers]. *)
Fixpoint order_ips (ips1 ips2 : list Z) : Z :=
  match ips1, ips2 with
  | a :: ips1', b :: ips2' =>
      if a >? b then 1 else if b >? a then -1 else order_ips ips1' ips2'
  | _, _ => 0
  end.

Definition n_ips (c : ExeContext) : Z := Z.of_nat (List.length (ec_ips c)).

Definition cmp_exe_context (lhs rhs : option ExeContext) : option bool :=
  match lhs, rhs with
  | Some l, Some r =>
      if ec_where l =? ec_where r then Some true
      else if negb ((n_ips l >=? 1) && (n_ips r >=? 1)) then None
      else if negb (n_ips l =? n_ips r) then Some false
      else
        let i := omit_top (ec_ips l) (ec_ips r) in
        Some (same_ips (skipn i (ec_ips l)) (skipn i (ec_ips r)))
  | _, _ => Some false
  end.

(** The arguments point to the two contexts; a null pointer at either
    level fails the assertion. *)
Definition cmp_exe_context_pointers (lhs rhs : option ExeContext)
  : option Z :=
  match lhs, rhs with
  | Some l, Some r =>
      if ec_where l =? ec_where r then Some 0
      else if negb ((n_ips l >=? 1) && (n_ips r >=? 1)) then None
      else if n_ips l >? n_ips r then Some 1
      else if n_ips r >? n_ips l then Some (-1)
      else
        let i := omit_top (ec_ips l) (ec_ips r) in
        Some (order_ips (skipn i (ec_ips l)) (skipn i (ec_ips r)))
  | _, _ => None
  end.

End StackTraces.

(** * The statistics in the arithmetic of the source *)

(** The machine above carries the [Double]s of [struct pmem_ops] as exact
    rationals.  The functions that compute with them are given here once
    more, in the arithmetic of the compiled code: a [Double] is an IEEE 754
    binary64 number, and each operation rounds its exact result to the
    nearest one, ties to even. *)

From Stdlib Require Floats.

Module Binary64.
Import Floats.
Local Open Scope float_scope.

(** The conversion [(Double) n] of a [Word] or a [long]: the [Double]
    nearest to [n]. *)
Definition Double_of_Word (n : Z) : float :=
  SF2Prim (binary_normalize prec emax n 0 false).

(** The fields of [struct pmem_ops] that the statistics use. *)
Record pmem_ops := mk_pmem {
  pmat_num_verifications : Z;
  pmat_min_verification_time : float;
  pmat_max_verification_time : float;
  pmat_mean_verification_time : float;
  pmat_ssd_verification_time : float
}.


Definition update_stats (sec : float) (p : pmem_ops) : pmem_ops :=
  let delta1 := sec - pmat_mean_verification_time p in
  let mean := pmat_mean_verification_time p
              + delta1 / Double_of_Word (pmat_num_verifications p) in
  let delta2 := sec - mean in
  mk_pmem (pmat_num_verifications p)
    (pmat_min_verification_time p) (pmat_max_verification_time p)
    mean (pmat_ssd_verification_time p + delta1 * delta2).

Definition get_stats (p : pmem_ops) : float * float :=
  (pmat_mean_verification_time p,
   pmat_ssd_verification_time p / Double_of_Word (pmat_num_verifications p)).

(** [((a) > (b)) ? (a) : (b)] and [((a) < (b)) ? (a) : (b)] *)
Definition VG_MAX (a b : float) : float := if b <? a then a else b.
Definition VG_MIN (a b : float) : float := if a <? b then a else b.

(** The [temp] of [diff], in the arithmetic of [long]. *)
Definition diff_temp (start end_ : timespec) : timespec :=
  if (sword64 (tv_nsec end_ - tv_nsec start) <? 0)%Z
  then mk_timespec
         (sword64 (sword64 (tv_sec end_ - tv_sec start) - 1))
         (sword64 (sword64 (1000000000 + tv_nsec end_) - tv_nsec start))
  else mk_timespec
         (sword64 (tv_sec end_ - tv_sec start))
         (sword64 (tv_nsec end_ - tv_nsec start)).

(** Seconds between two readings of the clock. *)
Definition diff (start end_ : timespec) : float :=
  let temp := diff_temp start end_ in
  Double_of_Word (tv_sec temp) + Double_of_Word (tv_nsec temp) / 1000000000.

(** What [simulate_crash] does to the statistics once the child has been
    waited for and the time [sec] of its run has been taken. *)
Definition record_verification (sec : float) (p : pmem_ops) : pmem_ops :=
  let p := mk_pmem (sword64 (pmat_num_verifications p + 1))
             (pmat_min_verification_time p) (pmat_max_verification_time p)
             (pmat_mean_verification_time p)
             (pmat_ssd_verification_time p) in
  let p := update_stats sec p in
  let mx := VG_MAX (pmat_max_verification_time p) sec in
  let mn := VG_MIN (pmat_min_verification_time p) sec in
  let mn := if mn =? 0 then sec else mn in
  mk_pmem (pmat_num_verifications p) mn mx
    (pmat_mean_verification_time p) (pmat_ssd_verification_time p).

(** The precision [error] of [sqrt]: [0.00001] as a [double]. *)
Definition sqrt_error : float := 0x1.4f8b588e368f1p-17.

(** The loop of [sqrt]; [fuel] bounds the number of times its condition is
    evaluated. *)
Fixpoint sqrt_loop (fuel : nat) (number s : float) : option float :=
  match fuel with
  | O => None
  | S fuel' =>
      if sqrt_error <? s - number / s
      then sqrt_loop fuel' number ((s + number / s) / 2)
      else Some s
  end.

Definition sqrt (fuel : nat) (number : float) : option float :=
  sqrt_loop fuel number number.

End Binary64.

(** * Notions used to state the properties *)

(** ** Sample statistics *)






(** The statistics after the verifier has been run once per element of
    [xs], in order. *)
Definition record_all (xs : list Q) (p : pmem_ops) : pmem_ops :=
  fold_left (fun p x => record_verification x p) xs p.

(** ** A small world to run examples in *)

(** No files yet, descriptors from 3, a random stream of constant [r], a
    verifier that always exits with [status]. *)
Definition quiet_world (umask r status : Z) : world :=
  mk_world (fun _ => None) (fun _ => None) 3 umask [] (fun _ => r) 0
    (fun _ => 170)
    (fun _ => mk_child_run (mk_timespec 0 0) (mk_timespec 1 0)
                (Z.shiftl status 8)) [].

(** ** Keys *)

Definition wb_addr (w : pmat_write_buffer_entry) : Z := addr (entry w).

(** The entries [drain] leaves: those whose line none of the drained
    entries holds. *)
Definition undrained (arr : list pmat_write_buffer_entry)
           (x : pmat_write_buffer_entry) : bool :=
  forallb (fun w => negb (wb_addr w =? wb_addr x)) arr.


(** ** Crash simulation *)

(** The [/bin/cp] runs of [copy_files]: one per registered file, in
    iteration order. *)
Definition copies (suffix : string) (n : Z) (files : list pmat_registered_file)
  : list event :=
  map (fun tmp => Exec "/bin/cp"
                    ["cp"; rf_name tmp; copy_name (rf_name tmp) n suffix;
                     "--reflink=auto"]) files.

(** The events a machine has added to the trace of an earlier one. *)
Definition events_since (m m' : machine) : list event :=
  skipn (List.length (w_trace (sys m))) (w_trace (sys m')).

(** ** Claims that the code does not bear out, as the specification words
    them *)

(** Registration leaves a file of exactly [size] bytes whose mode is
    read-write for the owning user and group only ([0660]). *)
Definition register_mode_user_group_only : Prop :=
  forall running name a size m m',
    TRIM_CACHELINE a = a ->
    pmat_handle_client_request running (PMC_PMAT_REGISTER (Some name) a size) m
    = Some (true, m') ->
    exists f, w_files (sys m') name = Some f
              /\ List.length (f_bytes f) = Z.to_nat size
              /\ f_mode f = 432.

(** The address lies inside the region. *)
Definition inside (r : pmat_registered_file) (a : Z) : Prop :=
  rf_addr r <= a < rf_addr r + rf_size r.

(** A transient request whose address lies inside no registered region,
    also when there is none, leaves the transient table as it was. *)
Definition transient_outside_is_noop : Prop :=
  forall running a size m b m',
    (forall r, In r (pmat_registered_files (pmem m)) -> ~ inside r a) ->
    pmat_handle_client_request running (PMC_PMAT_TRANSIENT a size) m
    = Some (b, m') ->
    pmat_transient_addresses (pmem m') = pmat_transient_addresses (pmem m).

(** Every store to a tracked address performs the crash check. *)
Definition store_always_checks_for_crash : Prop :=
  forall running context a size value m m',
    is_pmem_access a size m = Some true ->
    trace_pmem_store running context a size value m = Some m' ->
    In CrashCheck (events_since m m').

(** A tool with verifier [/bin/false] and every random draw 0, so that
    every crash check that is made does simulate a crash. *)
Definition eager_machine : machine :=
  pmat_post_clo_init (mk_limits 4 2) (Some "/bin/false") (quiet_world 18 0 1).

Definition register_r1 : call :=
  Request 1 (PMC_PMAT_REGISTER (Some "r1") 4096 128).

(** What a store appends to the trace before the crash check: warnings and
    the record of an overrun. *)
Definition quiet (pre : list event) : Prop :=
  Forall (fun ev => ev <> CrashCheck) pre.


(** A tool without a verifier, in a world whose random draws are all 1. *)
Definition plain_machine : machine :=
  pmat_post_clo_init (mk_limits 4 2) None (quiet_world 18 1 0).

(** ** Well-formed machines *)

(** A value of a 64-bit unsigned type. *)
Definition word (x : Z) : Prop := 0 <= x < 2 ^ 64.

(** The calls the instrumentation and the guest can make: addresses and
    sizes are machine words, and the instrumented stores are of 1 to 8
    bytes (wider ones are split into 8-byte callbacks). *)
Definition call_ok (c : call) : Prop :=
  match c with
  | Store _ _ a size value => word a /\ 1 <= size <= 8 /\ word value
  | Flush _ a => word a
  | FlushFence _ a => word a
  | Fence _ => True
  | Request _ arg =>
      match arg with
      | PMC_DO_FLUSH a len => word a /\ word len
      | PMC_PMAT_REGISTER _ a size => word a /\ word size
      | PMC_PMAT_UNREGISTER_BY_ADDR a => word a
      | PMC_PMAT_TRANSIENT a size => word a /\ word size
      | _ => True
      end
  end.

(** The states the tool can be in: from start-up, by calls that do not
    abort it. *)
Inductive reached : machine -> Prop :=
| reached_init l v w : reached (pmat_post_clo_init l v w)
| reached_step c m m' :
    reached m -> call_ok c -> step c m = Some m' -> reached m'.

(** Byte [i] of the entry is not marked dirty. *)
Definition clean (e : pmat_cache_entry) (i : nat) : Prop :=
  Z.testbit (dirtyBits e) (Z.of_nat i) = false.

(** The bytes of an entry that are not marked dirty are zero. *)
Definition clean_zero (e : pmat_cache_entry) : Prop :=
  forall i, (i < line_bytes)%nat -> clean e i -> nth i (data e) 0 = 0.

Definition entry_ok (e : pmat_cache_entry) : Prop :=
  word (addr e) /\ TRIM_CACHELINE (addr e) = addr e /\ clean_zero e.

Definition machine_ok (m : machine) : Prop :=
  Forall entry_ok (pmat_cache_entries (pmem m))
  /\ Forall (fun w => entry_ok (entry w)) (pmat_write_buffer_entries (pmem m))
  /\ NoDup (map addr (pmat_cache_entries (pmem m)))
  /\ NoDup (map wb_addr (pmat_write_buffer_entries (pmem m))).

(** ** Lines and their bytes in the backing files *)

(** Where [write_to_file] puts the line at [a]: the path of the backing
    file of its region and the offset in it. *)
Definition slot (m : machine) (a : Z) : option (string * nat) :=
  match lookup_file a m with
  | Some (Some r) =>
      match w_fds (sys m) (rf_descr r) with
      | Some path => Some (path, Z.to_nat (wrap64 (a - rf_addr r)))
      | None => None
      end
  | _ => None
  end.

(** Byte [i] of the line of [e] in the backing file of its region. *)
Definition backing_byte (m : machine) (e : pmat_cache_entry) (i : nat)
  : option Z :=
  match slot m (addr e) with
  | Some (path, off) => Some (file_byte (sys m) path (off + i))
  | None => None
  end.

(** The byte at offset [o] of the file at [p] lies in the line [a]. *)
Definition in_slot (m : machine) (a : Z) (p : string) (o : nat) : Prop :=
  exists off, slot m a = Some (p, off) /\ (off <= o < off + line_bytes)%nat.

(** Dirty-bit integrity as the specification words it: a byte of an entry
    that is not marked dirty equals the byte of the backing file. *)
Definition dirty_bit_integrity : Prop :=
  forall m, reached m ->
  forall e, In e (pmat_cache_entries (pmem m)) ->
  forall i, (i < line_bytes)%nat -> clean e i ->
  backing_byte m e i = Some (nth i (data e) 0).

Definition line_in_cache (m : machine) (a : Z) : Prop :=
  In a (map addr (pmat_cache_entries (pmem m))).

Definition line_in_write_buffer (m : machine) (a : Z) : Prop :=
  In a (map wb_addr (pmat_write_buffer_entries (pmem m))).

(** The number of entries of the write buffer once the line of [base] has
    moved into it: the entries it holds for other lines, and the one for
    the line. *)
Definition wb_size_after_move (base : Z) (m : machine) : Z :=
  OSetGen_Size
    (filter (fun x => negb (TRIM_CACHELINE base =? wb_addr x))
       (pmat_write_buffer_entries (pmem m))) + 1.

(** No line is both in the cache and in the write buffer. *)
Definition disjoint (m : machine) : Prop :=
  forall a, ~ (line_in_cache m a /\ line_in_write_buffer m a).

(** Disjointness as the specification words it: in every state. *)
Definition cache_and_write_buffer_always_disjoint : Prop :=
  forall m, reached m -> disjoint m.

Definition store_8 (context a value : Z) : call := Store 1 context a 8 value.

(** Registered regions that share a backing file start at the same address:
    no file backs two regions. *)
Definition distinct_files (m : machine) : Prop :=
  forall r1 r2 p,
    In r1 (pmat_registered_files (pmem m)) ->
    In r2 (pmat_registered_files (pmem m)) ->
    w_fds (sys m) (rf_descr r1) = Some p ->
    w_fds (sys m) (rf_descr r2) = Some p ->
    rf_addr r1 = rf_addr r2.

(** The dirty bytes of the entry are in the backing file of its region. *)
Definition persisted (m : machine) (e : pmat_cache_entry) : Prop :=
  forall i, (i < line_bytes)%nat ->
            Z.testbit (dirtyBits e) (Z.of_nat i) = true ->
            backing_byte m e i = Some (nth i (data e) 0).

(** No byte of a file lies in the slots of both lines. *)
Definition separate (m : machine) (a1 a2 : Z) : Prop :=
  forall p o, in_slot m a1 p o -> in_slot m a2 p o -> False.

(** A flush as the specification words its frame: the cache entries and
    the write-buffer entries of the other lines, and the bytes of the
    backing files outside the flushed line, are as before. *)
Definition flush_leaves_other_lines : Prop :=
  forall running base size m m',
    reached m ->
    do_flush running base size m = Some m' ->
    (forall e, In e (pmat_cache_entries (pmem m)) ->
               addr e <> TRIM_CACHELINE base ->
               In e (pmat_cache_entries (pmem m')))
    /\ (forall w, In w (pmat_write_buffer_entries (pmem m)) ->
                  wb_addr w <> TRIM_CACHELINE base ->
                  In w (pmat_write_buffer_entries (pmem m')))
    /\ (forall p o, ~ in_slot m (TRIM_CACHELINE base) p o ->
                    file_byte (sys m') p o = file_byte (sys m) p o).

(** A tool whose write buffer is over capacity with two entries, in a
    world whose random draws are all 0. *)
Definition tight_machine : machine :=
  pmat_post_clo_init (mk_limits 4 1) None (quiet_world 18 0 0).

(** ** Machines to run the properties on *)

Definition or_else (o : option machine) (m : machine) : machine :=
  match o with
  | Some x => x
  | None => m
  end.

(** After the registration of [r1]. *)
Definition registered_machine : machine :=
  or_else (run [register_r1] plain_machine) plain_machine.

(** After a store into the first line of [r1]. *)
Definition stored_machine : machine :=
  or_else (run [register_r1; store_8 7 4096 1] plain_machine) plain_machine.

(** After the flush of that line. *)
Definition flushed_machine : machine :=
  or_else (run [register_r1; store_8 7 4096 1; Flush 1 4096] plain_machine)
    plain_machine.

(** Both lines of [r1] flushed and stored to again: the write buffer is
    full, and each of its two lines has an entry in the cache as well. *)
Definition refilled_machine : machine :=
  or_else
    (run [register_r1; store_8 7 4096 1; store_8 7 (4096 + 64) 2;
          Flush 1 4096; Flush 1 (4096 + 64);
          store_8 7 4096 3; store_8 7 (4096 + 64) 4] plain_machine)
    plain_machine.

(** A tool with a verifier that fails, after the registration of [r1]. *)
Definition eager_registered : machine :=
  or_else (run [register_r1] eager_machine) eager_machine.

(** The line at [a] can be written back: its region is found, the region's
    descriptor is open on a file that exists, and the offset is one
    [lseek] accepts. *)
Definition writable (m : machine) (a : Z) : Prop :=
  exists r path f,
    lookup_file a m = Some (Some r)
    /\ w_fds (sys m) (rf_descr r) = Some path
    /\ w_files (sys m) path = Some f
    /\ (sword64 (wrap64 (a - rf_addr r)) <? 0) = false.

(** What the scenarios of the specification look at: the lines in the
    cache, the lines in the write buffer with their threads, and the first
    bytes of the file [r1]. *)
Definition observe (o : option machine)
  : option (list Z * list (Z * Z) * list Z) :=
  match o with
  | None => None
  | Some m =>
      Some (map addr (pmat_cache_entries (pmem m)),
            map (fun w => (wb_addr w, tid w))
              (pmat_write_buffer_entries (pmem m)),
            match w_files (sys m) "r1" with
            | Some f => firstn 10 (f_bytes f)
            | None => []
            end)
  end.

(** * Notions used by the further properties *)

(** ** Stores on their way to the backing file *)

(** Byte [i] of the [size] bytes a store writes. *)
Definition value_byte (value size : Z) (i : nat) : Z :=
  nth i (value_bytes value (Z.to_nat size)) 0.

(** The entry is on its way to the backing file on behalf of thread [T]:
    it is in the cache; or it is in the write buffer under [T] and the
    cache has nothing for its line; or its dirty bytes are in the file and
    neither the cache nor the write buffer has anything for its line. *)
Definition on_its_way (T : Z) (e : pmat_cache_entry) (m : machine) : Prop :=
  In e (pmat_cache_entries (pmem m))
  \/ (In (mk_wb_entry e T) (pmat_write_buffer_entries (pmem m))
      /\ ~ line_in_cache m (addr e))
  \/ (persisted m e
      /\ ~ line_in_cache m (addr e)
      /\ ~ line_in_write_buffer m (addr e)).

(** The store has left its bytes in the entry and marked them. *)
Definition holds_store (a size value : Z) (e : pmat_cache_entry) : Prop :=
  addr e = TRIM_CACHELINE a
  /\ forall i, (i < Z.to_nat size)%nat ->
       Z.testbit (dirtyBits e)
         (Z.of_nat (Z.to_nat (OFFSET_CACHELINE a) + i)) = true
       /\ nth (Z.to_nat (OFFSET_CACHELINE a) + i) (data e) 0
          = value_byte value size i.

(** ** Crash simulation *)

(** The calls that ask for a simulated crash or switch the random ones
    on. *)
Definition crash_request (c : call) : bool :=
  match c with
  | Request _ PMC_PMAT_FORCE_SIMULATE_CRASH => true
  | Request _ PMC_PMAT_CRASH_ENABLE => true
  | _ => false
  end.

(** What the crash simulator keeps between its runs. *)
Definition verification_state (m : machine) : Z * Z * option string * (Q * Q * Q * Q) :=
  (pmat_num_verifications (pmem m), pmat_num_bad_verifications (pmem m),
   pmat_verifier (pmem m),
   (pmat_min_verification_time (pmem m), pmat_max_verification_time (pmem m),
    pmat_mean_verification_time (pmem m), pmat_ssd_verification_time (pmem m))).

(** The events the crash simulator leaves behind. *)
Definition crash_event (ev : event) : bool :=
  match ev with
  | Unlink _ | Exec _ _ => true
  | _ => false
  end.

(** ** A machine with a region of no bytes *)

Definition register_r0 : call :=
  Request 1 (PMC_PMAT_REGISTER (Some "r0") 4096 0).

Definition empty_region_machine : machine :=
  or_else (run [register_r0] plain_machine) plain_machine.

(** A tool with a verifier whose random draws are all 1, so that no crash
    check simulates a crash, after the registration of [r1]. *)
Definition calm_machine : machine :=
  or_else
    (run [register_r1]
       (pmat_post_clo_init (mk_limits 4 2) (Some "/bin/true")
          (quiet_world 18 1 0)))
    plain_machine.

(** A well-formed machine in which no backing file serves two regions. *)
Definition sound (m : machine) : Prop := machine_ok m /\ distinct_files m.

(** The crash simulator has been left alone between [m] and [m']: its
    counters, its verifier and its times are as before, and it has copied
    and unlinked nothing. *)
Definition crash_untouched (m m' : machine) : Prop :=
  verification_state m' = verification_state m
  /\ filter crash_event (w_trace (sys m'))
     = filter crash_event (w_trace (sys m)).

(** ** Further machines to run the properties on *)

(** The entry of a store of 1 into the first line of [r1], waiting under
    thread 1. *)
Definition pending_line : pmat_write_buffer_entry :=
  mk_wb_entry (fresh_entry 7 4096 8 1) 1.

(** After a store into [r1], the flush of its line and a fence. *)
Definition persisted_machine : machine :=
  or_else
    (run [Store 1 7 4096 8 0x1122334455667788; Flush 1 4096; Fence 1]
       registered_machine)
    registered_machine.

(** After a store into [r1] and the flush of its line that fences. *)
Definition flush_fenced_machine : machine :=
  or_else
    (run [Store 1 7 4096 8 0x1122334455667788; FlushFence 1 4096]
       registered_machine)
    registered_machine.

(** After the writeback of [pending_line]. *)
Definition written_machine : machine :=
  or_else (write_to_file pending_line registered_machine) registered_machine.

(** After a store into [r1] and the unregistration of [r1]. *)
Definition orphaned_machine : machine :=
  or_else (run [Request 1 (PMC_PMAT_UNREGISTER_BY_ADDR 4096)] stored_machine)
    stored_machine.

(** After the registration of [r1] and a transient request for its first
    eight bytes. *)
Definition transient_machine : machine :=
  or_else (run [Request 1 (PMC_PMAT_TRANSIENT 4096 8)] registered_machine)
    registered_machine.

(** A tool whose verifier fails and whose every random draw would simulate
    a crash, after the registration of [r1] and with the checks switched
    off. *)
Definition disabled_machine : machine :=
  or_else (run [Request 1 PMC_PMAT_CRASH_DISABLE] eager_registered)
    eager_registered.

(** A run that persists a store and then forces a crash. *)
Definition forced_run : list call :=
  [register_r1; store_8 7 4096 1; Flush 1 4096; Fence 1;
   Request 1 PMC_PMAT_FORCE_SIMULATE_CRASH].

(** A store, its flush and a fence. *)
Definition persisting_run : list call :=
  [store_8 7 4096 1; Flush 1 4096; Fence 1].

(** A tool whose cache holds one line, in a world whose random draws are
    all 1, after the registration of [r1] and a store into its first
    line. *)
Definition narrow_machine : machine :=
  or_else
    (run [register_r1; store_8 7 4096 1]
       (pmat_post_clo_init (mk_limits 1 2) None (quiet_world 18 1 0)))
    plain_machine.

(** * Notions used with the binary64 statistics *)

From Stdlib Require Qabs.

Section DoubleValues.
Import Floats.

(** Neither an infinity nor a NaN. *)
Definition is_finite (x : float) : bool :=
  match Prim2SF x with
  | S754_zero _ | S754_finite _ _ _ => true
  | _ => false
  end.

(** The number a finite [Double] stands for. *)
Definition B2Q (x : float) : Q :=
  match Prim2SF x with
  | S754_finite s m e =>
      ((if s then -1 else 1) * inject_Z (Z.pos m) * 2 ^ e)%Q
  | _ => 0%Q
  end.













(** The Newton step of [sqrt] from [s] is taken [k] more times, and then
    leaves [s] as it is: the loop's condition holds at each of them. *)
Fixpoint stalls (k : nat) (number s : float) : Prop :=
  (Binary64.sqrt_error <? s - number / s)%float = true
  /\ match k with
     | O => ((s + number / s) / 2)%float = s
     | S k' => stalls k' number ((s + number / s) / 2)%float
     end.

(** [4.8e21]: a variance at which the loop of [sqrt] stalls. *)
Definition stalling_variance : float := 4800000000000000000000%float.

End DoubleValues.

(** * Properties *)

(** ** Welford's recurrence *)

Section Welford.
Local Open Scope Q_scope.




Lemma record_verification_count sec p :
  (0 <= pmat_num_verifications p < 2 ^ 63 - 1)%Z ->
  pmat_num_verifications (record_verification sec p)
  = (pmat_num_verifications p + 1)%Z.
Proof.
  intros H. unfold record_verification, update_stats, with_times,
    with_num_verifications; cbn [pmat_num_verifications].
  unfold sword64.
  rewrite Z.mod_small by lia. lia.
Qed.




End Welford.

(** ** How each operation moves the machine *)

Ltac bind_inv H :=
  match type of H with
  | match ?e with Some _ => _ | None => None end = Some _ =>
      let E := fresh "E" in destruct e eqn:E; [|discriminate]
  | (if ?b then _ else _) = Some _ =>
      let E := fresh "E" in destruct b eqn:E; try discriminate
  | (let (_, _) := ?e in _) = Some _ =>
      let E := fresh "E" in destruct e eqn:E
  end.


(** [write_to_file] touches the files and nothing else. *)
Lemma write_to_file_frame wbe m m' :
  write_to_file wbe m = Some m' ->
  pmem m' = pmem m /\ lim m' = lim m
  /\ w_fds (sys m') = w_fds (sys m)
  /\ w_trace (sys m') = w_trace (sys m)
  /\ w_drawn (sys m') = w_drawn (sys m)
  /\ w_random (sys m') = w_random (sys m).
Proof.
  unfold write_to_file. intros H.
  repeat bind_inv H. destruct p as [path fl].
  injection H as <-. repeat split; reflexivity.
Qed.

Lemma zcmp_eq a b : (zcmp a b =? 0) = (a =? b).
Proof.
  unfold zcmp. destruct (a <? b) eqn:E1; [|destruct (b <? a) eqn:E2];
    destruct (a =? b) eqn:E3; try reflexivity; simpl; lia.
Qed.

Lemma wb_remove_filter b w :
  OSetGen_Remove cmp_pmat_write_buffer_entries b w
  = filter (fun x => negb (wb_addr w =? wb_addr x)) b.
Proof.
  unfold OSetGen_Remove. apply filter_ext. intros x.
  unfold cmp_pmat_write_buffer_entries. rewrite zcmp_eq. reflexivity.
Qed.

Lemma cache_remove_filter c e :
  OSetGen_Remove cmp_pmat_cache_entries c e
  = filter (fun x => negb (addr e =? addr x)) c.
Proof.
  unfold OSetGen_Remove. apply filter_ext. intros x.
  unfold cmp_pmat_cache_entries. rewrite zcmp_eq. reflexivity.
Qed.

Lemma drain_frame arr : forall m m',
  drain arr m = Some m' ->
  pmat_write_buffer_entries (pmem m')
  = filter (undrained arr) (pmat_write_buffer_entries (pmem m))
  /\ pmat_cache_entries (pmem m') = pmat_cache_entries (pmem m)
  /\ pmat_registered_files (pmem m') = pmat_registered_files (pmem m)
  /\ lim m' = lim m
  /\ w_fds (sys m') = w_fds (sys m)
  /\ w_trace (sys m') = w_trace (sys m)
  /\ w_drawn (sys m') = w_drawn (sys m).
Proof.
  induction arr as [|w arr IH]; simpl; intros m m' H.
  - injection H as <-. repeat split; try reflexivity.
    induction (pmat_write_buffer_entries (pmem m)); simpl; congruence.
  - bind_inv H.
    destruct (write_to_file_frame _ _ _ E) as (Hp & Hl & Hf & Ht & Hd & _).
    apply IH in H. destruct H as (Hb & Hc & Hr & Hl' & Hf' & Ht' & Hd').
    simpl in *. rewrite Hp in *.
    repeat split; try congruence.
    rewrite Hb, wb_remove_filter.
    clear. induction (pmat_write_buffer_entries (pmem m)) as [|x b IHb];
      simpl; [reflexivity|].
    destruct (wb_addr w =? wb_addr x); simpl; [exact IHb|].
    destruct (undrained arr x); simpl; congruence.
Qed.

(** ** The crash simulator *)

Lemma copy_files_trace suffix m :
  copy_files suffix m
  = set_sys (with_trace
               (w_trace (sys m)
                ++ copies suffix (pmat_num_verifications (pmem m))
                     (pmat_registered_files (pmem m))) (sys m)) m.
Proof.
  unfold copy_files.
  generalize (pmat_registered_files (pmem m)) as l.
  intros l. revert m.
  induction l as [|tmp l IH]; intros m; simpl.
  - rewrite app_nil_r. destruct m as [l0 p [? ? ? ? ? ? ? ? ? ?]]. reflexivity.
  - rewrite IH. unfold copy_file, emit, set_sys, with_trace; simpl.
    rewrite <- app_assoc. reflexivity.
Qed.

(** The crash simulator leaves the cache, the write buffer, the tables and
    the files alone. *)
Lemma simulate_crash_frame m m' :
  simulate_crash m = Some m' ->
  pmat_cache_entries (pmem m') = pmat_cache_entries (pmem m)
  /\ pmat_write_buffer_entries (pmem m') = pmat_write_buffer_entries (pmem m)
  /\ pmat_registered_files (pmem m') = pmat_registered_files (pmem m)
  /\ pmat_transient_addresses (pmem m') = pmat_transient_addresses (pmem m)
  /\ lim m' = lim m
  /\ w_files (sys m') = w_files (sys m)
  /\ w_fds (sys m') = w_fds (sys m).
Proof.
  unfold simulate_crash. intros H.
  destruct (pmat_verifier (pmem m)); [|injection H as <-; repeat split].
  destruct (OSetGen_Size (pmat_registered_files (pmem m)) =? 0);
    [injection H as <-; repeat split|].
  destruct (VKI_WIFEXITED _).
  - destruct (_ || _); [|destruct (_ =? 0)]; injection H as <-;
      rewrite ?copy_files_trace; repeat split.
  - destruct (VKI_WIFSIGNALED _); [|discriminate].
    injection H as <-. rewrite copy_files_trace. repeat split.
Qed.

Lemma maybe_simulate_crash_frame m m' :
  maybe_simulate_crash m = Some m' ->
  pmat_cache_entries (pmem m') = pmat_cache_entries (pmem m)
  /\ pmat_write_buffer_entries (pmem m') = pmat_write_buffer_entries (pmem m)
  /\ pmat_registered_files (pmem m') = pmat_registered_files (pmem m)
  /\ pmat_transient_addresses (pmem m') = pmat_transient_addresses (pmem m)
  /\ lim m' = lim m
  /\ w_files (sys m') = w_files (sys m)
  /\ w_fds (sys m') = w_fds (sys m).
Proof.
  unfold maybe_simulate_crash. intros H.
  destruct (_ || _).
  - injection H as <-. repeat split.
  - destruct (VG_random _) as [r w] eqn:Er. unfold VG_random in Er.
    injection Er as <- <-.
    destruct (_ =? 0).
    + apply simulate_crash_frame in H. exact H.
    + injection H as <-. repeat split.
Qed.

(** *** The names of the files of an attempt *)

Example decimal_1 : decimal 1 = "1".
Proof. reflexivity. Qed.

Example decimal_2147483647 : decimal 2147483647 = "2147483647".
Proof. reflexivity. Qed.

Example fmt_d_negative : fmt_d (-12) = "-12".
Proof. reflexivity. Qed.

Lemma digits_length fuel : forall n acc,
  (String.length (digits fuel n acc) <= fuel + String.length acc)%nat.
Proof.
  induction fuel as [|fuel IH]; intros n acc; simpl.
  - lia.
  - destruct (n / 10 =? 0); simpl; [lia|].
    specialize (IH (n / 10) (String (ascii_of_nat (48 + Z.to_nat (n mod 10))) acc)).
    simpl in IH. lia.
Qed.

Lemma string_length_app s1 s2 :
  String.length (s1 ++ s2) = (String.length s1 + String.length s2)%nat.
Proof. induction s1 as [|c s1 IH]; simpl; congruence. Qed.

Lemma fmt_d_length x : (String.length (fmt_d x) <= 11)%nat.
Proof.
  unfold fmt_d, decimal. destruct (sint32 x <? 0).
  - rewrite string_length_app. simpl String.length at 1.
    pose proof (digits_length 10 (- sint32 x) ""). simpl in *. lia.
  - pose proof (digits_length 10 (sint32 x) ""). simpl in *. lia.
Qed.

Lemma fmt_d_small x : 0 <= x < 2 ^ 31 -> fmt_d x = decimal x.
Proof.
  intros H. unfold fmt_d, sint32.
  rewrite Z.mod_small by lia.
  replace (x + 2 ^ 31 - 2 ^ 31) with x by lia.
  destruct (x <? 0) eqn:E; [lia|reflexivity].
Qed.

Lemma substring_all s : forall n,
  (String.length s <= n)%nat -> substring 0 n s = s.
Proof.
  induction s as [|c s IH]; intros n H; destruct n; simpl in *;
    try reflexivity; try lia.
  rewrite IH by lia. reflexivity.
Qed.

Lemma attempt_file_fits n ext :
  (String.length ext <= 7)%nat ->
  attempt_file n ext = "bad-verification-" ++ fmt_d n ++ ext.
Proof.
  intros H. unfold attempt_file, VG_snprintf. apply substring_all.
  rewrite !string_length_app. pose proof (fmt_d_length n).
  simpl String.length at 1. lia.
Qed.

Lemma copy_name_fits name n suffix :
  (String.length name + String.length suffix <= 1010)%nat ->
  copy_name name n suffix = name ++ "." ++ fmt_d n ++ "." ++ suffix.
Proof.
  intros H. unfold copy_name, VG_snprintf. apply substring_all.
  rewrite !string_length_app. pose proof (fmt_d_length n).
  simpl String.length. lia.
Qed.

Lemma events_since_app m m' evs :
  w_trace (sys m') = (w_trace (sys m) ++ evs)%list -> events_since m m' = evs.
Proof.
  unfold events_since. intros ->.
  induction (w_trace (sys m)); simpl; auto.
Qed.

Lemma OSetGen_Size_nonempty {E} (t : list E) :
  t <> [] -> (OSetGen_Size t =? 0) = false.
Proof.
  intros H. destruct t; [congruence|].
  unfold OSetGen_Size. apply Z.eqb_neq. simpl List.length. lia.
Qed.


(** C7. Classification of the verifier's termination by [simulate_crash]:
    a child that exited with status 0 has its three per-attempt files (dump,
    stderr, stdout) unlinked and leaves the bad-verification count as it
    was; a child that exited with any other status (0xBD and -0xBD among
    them) is counted as bad and every registered file is copied, in
    iteration order, to [<name>.<k+1>.bad]; a child killed by a signal is
    counted as bad and the copies go to [<name>.<k+1>.bad.coredump].  The
    names are those the code formats into its buffers; they are the literal
    ones whenever they fit the 1024 bytes of the copy's buffer. *)
Theorem simulate_crash_classifies m v :
  pmat_verifier (pmem m) = Some v ->
  pmat_registered_files (pmem m) <> [] ->
  0 <= pmat_num_verifications (pmem m) < 2 ^ 31 - 1 ->
  0 <= pmat_num_bad_verifications (pmem m) < 2 ^ 63 - 1 ->
  let k1 := pmat_num_verifications (pmem m) + 1 in
  let files := pmat_registered_files (pmem m) in
  let bad := pmat_num_bad_verifications (pmem m) in
  let retval :=
    cr_retval (w_verifier_runs (sys m) (pmat_num_verifications (pmem m))) in
  (VKI_WIFEXITED retval = true ->
   exists m',
     simulate_crash m = Some m'
     /\ pmat_num_verifications (pmem m') = k1
     /\ if VKI_WEXITSTATUS retval =? 0 then
          pmat_num_bad_verifications (pmem m') = bad
          /\ events_since m m'
             = [Unlink ("bad-verification-" ++ decimal k1 ++ ".dump");
                Unlink ("bad-verification-" ++ decimal k1 ++ ".stderr");
                Unlink ("bad-verification-" ++ decimal k1 ++ ".stdout")]
        else
          pmat_num_bad_verifications (pmem m') = bad + 1
          /\ events_since m m' = copies "bad" k1 files)
  /\ (VKI_WIFEXITED retval = false -> VKI_WIFSIGNALED retval = true ->
      exists m',
        simulate_crash m = Some m'
        /\ pmat_num_verifications (pmem m') = k1
        /\ pmat_num_bad_verifications (pmem m') = bad + 1
        /\ events_since m m' = copies "bad.coredump" k1 files)
  /\ (forall name suffix,
        (String.length name + String.length suffix <= 1010)%nat ->
        copy_name name k1 suffix
        = name ++ "." ++ decimal k1 ++ "." ++ suffix).
Proof.
  intros Hv Hf Hk Hb k1 files bad retval.
  assert (Hsw : sword64 (bad + 1) = bad + 1).
  { unfold sword64. rewrite Z.mod_small by (subst bad; lia). lia. }
  assert (Hfmt : fmt_d k1 = decimal k1) by (apply fmt_d_small; subst k1; lia).
  unfold simulate_crash. rewrite Hv, (OSetGen_Size_nonempty _ Hf).
  fold retval.
  set (sec := diff _ _).
  assert (Hn : pmat_num_verifications (record_verification sec (pmem m)) = k1).
  { apply record_verification_count. lia. }
  split; [|split].
  - intros Hex. rewrite Hex.
    destruct (VKI_WEXITSTATUS retval =? 0) eqn:Hs.
    + assert (Hpvf : (VKI_WEXITSTATUS retval =? PMAT_VERIFICATION_FAILURE)
                     || (VKI_WEXITSTATUS retval =? - PMAT_VERIFICATION_FAILURE)
                     = false).
      { apply Z.eqb_eq in Hs. rewrite Hs. reflexivity. }
      rewrite Hpvf. eexists. split; [reflexivity|].
      cbn [pmem set_pmem emit set_sys].
      split; [exact Hn|]. split; [reflexivity|].
      apply events_since_app. cbn [sys emit set_sys set_pmem with_trace w_trace].
      rewrite Hn, !attempt_file_fits, Hfmt by (simpl; lia).
      rewrite <- !app_assoc. reflexivity.
    + assert (Hgoal : exists m',
                Some (copy_files "bad"
                        (count_bad (set_pmem (record_verification sec (pmem m)) m)))
                = Some m'
                /\ pmat_num_verifications (pmem m') = k1
                /\ pmat_num_bad_verifications (pmem m') = bad + 1
                /\ events_since m m' = copies "bad" k1 files).
      { eexists. split; [reflexivity|]. rewrite copy_files_trace.
        cbn [pmem set_pmem set_sys count_bad with_num_bad_verifications
               pmat_num_verifications pmat_num_bad_verifications].
        split; [exact Hn|]. split; [exact Hsw|].
        apply events_since_app.
        cbn [sys set_sys set_pmem with_trace w_trace count_bad pmem
               with_num_bad_verifications pmat_num_verifications
               pmat_registered_files].
        rewrite Hn. reflexivity. }
      destruct (_ || _); exact Hgoal.
  - intros Hex Hsig. rewrite Hex, Hsig.
    eexists. split; [reflexivity|]. rewrite copy_files_trace.
    cbn [pmem set_pmem set_sys count_bad with_num_bad_verifications
           pmat_num_verifications pmat_num_bad_verifications].
    split; [exact Hn|]. split; [exact Hsw|].
    apply events_since_app.
    cbn [sys set_sys set_pmem with_trace w_trace count_bad pmem
           with_num_bad_verifications pmat_num_verifications
           pmat_registered_files].
    rewrite Hn. reflexivity.
  - intros name suffix Hlen. rewrite copy_name_fits by exact Hlen.
    rewrite Hfmt. reflexivity.
Qed.

(** ** Registration *)

(** C8, as the specification words it, fails: with an empty umask the file
    that registration creates is also readable and writable by others. *)
Lemma register_mode_counterexample : ~ register_mode_user_group_only.
Proof.
  intros H.
  destruct (H 1 "r1" 4096 128
              (pmat_post_clo_init (mk_limits 4 2) None (quiet_world 0 1 0))
              _ eq_refl eq_refl) as (f & Hf & _ & Hmode).
  vm_compute in Hf. injection Hf as <-. discriminate Hmode.
Qed.

(** C8, amended.  A register request with a non-null name and an aligned
    base, on a path that can be opened and a base no region is registered
    at, succeeds and leaves at [name] a file of exactly [size] zero bytes;
    a file that was not there is created with mode 0666 less the umask
    (read and write for user, group and others before masking), one that
    was there keeps its mode. *)
Theorem register_creates_backing_file running name a size m :
  TRIM_CACHELINE a = a ->
  0 <= size < 2 ^ 63 ->
  existsb (String.eqb name) (w_unopenable (sys m)) = false ->
  w_next_fd (sys m) <> 2 ^ 64 - 1 ->
  OSetGen_Lookup cmp_pmat_registered_files1 (pmat_registered_files (pmem m))
    (mk_registered_file name a size (w_next_fd (sys m))) = None ->
  exists m' f,
    pmat_handle_client_request running (PMC_PMAT_REGISTER (Some name) a size) m
    = Some (true, m')
    /\ w_files (sys m') name = Some f
    /\ f_bytes f = repeat 0 (Z.to_nat size)
    /\ List.length (f_bytes f) = Z.to_nat size
    /\ f_mode f = match w_files (sys m) name with
                  | Some old => f_mode old
                  | None => Z.land 438 (Z.lnot (w_umask (sys m)))
                  end
    /\ In (mk_registered_file name a size (w_next_fd (sys m)))
         (pmat_registered_files (pmem m'))
    /\ w_fds (sys m') (w_next_fd (sys m)) = Some name.
Proof.
  intros Hal Hsz Hopen Hfd Hnew.
  unfold pmat_handle_client_request.
  rewrite Hal, Z.eqb_refl. cbn [negb].
  unfold VG_open. rewrite Hopen.
  unfold VG_ftruncate. cbn [w_fds w_files w_next_fd].
  rewrite Z.eqb_refl. unfold upd_file at 1. rewrite String.eqb_refl.
  assert (Hs : (sword64 size <? 0) = false).
  { unfold sword64. rewrite Z.mod_small by lia. lia. }
  rewrite Hs.
  assert (Hd : (w_next_fd (sys m) =? wrap64 (-1)) = false).
  { apply Z.eqb_neq. exact Hfd. }
  rewrite Hd. unfold OSetGen_Insert. rewrite Hnew.
  eexists. eexists. split; [reflexivity|].
  cbn [sys set_registered_files set_pmem set_sys with_files w_files pmem
         with_registered_files pmat_registered_files w_fds].
  unfold upd_file. rewrite !String.eqb_refl, Z.eqb_refl.
  split; [reflexivity|].
  assert (Hres : resize (Z.to_nat size) [] = repeat 0 (Z.to_nat size)).
  { unfold resize. rewrite firstn_nil. simpl. rewrite Nat.sub_0_r. reflexivity. }
  destruct (w_files (sys m) name) as [old|];
    cbn [f_bytes f_mode]; rewrite Hres, repeat_length;
    (repeat split; try reflexivity);
    clear; induction (pmat_registered_files (pmem m)) as [|x t IH]; simpl;
    auto; destruct (_ <=? 0); simpl; auto.
Qed.

(** ** Transient ranges *)

Lemma find_file_by_addr_query a r :
  rf_size r <> 0 ->
  find_file_by_addr (addr_key a) r
  = Some (if a <? rf_addr r then 1
          else if a >? wrap64 (rf_addr r + rf_size r) then -1 else 0).
Proof.
  intros Hs. unfold find_file_by_addr, addr_key. cbn.
  apply Z.eqb_neq in Hs. rewrite Hs.
  destruct (a <? rf_addr r); [reflexivity|].
  destruct (a >? _); reflexivity.
Qed.

Lemma find_file_by_addr_empty_region a r :
  rf_size r = 0 -> find_file_by_addr (addr_key a) r = None.
Proof.
  intros Hs. unfold find_file_by_addr, addr_key. cbn. rewrite Hs. reflexivity.
Qed.

Lemma lookup_file_none a m :
  (forall r, In r (pmat_registered_files (pmem m)) ->
     rf_size r <> 0
     /\ ~ (rf_addr r <= a <= wrap64 (rf_addr r + rf_size r))) ->
  lookup_file a m = Some None.
Proof.
  unfold lookup_file.
  induction (pmat_registered_files (pmem m)) as [|x t IH]; intros H.
  - reflexivity.
  - destruct (H x (or_introl eq_refl)) as [Hs Ho].
    cbn [OSetGen_LookupWithCmp]. rewrite find_file_by_addr_query by exact Hs.
    destruct (Z.ltb_spec a (rf_addr x)).
    + cbn. apply IH. intros r Hr. apply H. right. exact Hr.
    + destruct (Z.gtb_spec a (wrap64 (rf_addr x + rf_size x))).
      * cbn. apply IH. intros r Hr. apply H. right. exact Hr.
      * exfalso. apply Ho. lia.
Qed.

Lemma lookup_file_sound a m r :
  lookup_file a m = Some (Some r) ->
  In r (pmat_registered_files (pmem m))
  /\ rf_addr r <= a <= wrap64 (rf_addr r + rf_size r).
Proof.
  unfold lookup_file.
  induction (pmat_registered_files (pmem m)) as [|x t IH]; simpl; intros H.
  - discriminate.
  - bind_inv H. destruct (z =? 0) eqn:Ez.
    + injection H as <-. split; [left; reflexivity|].
      unfold find_file_by_addr, addr_key in E. simpl in E.
      destruct (rf_size x =? 0); [discriminate|].
      destruct (a <? rf_addr x) eqn:E1; [injection E as <-; discriminate|].
      destruct (a >? wrap64 (rf_addr x + rf_size x)) eqn:E2;
        [injection E as <-; discriminate|]. lia.
    + destruct (IH H) as [Hin Hr]. split; [right; exact Hin|exact Hr].
Qed.

Lemma lookup_file_found a m r :
  lookup_file a m = Some (Some r) ->
  In r (pmat_registered_files (pmem m))
  /\ rf_size r <> 0
  /\ rf_addr r <= a <= wrap64 (rf_addr r + rf_size r).
Proof.
  intros H. destruct (lookup_file_sound _ _ _ H) as [Hin Hr].
  split; [exact Hin|]. split; [|exact Hr].
  intros Hz. unfold lookup_file in H.
  induction (pmat_registered_files (pmem m)) as [|x t IH]; simpl in H.
  - discriminate.
  - destruct (find_file_by_addr (addr_key a) x) as [z|] eqn:E;
      [|discriminate H].
    destruct (z =? 0) eqn:Ez.
    + injection H as <-.
      rewrite find_file_by_addr_empty_region in E by exact Hz. discriminate.
    + destruct Hin as [<-|Hin].
      * rewrite find_file_by_addr_empty_region in E by exact Hz.
        discriminate.
      * exact (IH H Hin).
Qed.

Lemma transient_cmp_refl e : cmp_pmat_transient_entries e e = 0.
Proof.
  unfold cmp_pmat_transient_entries. rewrite !Z.ltb_irrefl. reflexivity.
Qed.

Lemma oset_place_contains {E} (cmp : E -> E -> Z) e t :
  cmp e e = 0 -> OSetGen_Contains cmp (oset_place cmp e t) e = true.
Proof.
  intros Hrefl. unfold OSetGen_Contains, OSetGen_Lookup.
  induction t as [|x t IH]; simpl.
  - rewrite Hrefl. reflexivity.
  - destruct (cmp e x <=? 0); simpl.
    + rewrite Hrefl. reflexivity.
    + destruct (cmp e x =? 0); [reflexivity|exact IH].
Qed.

(** C9, as the specification words it, fails: with no region registered
    the range is recorded. *)
Lemma transient_without_regions_counterexample : ~ transient_outside_is_noop.
Proof.
  intros H.
  specialize (H 1 4096 8
                (pmat_post_clo_init (mk_limits 4 2) None (quiet_world 18 1 0))
                true _ (fun r (F : In r []) _ => F) eq_refl).
  discriminate H.
Qed.

(** C9, amended.  While at least one region is registered, a transient
    request whose address the region lookup does not find is a silent
    no-op: it is answered as handled and the machine is unchanged.  That
    is so whenever the address lies in no region, each region taken from
    its base to [base + size], the first address past its end included.
    In the other cases (the lookup finds a region, or no region is
    registered at all and the lookup is skipped) the request succeeds and
    the table afterwards covers the range.  A region the lookup finds is
    registered, is not empty and has the address between its base and
    [base + size]; the size of the range plays no part.  So the table
    changes only if no region is registered or the address lies in a
    registered region. *)
Theorem transient_request running a size m :
  (pmat_registered_files (pmem m) <> [] ->
   lookup_file a m = Some None
   \/ (forall r, In r (pmat_registered_files (pmem m)) ->
          rf_size r <> 0
          /\ ~ (rf_addr r <= a <= wrap64 (rf_addr r + rf_size r))) ->
   pmat_handle_client_request running (PMC_PMAT_TRANSIENT a size) m
   = Some (true, m))
  /\ (pmat_registered_files (pmem m) = []
      \/ (exists r, lookup_file a m = Some (Some r)) ->
      exists m',
        pmat_handle_client_request running (PMC_PMAT_TRANSIENT a size) m
        = Some (true, m')
        /\ OSetGen_Contains cmp_pmat_transient_entries
             (pmat_transient_addresses (pmem m'))
             (mk_transient_entry a size) = true)
  /\ (forall r, lookup_file a m = Some (Some r) ->
                In r (pmat_registered_files (pmem m))
                /\ rf_size r <> 0
                /\ rf_addr r <= a <= wrap64 (rf_addr r + rf_size r))
  /\ (forall b m',
        pmat_handle_client_request running (PMC_PMAT_TRANSIENT a size) m
        = Some (b, m') ->
        pmat_transient_addresses (pmem m')
        <> pmat_transient_addresses (pmem m) ->
        pmat_registered_files (pmem m) = []
        \/ exists r, In r (pmat_registered_files (pmem m))
                     /\ rf_size r <> 0
                     /\ rf_addr r <= a <= wrap64 (rf_addr r + rf_size r)).
Proof.
  split; [|split; [|split]].
  - intros Hne Hnone. unfold pmat_handle_client_request.
    assert (Hl : lookup_file a m = Some None).
    { destruct Hnone as [Hl|Hout]; [exact Hl|].
      apply lookup_file_none. exact Hout. }
    assert (Hs : (OSetGen_Size (pmat_registered_files (pmem m)) >? 0) = true).
    { destruct (pmat_registered_files (pmem m)); [congruence|].
      unfold OSetGen_Size. apply Z.gtb_lt. simpl List.length. lia. }
    rewrite Hs, Hl. reflexivity.
  - intros Hcase. unfold pmat_handle_client_request.
    assert (Hp : (if OSetGen_Size (pmat_registered_files (pmem m)) >? 0
                  then ' found <- lookup_file a m ;;
                       Some match found with Some _ => true | None => false end
                  else Some true) = Some true).
    { destruct Hcase as [Hnil|[r Hr]].
      - rewrite Hnil. reflexivity.
      - rewrite Hr. destruct (_ >? 0); reflexivity. }
    rewrite Hp. cbn [negb].
    destruct (OSetGen_Contains cmp_pmat_transient_entries
                (pmat_transient_addresses (pmem m))
                (mk_transient_entry a size)) eqn:Hc.
    + exists m. split; [reflexivity|exact Hc].
    + unfold OSetGen_Insert. unfold OSetGen_Contains in Hc.
      destruct (OSetGen_Lookup _ _ _); [discriminate|].
      eexists. split; [reflexivity|].
      cbn [pmem set_transient_addresses set_pmem with_transient_addresses
             pmat_transient_addresses].
      apply oset_place_contains, transient_cmp_refl.
  - intros r Hr. apply lookup_file_found. exact Hr.
  - intros b m' H Hchg. unfold pmat_handle_client_request in H.
    destruct (pmat_registered_files (pmem m)) as [|x t] eqn:Er;
      [left; reflexivity|right].
    assert (Hs : (OSetGen_Size (x :: t) >? 0) = true).
    { unfold OSetGen_Size. apply Z.gtb_lt. simpl List.length. lia. }
    rewrite Hs in H.
    destruct (lookup_file a m) as [[r|]|] eqn:El; cbn in H.
    + rewrite <- Er. exists r. apply lookup_file_found. exact El.
    + injection H as _ <-. exfalso. apply Hchg. reflexivity.
    + discriminate H.
Qed.

(** ** Lookups by line *)

Lemma wb_lookup_some b k x :
  OSetGen_Lookup cmp_pmat_write_buffer_entries b k = Some x ->
  In x b /\ wb_addr x = wb_addr k.
Proof.
  unfold OSetGen_Lookup. intros H. apply find_some in H.
  destruct H as [Hin Hc]. split; [exact Hin|].
  unfold cmp_pmat_write_buffer_entries in Hc. rewrite zcmp_eq in Hc.
  apply Z.eqb_eq in Hc. unfold wb_addr. congruence.
Qed.

Lemma wb_lookup_none b k :
  OSetGen_Lookup cmp_pmat_write_buffer_entries b k = None ->
  forall x, In x b -> wb_addr x <> wb_addr k.
Proof.
  unfold OSetGen_Lookup. intros H x Hin.
  pose proof (find_none _ _ H x Hin) as Hc. simpl in Hc.
  unfold cmp_pmat_write_buffer_entries in Hc. rewrite zcmp_eq in Hc.
  apply Z.eqb_neq in Hc. unfold wb_addr. congruence.
Qed.

Lemma cache_lookup_some c k x :
  OSetGen_Lookup cmp_pmat_cache_entries c k = Some x ->
  In x c /\ addr x = addr k.
Proof.
  unfold OSetGen_Lookup. intros H. apply find_some in H.
  destruct H as [Hin Hc]. split; [exact Hin|].
  unfold cmp_pmat_cache_entries in Hc. rewrite zcmp_eq in Hc.
  apply Z.eqb_eq in Hc. congruence.
Qed.

Lemma cache_lookup_none c k :
  OSetGen_Lookup cmp_pmat_cache_entries c k = None ->
  forall x, In x c -> addr x <> addr k.
Proof.
  unfold OSetGen_Lookup. intros H x Hin.
  pose proof (find_none _ _ H x Hin) as Hc. simpl in Hc.
  unfold cmp_pmat_cache_entries in Hc. rewrite zcmp_eq in Hc.
  apply Z.eqb_neq in Hc. congruence.
Qed.

Lemma cache_lookup_ext c k k' :
  addr k = addr k' ->
  OSetGen_Lookup cmp_pmat_cache_entries c k
  = OSetGen_Lookup cmp_pmat_cache_entries c k'.
Proof.
  intros H. unfold OSetGen_Lookup, cmp_pmat_cache_entries. rewrite H.
  reflexivity.
Qed.

Lemma filter_id {A} (f : A -> bool) l :
  (forall x, In x l -> f x = true) -> filter f l = l.
Proof.
  induction l as [|x l IH]; simpl; intros H; [reflexivity|].
  rewrite (H x (or_introl eq_refl)), IH; [reflexivity|].
  intros y Hy. apply H. right. exact Hy.
Qed.

Lemma filter_undrained_nil b : filter (undrained []) b = b.
Proof. apply filter_id. reflexivity. Qed.

(** Choosing victims only draws from the random stream. *)
Lemma select_random_world {E} (pick : Z -> bool) (t : list E) : forall w,
  w_files (snd (select_random pick t w)) = w_files w
  /\ w_fds (snd (select_random pick t w)) = w_fds w
  /\ w_trace (snd (select_random pick t w)) = w_trace w.
Proof.
  induction t as [|e t IH]; intros w; simpl.
  - repeat split.
  - specialize (IH (snd (VG_random w))). unfold VG_random in *. simpl in *.
    destruct (select_random pick t _) as [vs w2]. simpl in *. exact IH.
Qed.

(** ** Writeback of a cache entry *)

Lemma supersede_effect e m m1 :
  supersede e m = Some m1 ->
  pmat_write_buffer_entries (pmem m1)
  = filter (fun x => negb (addr e =? wb_addr x))
      (pmat_write_buffer_entries (pmem m))
  /\ pmat_cache_entries (pmem m1) = pmat_cache_entries (pmem m)
  /\ pmat_registered_files (pmem m1) = pmat_registered_files (pmem m)
  /\ lim m1 = lim m
  /\ w_fds (sys m1) = w_fds (sys m)
  /\ w_trace (sys m1) = w_trace (sys m).
Proof.
  unfold supersede. intros H.
  destruct (OSetGen_Lookup _ _ _) as [ex|] eqn:El.
  - bind_inv H. injection H as <-.
    destruct (write_to_file_frame _ _ _ E) as (Hp & Hl & Hf & Ht & _).
    apply wb_lookup_some in El. destruct El as [_ Hk].
    unfold wb_addr in Hk at 2. simpl in Hk.
    cbn [pmem set_write_buffer set_pmem with_write_buffer_entries
           pmat_write_buffer_entries pmat_cache_entries
           pmat_registered_files lim sys].
    rewrite Hp, wb_remove_filter, Hk.
    repeat split; try assumption; reflexivity.
  - injection H as <-. split; [|repeat split].
    symmetry. apply filter_id. intros x Hx.
    pose proof (wb_lookup_none _ _ El x Hx) as Hn.
    unfold wb_addr in Hn at 2. simpl in Hn.
    apply negb_true_iff, Z.eqb_neq. congruence.
Qed.

(** The write buffer after [do_writeback]: the entry for the line replaces
    any the buffer held for it, and the overflow check may then drain some
    entries [arr]; none when the buffer is within [NUM_WB_ENTRIES]. *)
Lemma do_writeback_effect running e m m' :
  do_writeback running e m = Some m' ->
  pmat_cache_entries (pmem m')
  = filter (fun x => negb (addr e =? addr x)) (pmat_cache_entries (pmem m))
  /\ (exists arr,
        pmat_write_buffer_entries (pmem m')
        = filter (undrained arr)
            (oset_place cmp_pmat_write_buffer_entries (mk_wb_entry e running)
               (filter (fun x => negb (addr e =? wb_addr x))
                  (pmat_write_buffer_entries (pmem m))))
        /\ ((OSetGen_Size
               (oset_place cmp_pmat_write_buffer_entries
                  (mk_wb_entry e running)
                  (filter (fun x => negb (addr e =? wb_addr x))
                     (pmat_write_buffer_entries (pmem m))))
             >? NUM_WB_ENTRIES (lim m)) = false -> arr = []))
  /\ pmat_registered_files (pmem m') = pmat_registered_files (pmem m)
  /\ lim m' = lim m
  /\ w_fds (sys m') = w_fds (sys m)
  /\ w_trace (sys m') = w_trace (sys m).
Proof.
  unfold do_writeback. intros H.
  bind_inv H. bind_inv H. clear E E0. bind_inv H. rename m0 into m1.
  apply supersede_effect in E.
  destruct E as (Hb1 & Hc1 & Hr1 & Hl1 & Hf1 & Ht1).
  cbn [pmem set_cache set_pmem with_cache_entries pmat_write_buffer_entries
         pmat_cache_entries pmat_registered_files lim sys] in *.
  bind_inv H. unfold OSetGen_Insert in E.
  destruct (OSetGen_Lookup _ _ _); [discriminate|]. injection E as <-.
  rewrite Hb1 in H.
  cbn [lim set_write_buffer set_pmem] in H. rewrite Hl1 in H.
  set (b := pmat_write_buffer_entries (pmem m)) in *.
  split.
  { assert (Hc : pmat_cache_entries (pmem m') = pmat_cache_entries (pmem m1)).
    { destruct (_ >? _) in H.
      - destruct (select_random _ _ _) as [arr w] in H.
        apply drain_frame in H. tauto.
      - injection H as <-. reflexivity. }
    rewrite Hc, Hc1. apply cache_remove_filter. }
  destruct (_ >? _) eqn:Eov in H.
  - destruct (select_random _ _ _) as [arr w] eqn:Es in H.
    pose proof (select_random_world (fun r => r mod 10 =? 0)
                  (oset_place cmp_pmat_write_buffer_entries
                     (mk_wb_entry e running)
                     (filter (fun x => negb (addr e =? wb_addr x)) b))
                  (sys m1)) as Hw.
    cbn [sys set_write_buffer set_pmem] in Es. rewrite Es in Hw.
    destruct Hw as (_ & Hwf & Hwt). cbn [snd] in Hwf, Hwt.
    apply drain_frame in H.
    destruct H as (Hb & _ & Hr & Hl & Hf & Ht & _).
    cbn [pmem set_write_buffer set_pmem with_write_buffer_entries set_sys
           pmat_write_buffer_entries pmat_registered_files lim sys
           w_fds w_trace] in *.
    split; [exists arr; split; [exact Hb|]|repeat split; congruence].
    intros Hno. rewrite Hno in Eov. discriminate.
  - injection H as <-.
    cbn [pmem set_write_buffer set_pmem with_write_buffer_entries
           pmat_write_buffer_entries pmat_registered_files lim sys].
    split; [exists []; split; [|reflexivity]|repeat split; assumption].
    rewrite filter_undrained_nil. reflexivity.
Qed.

Lemma writeback_all_frame running arr : forall m m',
  writeback_all running arr m = Some m' ->
  pmat_registered_files (pmem m') = pmat_registered_files (pmem m)
  /\ lim m' = lim m
  /\ w_fds (sys m') = w_fds (sys m)
  /\ w_trace (sys m') = w_trace (sys m).
Proof.
  induction arr as [|e arr IH]; simpl; intros m m' H.
  - injection H as <-. repeat split.
  - bind_inv H. apply do_writeback_effect in E.
    destruct E as (_ & _ & Hr & Hl & Hf & Ht).
    apply IH in H. destruct H as (Hr' & Hl' & Hf' & Ht').
    repeat split; congruence.
Qed.

Lemma cache_capacity_check_frame running m m' :
  cache_capacity_check running m = Some m' ->
  pmat_registered_files (pmem m') = pmat_registered_files (pmem m)
  /\ lim m' = lim m
  /\ w_fds (sys m') = w_fds (sys m)
  /\ w_trace (sys m') = w_trace (sys m).
Proof.
  unfold cache_capacity_check. intros H.
  destruct (_ >? _).
  - destruct (select_random _ _ _) as [arr w] eqn:Es.
    pose proof (select_random_world (fun r => negb (r mod 2 =? 0))
                  (pmat_cache_entries (pmem m)) (sys m)) as Hw.
    rewrite Es in Hw. cbn [snd] in Hw. destruct Hw as (_ & Hwf & Hwt).
    apply writeback_all_frame in H. cbn [pmem sys lim set_sys] in H.
    destruct H as (Hr & Hl & Hf & Ht). repeat split; congruence.
  - injection H as <-. repeat split.
Qed.

(** ** Crash checks *)

Lemma simulate_crash_trace m m' :
  simulate_crash m = Some m' ->
  exists evs, w_trace (sys m') = (w_trace (sys m) ++ evs)%list.
Proof.
  unfold simulate_crash. intros H.
  destruct (pmat_verifier (pmem m));
    [|injection H as <-; eexists; reflexivity].
  destruct (OSetGen_Size (pmat_registered_files (pmem m)) =? 0);
    [injection H as <-; eexists; reflexivity|].
  destruct (VKI_WIFEXITED _).
  - destruct (_ || _); [|destruct (_ =? 0)]; injection H as <-;
      rewrite ?copy_files_trace;
      cbn [sys emit set_sys set_pmem with_trace w_trace count_bad];
      rewrite <- ?app_assoc; eexists; reflexivity.
  - destruct (VKI_WIFSIGNALED _); [|discriminate].
    injection H as <-. rewrite copy_files_trace.
    cbn [sys emit set_sys set_pmem with_trace w_trace count_bad].
    eexists; reflexivity.
Qed.

Lemma maybe_simulate_crash_trace m m' :
  maybe_simulate_crash m = Some m' ->
  exists evs,
    w_trace (sys m') = (w_trace (sys m) ++ CrashCheck :: evs)%list.
Proof.
  unfold maybe_simulate_crash. intros H.
  destruct (_ || _).
  - injection H as <-. exists []. reflexivity.
  - destruct (VG_random _) as [r w] eqn:Er. unfold VG_random in Er.
    injection Er as <- <-.
    destruct (_ =? 0).
    + apply simulate_crash_trace in H. destruct H as [evs H].
      exists evs. rewrite H. cbn [sys emit set_sys with_trace w_trace].
      rewrite <- app_assoc. reflexivity.
    + injection H as <-. exists []. reflexivity.
Qed.


(** ** Stores *)


Lemma warn_if_split_frame a size m :
  pmem (warn_if_split a size m) = pmem m
  /\ lim (warn_if_split a size m) = lim m
  /\ w_files (sys (warn_if_split a size m)) = w_files (sys m)
  /\ w_fds (sys (warn_if_split a size m)) = w_fds (sys m)
  /\ w_drawn (sys (warn_if_split a size m)) = w_drawn (sys m)
  /\ exists pre, w_trace (sys (warn_if_split a size m))
                 = (w_trace (sys m) ++ pre)%list /\ quiet pre.
Proof.
  unfold warn_if_split, quiet.
  destruct (TRIM_CACHELINE a =? _); destruct (OFFSET_CACHELINE a >? _);
    cbn [pmem lim sys emit set_sys with_trace w_trace w_files w_fds w_drawn];
    rewrite <- ?app_assoc; simpl; repeat split;
    eexists; (split; [try reflexivity|]).
  all: try (rewrite app_nil_r; reflexivity).
  all: repeat constructor; discriminate.
Qed.

Lemma note_spill_frame line spill m :
  pmem (note_spill line spill m) = pmem m
  /\ lim (note_spill line spill m) = lim m
  /\ w_files (sys (note_spill line spill m)) = w_files (sys m)
  /\ w_fds (sys (note_spill line spill m)) = w_fds (sys m)
  /\ w_drawn (sys (note_spill line spill m)) = w_drawn (sys m)
  /\ exists pre, w_trace (sys (note_spill line spill m))
                 = (w_trace (sys m) ++ pre)%list /\ quiet pre.
Proof.
  unfold note_spill, quiet. destruct spill; repeat split.
  - exists []. rewrite app_nil_r. split; [reflexivity|constructor].
  - eexists. split; [reflexivity|]. repeat constructor. discriminate.
Qed.

Lemma oset_update_length {E} (cmp : E -> E -> Z) t k f :
  List.length (oset_update cmp t k f) = List.length t.
Proof.
  induction t as [|x t IH]; simpl; [reflexivity|].
  destruct (cmp k x =? 0); simpl; congruence.
Qed.

(** C5, as the specification words it, fails: a store to a line that has a
    cache entry returns before the crash check, also when the check would
    have simulated a crash. *)
Lemma store_to_cached_line_counterexample : ~ store_always_checks_for_crash.
Proof.
  intros H.
  destruct (run [register_r1; Store 1 7 4096 8 1] eager_machine)
    as [m|] eqn:Em; [|discriminate Em].
  destruct (trace_pmem_store 1 7 4096 8 2 m) as [m'|] eqn:Em'.
  - specialize (H 1 7 4096 8 2 m m').
    vm_compute in Em. injection Em as <-.
    vm_compute in Em'. injection Em' as <-.
    specialize (H eq_refl eq_refl). vm_compute in H. exact H.
  - vm_compute in Em. injection Em as <-. vm_compute in Em'. discriminate Em'.
Qed.

(** The two ways of a tracked store. *)
Lemma trace_pmem_store_cases running context a size value m m' :
  is_pmem_access a size m = Some true ->
  trace_pmem_store running context a size value m = Some m' ->
  match OSetGen_Lookup cmp_pmat_cache_entries (pmat_cache_entries (pmem m))
          (store_key a) with
  | None =>
      exists m1 m2,
        pmat_cache_entries (pmem m1)
        = oset_place cmp_pmat_cache_entries
            (fresh_entry context a size value) (pmat_cache_entries (pmem m))
        /\ pmat_write_buffer_entries (pmem m1)
           = pmat_write_buffer_entries (pmem m)
        /\ lim m1 = lim m
        /\ cache_capacity_check running m1 = Some m2
        /\ maybe_simulate_crash m2 = Some m'
        /\ In CrashCheck (events_since m m')
  | Some _ =>
      List.length (pmat_cache_entries (pmem m'))
      = List.length (pmat_cache_entries (pmem m))
      /\ pmat_write_buffer_entries (pmem m')
         = pmat_write_buffer_entries (pmem m)
      /\ w_drawn (sys m') = w_drawn (sys m)
      /\ pmat_num_verifications (pmem m') = pmat_num_verifications (pmem m)
      /\ ~ In CrashCheck (events_since m m')
  end.
Proof.
  intros Ht H. unfold trace_pmem_store in H. rewrite Ht in H. cbn [negb] in H.
  destruct (warn_if_split_frame a size m)
    as (Hp & Hl & _ & _ & Hd & pre & Htr & Hq).
  set (mw := warn_if_split a size m) in *. clearbody mw.
  rewrite Hp in H.
  destruct (OSetGen_Lookup _ _ _) as [x|] eqn:El.
  - injection H as <-.
    destruct (note_spill_frame (TRIM_CACHELINE a) (store_spill a size value)
                (set_cache
                   (oset_update cmp_pmat_cache_entries
                      (pmat_cache_entries (pmem m)) (store_key a)
                      (stored_into context a size value)) mw))
      as (Hp2 & _ & _ & _ & Hd2 & pre2 & Htr2 & Hq2).
    rewrite Hp2.
    cbn [pmem set_cache set_pmem with_cache_entries pmat_cache_entries
           pmat_write_buffer_entries pmat_num_verifications].
    rewrite Hp, oset_update_length.
    repeat split; try reflexivity.
    + rewrite Hd2. exact Hd.
    + cbn [sys set_cache set_pmem] in Htr2. rewrite Htr, <- app_assoc in Htr2.
      rewrite (events_since_app _ _ _ Htr2).
      intros Hin. apply in_app_or in Hin.
      unfold quiet in *. rewrite Forall_forall in Hq, Hq2.
      destruct Hin as [Hin|Hin]; [apply (Hq _ Hin)|apply (Hq2 _ Hin)];
        reflexivity.
  - destruct (note_spill_frame (TRIM_CACHELINE a) (store_spill a size value) mw)
      as (Hp2 & Hl2 & _ & _ & _ & pre2 & Htr2 & _).
    set (ms := note_spill _ _ mw) in *. clearbody ms.
    rewrite Hp2, Hp in H. unfold OSetGen_Insert in H.
    rewrite (cache_lookup_ext _ (fresh_entry context a size value)
               (store_key a) eq_refl), El in H.
    bind_inv H. rename m0 into m2.
    exists (set_cache
              (oset_place cmp_pmat_cache_entries
                 (fresh_entry context a size value)
                 (pmat_cache_entries (pmem m))) ms), m2.
    cbn [pmem set_cache set_pmem with_cache_entries pmat_cache_entries
           pmat_write_buffer_entries lim].
    rewrite Hp2, Hp.
    repeat split; try assumption; try congruence.
    destruct (cache_capacity_check_frame _ _ _ E) as (_ & _ & _ & Htc).
    destruct (maybe_simulate_crash_trace _ _ H) as (evs & Hte).
    cbn [sys set_cache set_pmem] in Htc.
    rewrite Htc, Htr2, Htr, <- !app_assoc in Hte.
    rewrite (events_since_app _ _ _ Hte).
    apply in_or_app. right. apply in_or_app. right. left. reflexivity.
Qed.

(** C6.  The code at a store that leaves its line: 8 bytes stored at offset
    60 of the line at 4096.  The store is tracked and warned about, and the
    copy into the entry is not cut at the end of the line: its last four
    bytes are written past the 64 bytes of the entry's data. *)
Theorem split_store_overruns_entry :
  exists m m',
    run [register_r1] plain_machine = Some m
    /\ is_pmem_access (4096 + 60) 8 m = Some true
    /\ trace_pmem_store 1 7 (4096 + 60) 8 0x1122334455667788 m = Some m'
    /\ events_since m m'
       = [Emit "pt1=%ld, pt2=%ld"; Emit split_warning; Emit split_warning;
          OutOfBounds 4096 [0x44; 0x33; 0x22; 0x11]; CrashCheck].
Proof.
  destruct (run [register_r1] plain_machine) as [m|] eqn:Em;
    [|discriminate Em].
  destruct (trace_pmem_store 1 7 (4096 + 60) 8 0x1122334455667788 m)
    as [m'|] eqn:Em'.
  - exists m, m'. vm_compute in Em. injection Em as <-.
    vm_compute in Em'. injection Em' as <-.
    repeat split.
  - vm_compute in Em. injection Em as <-. vm_compute in Em'. discriminate Em'.
Qed.

(** ** Cache-line arithmetic *)

Lemma OFFSET_CACHELINE_mod a : OFFSET_CACHELINE a = a mod 64.
Proof.
  unfold OFFSET_CACHELINE, CACHELINE_SIZE.
  change (64 - 1) with (Z.ones 6). rewrite Z.land_ones by lia. reflexivity.
Qed.

Lemma TRIM_CACHELINE_div a : TRIM_CACHELINE a = 64 * (a / 64).
Proof.
  unfold TRIM_CACHELINE, CACHELINE_SIZE.
  change (64 - 1) with (Z.ones 6).
  rewrite <- Z.ldiff_land, Z.ldiff_ones_r by lia.
  rewrite Z.shiftl_mul_pow2, Z.shiftr_div_pow2 by lia.
  change (2 ^ 6) with 64. lia.
Qed.

Lemma TRIM_CACHELINE_idem a : TRIM_CACHELINE (TRIM_CACHELINE a) = TRIM_CACHELINE a.
Proof.
  rewrite !TRIM_CACHELINE_div.
  replace (64 * (a / 64) / 64) with (a / 64); [reflexivity|].
  rewrite Z.mul_comm, Z.div_mul by lia. reflexivity.
Qed.

Lemma TRIM_CACHELINE_word a : word a -> word (TRIM_CACHELINE a).
Proof.
  unfold word. intros H. rewrite TRIM_CACHELINE_div.
  pose proof (Z.mul_div_le a 64 ltac:(lia)).
  pose proof (Z.div_pos a 64 ltac:(lia) ltac:(lia)). lia.
Qed.

Lemma OFFSET_CACHELINE_range a : 0 <= OFFSET_CACHELINE a < 64.
Proof. rewrite OFFSET_CACHELINE_mod. apply Z.mod_pos_bound. lia. Qed.

(** ** Lists kept in order *)

Lemma oset_place_perm {E} (cmp : E -> E -> Z) e t :
  Permutation (oset_place cmp e t) (e :: t).
Proof.
  induction t as [|x t IH]; simpl.
  - apply Permutation_refl.
  - destruct (cmp e x <=? 0).
    + apply Permutation_refl.
    + eapply Permutation_trans; [apply perm_skip, IH|apply perm_swap].
Qed.

Lemma oset_place_Forall {E} (P : E -> Prop) cmp e t :
  P e -> Forall P t -> Forall P (oset_place cmp e t).
Proof.
  intros He Ht.
  eapply Permutation_Forall;
    [apply Permutation_sym, oset_place_perm|constructor; assumption].
Qed.

Lemma oset_place_NoDup {E K} (key : E -> K) cmp e t :
  ~ In (key e) (map key t) -> NoDup (map key t) ->
  NoDup (map key (oset_place cmp e t)).
Proof.
  intros He Ht.
  eapply Permutation_NoDup;
    [apply Permutation_map, Permutation_sym, oset_place_perm|].
  simpl. constructor; assumption.
Qed.

Lemma NoDup_map_filter {E K} (key : E -> K) (f : E -> bool) t :
  NoDup (map key t) -> NoDup (map key (filter f t)).
Proof.
  induction t as [|x t IH]; simpl; intros H; [constructor|].
  inversion H as [|? ? Hx Ht]; subst.
  destruct (f x); simpl; [constructor|]; auto.
  intros Hin. apply Hx. apply in_map_iff in Hin.
  destruct Hin as (y & Hy & Hin). apply in_map_iff. exists y.
  split; [exact Hy|]. apply filter_In in Hin. tauto.
Qed.

Lemma Forall_filter {E} (P : E -> Prop) (f : E -> bool) t :
  Forall P t -> Forall P (filter f t).
Proof.
  intros H. rewrite Forall_forall in *. intros x Hx.
  apply filter_In in Hx. apply H. tauto.
Qed.

Lemma select_random_incl {E} (pick : Z -> bool) (t : list E) : forall w,
  incl (fst (select_random pick t w)) t.
Proof.
  induction t as [|e t IH]; intros w; cbn [select_random].
  - apply incl_refl.
  - destruct (VG_random w) as [r w1].
    specialize (IH w1). destruct (select_random pick t w1) as [vs w2].
    cbn [fst] in *. destruct (pick r).
    + apply incl_cons; [left; reflexivity|]. apply incl_tl, IH.
    + apply incl_tl, IH.
Qed.

(** ** Dirty bits and bytes of an entry *)

Lemma nth_map_seq {A} (g : nat -> A) n i d :
  (i < n)%nat -> nth i (map g (seq 0 n)) d = g i.
Proof.
  intros H.
  rewrite (nth_indep _ d (g 0%nat)) by (rewrite length_map, length_seq; lia).
  rewrite map_nth, seq_nth by lia. reflexivity.
Qed.

Lemma dirty_mask_bit size off i :
  1 <= size <= 8 -> 0 <= off < 64 -> 0 <= i < 64 ->
  Z.testbit (dirty_mask size off) i = (off <=? i) && (i <? off + size).
Proof.
  intros Hs Ho Hi. unfold dirty_mask, wrap64.
  rewrite Z.shiftl_1_l.
  assert (Hp : 2 <= 2 ^ size <= 256).
  { split.
    - change 2 with (2 ^ 1) at 1. apply Z.pow_le_mono_r; lia.
    - change 256 with (2 ^ 8). apply Z.pow_le_mono_r; lia. }
  rewrite (Z.mod_small (2 ^ size)) by lia.
  rewrite (Z.mod_small (2 ^ size - 1)) by lia.
  rewrite Z.mod_pow2_bits_low by lia.
  rewrite Z.shiftl_spec by lia.
  replace (2 ^ size - 1) with (Z.ones size)
    by (rewrite Z.ones_equiv; lia).
  rewrite Z.testbit_ones by lia.
  destruct (Z.leb_spec off i), (Z.leb_spec 0 (i - off)); simpl; try lia;
    destruct (Z.ltb_spec (i - off) size), (Z.ltb_spec i (off + size));
    try lia; reflexivity.
Qed.

Lemma stored_into_byte context a size value x i :
  (i < line_bytes)%nat ->
  nth i (data (stored_into context a size value x)) 0
  = if (Z.to_nat (OFFSET_CACHELINE a) <=? i)%nat
       && (i <? Z.to_nat (OFFSET_CACHELINE a) + Z.to_nat size)%nat
    then nth (i - Z.to_nat (OFFSET_CACHELINE a))
           (value_bytes value (Z.to_nat size)) 0
    else nth i (data x) 0.
Proof.
  intros Hi. unfold stored_into, memcpy_data. cbn [data fst].
  rewrite nth_map_seq by exact Hi.
  unfold value_bytes. rewrite length_map, length_seq. reflexivity.
Qed.

Lemma stored_into_dirty context a size value x i :
  1 <= size <= 8 -> (i < line_bytes)%nat ->
  Z.testbit (dirtyBits (stored_into context a size value x)) (Z.of_nat i)
  = Z.testbit (dirtyBits x) (Z.of_nat i)
    || ((Z.to_nat (OFFSET_CACHELINE a) <=? i)%nat
        && (i <? Z.to_nat (OFFSET_CACHELINE a) + Z.to_nat size)%nat).
Proof.
  intros Hs Hi. unfold stored_into. cbn [dirtyBits]. unfold wrap64.
  unfold line_bytes, CACHELINE_SIZE in Hi.
  pose proof (OFFSET_CACHELINE_range a) as Ho.
  rewrite Z.mod_pow2_bits_low by lia.
  rewrite Z.lor_spec, dirty_mask_bit by lia.
  f_equal.
  destruct (Z.leb_spec (OFFSET_CACHELINE a) (Z.of_nat i)),
           (Nat.leb_spec (Z.to_nat (OFFSET_CACHELINE a)) i);
    try lia; simpl; try reflexivity.
  destruct (Z.ltb_spec (Z.of_nat i) (OFFSET_CACHELINE a + size)),
           (Nat.ltb_spec i (Z.to_nat (OFFSET_CACHELINE a) + Z.to_nat size));
    try lia; reflexivity.
Qed.

Lemma stored_into_clean_zero context a size value x :
  1 <= size <= 8 -> clean_zero x ->
  clean_zero (stored_into context a size value x).
Proof.
  intros Hs Hx i Hi Hc. unfold clean in Hc.
  rewrite stored_into_dirty in Hc by assumption.
  apply orb_false_iff in Hc. destruct Hc as [Hd Hr].
  rewrite stored_into_byte, Hr by exact Hi. apply Hx; assumption.
Qed.

Lemma stored_into_ok context a size value x :
  1 <= size <= 8 -> entry_ok x ->
  entry_ok (stored_into context a size value x).
Proof.
  intros Hs (Hw & Ha & Hz). repeat split; try assumption.
  - apply Hw.
  - apply Hw.
  - apply stored_into_clean_zero; assumption.
Qed.

Lemma fresh_entry_ok context a size value :
  word a -> 1 <= size <= 8 -> entry_ok (fresh_entry context a size value).
Proof.
  intros Ha Hs. unfold fresh_entry. apply stored_into_ok; [exact Hs|].
  repeat split; cbn [addr].
  - apply TRIM_CACHELINE_word, Ha.
  - apply TRIM_CACHELINE_word, Ha.
  - apply TRIM_CACHELINE_idem.
  - intros i Hi _. cbn [data]. apply nth_repeat.
Qed.

(** ** Well-formedness is kept *)

Lemma machine_ok_same m m' :
  pmat_cache_entries (pmem m') = pmat_cache_entries (pmem m) ->
  pmat_write_buffer_entries (pmem m') = pmat_write_buffer_entries (pmem m) ->
  machine_ok m -> machine_ok m'.
Proof. unfold machine_ok. intros -> ->. tauto. Qed.

Lemma drain_ok arr m m' :
  drain arr m = Some m' -> machine_ok m -> machine_ok m'.
Proof.
  intros H (Hc & Hb & Hnc & Hnb).
  apply drain_frame in H. destruct H as (Hb' & Hc' & _).
  unfold machine_ok. rewrite Hb', Hc'.
  repeat split; try assumption.
  - apply Forall_filter, Hb.
  - apply NoDup_map_filter, Hnb.
Qed.

Lemma do_writeback_ok running e m m' :
  do_writeback running e m = Some m' ->
  entry_ok e -> machine_ok m -> machine_ok m'.
Proof.
  intros H He (Hc & Hb & Hnc & Hnb).
  apply do_writeback_effect in H.
  destruct H as (Hc' & (arr & Hb' & _) & _).
  unfold machine_ok. rewrite Hc', Hb'.
  repeat split.
  - apply Forall_filter, Hc.
  - apply Forall_filter, oset_place_Forall; [exact He|].
    apply Forall_filter, Hb.
  - apply NoDup_map_filter, Hnc.
  - apply NoDup_map_filter, oset_place_NoDup.
    + intros Hin. apply in_map_iff in Hin. destruct Hin as (y & Hy & Hin).
      apply filter_In in Hin. destruct Hin as [_ Hne].
      apply negb_true_iff, Z.eqb_neq in Hne. unfold wb_addr in Hy at 2.
      simpl in Hy. congruence.
    + apply NoDup_map_filter, Hnb.
Qed.

Lemma writeback_all_ok running arr : forall m m',
  writeback_all running arr m = Some m' ->
  Forall entry_ok arr -> machine_ok m -> machine_ok m'.
Proof.
  induction arr as [|e arr IH]; simpl; intros m m' H Harr Hm.
  - injection H as <-. exact Hm.
  - bind_inv H. inversion Harr; subst.
    eapply IH; [exact H|assumption|].
    eapply do_writeback_ok; eassumption.
Qed.

Lemma cache_capacity_check_ok running m m' :
  cache_capacity_check running m = Some m' -> machine_ok m -> machine_ok m'.
Proof.
  unfold cache_capacity_check. intros H Hm.
  destruct (_ >? _); [|injection H as <-; exact Hm].
  pose proof (select_random_incl (fun r => negb (r mod 2 =? 0))
                (pmat_cache_entries (pmem m)) (sys m)) as Hin.
  destruct (select_random _ _ _) as [arr w]. cbn [fst] in Hin.
  eapply writeback_all_ok; [exact H| |].
  - destruct Hm as (Hc & _). rewrite Forall_forall in *.
    intros x Hx. apply Hc, Hin, Hx.
  - eapply machine_ok_same; [| |exact Hm]; reflexivity.
Qed.

Lemma maybe_simulate_crash_ok m m' :
  maybe_simulate_crash m = Some m' -> machine_ok m -> machine_ok m'.
Proof.
  intros H. apply maybe_simulate_crash_frame in H.
  destruct H as (Hc & Hb & _). apply machine_ok_same; assumption.
Qed.

Lemma simulate_crash_ok m m' :
  simulate_crash m = Some m' -> machine_ok m -> machine_ok m'.
Proof.
  intros H. apply simulate_crash_frame in H.
  destruct H as (Hc & Hb & _). apply machine_ok_same; assumption.
Qed.

Lemma _do_fence_ok running m m' :
  _do_fence running m = Some m' -> machine_ok m -> machine_ok m'.
Proof.
  unfold _do_fence. intros H Hm.
  destruct (_ =? 0); [injection H as <-; exact Hm|].
  eapply drain_ok; eassumption.
Qed.

Lemma do_fence_ok running m m' :
  do_fence running m = Some m' -> machine_ok m -> machine_ok m'.
Proof.
  unfold do_fence. intros H Hm. bind_inv H. bind_inv H.
  eapply maybe_simulate_crash_ok; [exact H|].
  eapply _do_fence_ok; [exact E0|].
  eapply maybe_simulate_crash_ok; eassumption.
Qed.

Lemma do_flush_ok running base size m m' :
  do_flush running base size m = Some m' -> machine_ok m -> machine_ok m'.
Proof.
  unfold do_flush. intros H Hm.
  destruct (OSetGen_Lookup _ _ _) as [x|] eqn:El.
  - eapply do_writeback_ok; [exact H| |exact Hm].
    apply cache_lookup_some in El. destruct Hm as (Hc & _).
    rewrite Forall_forall in Hc. apply Hc. tauto.
  - injection H as <-. exact Hm.
Qed.

Lemma oset_update_keys {E K} (key : E -> K) (cmp : E -> E -> Z) t k f :
  (forall x, key (f x) = key x) ->
  map key (oset_update cmp t k f) = map key t.
Proof.
  intros Hk. induction t as [|x t IH]; simpl; [reflexivity|].
  destruct (cmp k x =? 0); simpl; [rewrite Hk|rewrite IH]; reflexivity.
Qed.

Lemma oset_update_Forall {E} (P : E -> Prop) (cmp : E -> E -> Z) t k f :
  (forall x, P x -> P (f x)) -> Forall P t ->
  Forall P (oset_update cmp t k f).
Proof.
  intros Hf. induction t as [|x t IH]; simpl; intros H; [constructor|].
  inversion H; subst.
  destruct (cmp k x =? 0); constructor; auto.
Qed.

Lemma trace_pmem_store_ok running context a size value m m' :
  word a -> 1 <= size <= 8 ->
  trace_pmem_store running context a size value m = Some m' ->
  machine_ok m -> machine_ok m'.
Proof.
  intros Ha Hs H Hm. unfold trace_pmem_store in H.
  bind_inv H. destruct b; cbn [negb] in H; [|injection H as <-; exact Hm].
  destruct (warn_if_split_frame a size m) as (Hp & _).
  set (mw := warn_if_split a size m) in *. clearbody mw.
  rewrite Hp in H.
  destruct (OSetGen_Lookup _ _ _) as [x|] eqn:El.
  - injection H as <-.
    destruct (note_spill_frame (TRIM_CACHELINE a) (store_spill a size value)
                (set_cache
                   (oset_update cmp_pmat_cache_entries
                      (pmat_cache_entries (pmem m)) (store_key a)
                      (stored_into context a size value)) mw))
      as (Hp2 & _).
    destruct Hm as (Hc & Hb & Hnc & Hnb).
    unfold machine_ok. rewrite Hp2.
    cbn [pmem set_cache set_pmem with_cache_entries pmat_cache_entries
           pmat_write_buffer_entries].
    rewrite Hp. repeat split; try assumption.
    + apply oset_update_Forall; [|exact Hc].
      intros y Hy. apply stored_into_ok; assumption.
    + rewrite oset_update_keys; [exact Hnc|reflexivity].
  - destruct (note_spill_frame (TRIM_CACHELINE a) (store_spill a size value) mw)
      as (Hp2 & _).
    set (ms := note_spill _ _ mw) in *. clearbody ms.
    rewrite Hp2, Hp in H. unfold OSetGen_Insert in H.
    rewrite (cache_lookup_ext _ (fresh_entry context a size value)
               (store_key a) eq_refl), El in H.
    bind_inv H.
    eapply maybe_simulate_crash_ok; [exact H|].
    eapply cache_capacity_check_ok; [exact E0|].
    destruct Hm as (Hc & Hb & Hnc & Hnb).
    unfold machine_ok.
    cbn [pmem set_cache set_pmem with_cache_entries pmat_cache_entries
           pmat_write_buffer_entries].
    rewrite Hp2, Hp. repeat split; try assumption.
    + apply oset_place_Forall; [|exact Hc].
      apply fresh_entry_ok; assumption.
    + apply oset_place_NoDup; [|exact Hnc].
      intros Hin. apply in_map_iff in Hin. destruct Hin as (y & Hy & Hin).
      apply (cache_lookup_none _ _ El y Hin). rewrite Hy. reflexivity.
Qed.

Lemma pmat_handle_client_request_ok running arg m b m' :
  pmat_handle_client_request running arg m = Some (b, m') ->
  machine_ok m -> machine_ok m'.
Proof.
  intros H Hm. destruct arg; simpl in H;
    try (injection H as <- <-; exact Hm).
  - (* flush *)
    bind_inv H. bind_inv H. injection H as <- <-.
    eapply maybe_simulate_crash_ok; [exact E0|].
    eapply do_flush_ok; eassumption.
  - (* fence *)
    bind_inv H. injection H as <- <-. eapply do_fence_ok; eassumption.
  - (* register *)
    destruct name as [name|]; [|injection H as <- <-; exact Hm].
    destruct (negb _); [injection H as <- <-; exact Hm|].
    destruct (VG_open _ _ _) as [res w]. bind_inv H.
    destruct (_ =? _); [discriminate|]. bind_inv H.
    injection H as <- <-. exact Hm.
  - (* unregister by name *)
    destruct (_ >? 0); [|injection H as <- <-; exact Hm].
    bind_inv H. injection H as <- <-. destruct o; exact Hm.
  - (* unregister by address *)
    destruct (_ >? 0); [|injection H as <- <-; exact Hm].
    bind_inv H. injection H as <- <-. destruct o; exact Hm.
  - (* forced crash *)
    bind_inv H. injection H as <- <-. eapply simulate_crash_ok; eassumption.
  - (* transient *)
    bind_inv H. destruct (negb b0); [injection H as <- <-; exact Hm|].
    destruct (OSetGen_Contains _ _ _); [injection H as <- <-; exact Hm|].
    bind_inv H. injection H as <- <-. exact Hm.
  - (* monitor command *)
    unfold handle_gdb_monitor_command in H.
    destruct (_ =? -2); [injection H as <- <-; exact Hm|].
    destruct (_ =? -1); [injection H as <- <-; exact Hm|].
    destruct (_ =? 0); [injection H as <- <-; exact Hm|discriminate].
Qed.

Lemma step_ok c m m' :
  call_ok c -> step c m = Some m' -> machine_ok m -> machine_ok m'.
Proof.
  intros Hc H Hm. destruct c; simpl in H, Hc.
  - destruct Hc as (Ha & Hs & _). eapply trace_pmem_store_ok; eassumption.
  - unfold trace_pmem_flush in H. bind_inv H.
    eapply maybe_simulate_crash_ok; [exact H|].
    eapply do_flush_ok; eassumption.
  - unfold trace_pmem_flush_fence in H. bind_inv H. bind_inv H.
    eapply maybe_simulate_crash_ok; [exact H|].
    eapply _do_fence_ok; [exact E0|].
    eapply do_flush_ok; eassumption.
  - eapply do_fence_ok; eassumption.
  - bind_inv H. destruct p as [b m1]. injection H as <-.
    eapply pmat_handle_client_request_ok; eassumption.
Qed.

Lemma reached_ok m : reached m -> machine_ok m.
Proof.
  induction 1 as [l v w|c m m' _ IH Hc Hs].
  - repeat split; constructor.
  - eapply step_ok; eassumption.
Qed.

Lemma run_reached cs : forall m m',
  reached m -> Forall call_ok cs -> run cs m = Some m' -> reached m'.
Proof.
  induction cs as [|c cs IH]; simpl; intros m m' Hm Hcs H.
  - injection H as <-. exact Hm.
  - bind_inv H. inversion Hcs; subst.
    eapply IH; [|eassumption|exact H].
    eapply reached_step; eassumption.
Qed.

(** ** Dirty-bit integrity *)

Lemma reached_plain_run cs m :
  Forall call_ok cs -> run cs plain_machine = Some m -> reached m.
Proof. apply run_reached. apply reached_init. Qed.

Ltac calls_ok :=
  repeat constructor; unfold word; simpl; try lia; try exact I.

(** C1, as the specification words it, fails: after a line has been made
    persistent, a store to another byte of it creates an entry whose clean
    bytes are zero, while the file holds what was persisted. *)
Lemma dirty_bit_integrity_counterexample : ~ dirty_bit_integrity.
Proof.
  intros H.
  destruct (run [register_r1; store_8 7 4096 0x1122334455667788;
                 Flush 1 4096; Fence 1; Store 1 9 (4096 + 8) 1 255]
              plain_machine) as [m|] eqn:Em; [|discriminate Em].
  assert (Hr : reached m).
  { eapply reached_plain_run; [|exact Em]. unfold store_8. calls_ok. }
  specialize (H m Hr). vm_compute in Em. injection Em as <-.
  assert (Hlt : (0 < line_bytes)%nat) by (vm_compute; lia).
  specialize (H _ (or_introl eq_refl) 0%nat Hlt eq_refl).
  vm_compute in H. discriminate H.
Qed.

(** C1, amended.  In every state the tool reaches, each byte of a cache
    entry's data whose bit in the dirty mask is 0 is zero: an entry is
    created zero-filled and a store marks the bytes it writes.  (It need
    not equal the byte of the backing file.) *)
Theorem clean_bytes_are_zero m :
  reached m ->
  forall e, In e (pmat_cache_entries (pmem m)) ->
  forall i, (i < line_bytes)%nat -> clean e i -> nth i (data e) 0 = 0.
Proof.
  intros Hr e He. apply reached_ok in Hr. destruct Hr as (Hc & _).
  rewrite Forall_forall in Hc. apply (Hc e He).
Qed.

(** ** Cache and write buffer *)

Lemma in_keys_filter {E K} (key : E -> K) (f : E -> bool) t a :
  In a (map key (filter f t)) ->
  exists x, In x t /\ f x = true /\ key x = a.
Proof.
  intros H. apply in_map_iff in H. destruct H as (x & Hk & Hin).
  apply filter_In in Hin. exists x. tauto.
Qed.

Lemma in_keys_place {E K} (key : E -> K) cmp e t a :
  In a (map key (oset_place cmp e t)) <-> a = key e \/ In a (map key t).
Proof.
  split; intros H.
  - eapply Permutation_in in H;
      [|apply Permutation_map, oset_place_perm].
    simpl in H. destruct H; [left; congruence|right; assumption].
  - eapply Permutation_in;
      [apply Permutation_map, Permutation_sym, oset_place_perm|].
    simpl. destruct H; [left; congruence|right; assumption].
Qed.

Lemma do_writeback_lines running e m m' :
  do_writeback running e m = Some m' ->
  (forall a, line_in_cache m' a -> line_in_cache m a /\ a <> addr e)
  /\ (forall a, line_in_write_buffer m' a ->
                a = addr e \/ line_in_write_buffer m a).
Proof.
  intros H. apply do_writeback_effect in H.
  destruct H as (Hc & (arr & Hb & _) & _).
  unfold line_in_cache, line_in_write_buffer. rewrite Hc, Hb. split.
  - intros a Ha. apply in_keys_filter in Ha.
    destruct Ha as (x & Hin & Hf & <-).
    apply negb_true_iff, Z.eqb_neq in Hf.
    split; [apply in_map, Hin|congruence].
  - intros a Ha. apply in_keys_filter in Ha.
    destruct Ha as (x & Hin & _ & <-).
    assert (Hx : In (wb_addr x)
                   (map wb_addr
                      (oset_place cmp_pmat_write_buffer_entries
                         (mk_wb_entry e running)
                         (filter (fun x => negb (addr e =? wb_addr x))
                            (pmat_write_buffer_entries (pmem m))))))
      by (apply in_map, Hin).
    apply in_keys_place in Hx. destruct Hx as [Hx|Hx]; [left; exact Hx|].
    right. apply in_keys_filter in Hx. destruct Hx as (y & Hy & _ & <-).
    apply in_map, Hy.
Qed.

Lemma do_writeback_disjoint running e m m' :
  do_writeback running e m = Some m' -> disjoint m -> disjoint m'.
Proof.
  intros H Hd a [Hc Hb].
  destruct (do_writeback_lines _ _ _ _ H) as [H1 H2].
  destruct (H1 a Hc) as [Hc' Hne].
  destruct (H2 a Hb) as [He|Hb']; [congruence|].
  apply (Hd a). split; assumption.
Qed.

Lemma writeback_all_disjoint running arr : forall m m',
  writeback_all running arr m = Some m' -> disjoint m -> disjoint m'.
Proof.
  induction arr as [|e arr IH]; simpl; intros m m' H Hd.
  - injection H as <-. exact Hd.
  - bind_inv H. eapply IH; [exact H|].
    eapply do_writeback_disjoint; eassumption.
Qed.

Lemma disjoint_same m m' :
  pmat_cache_entries (pmem m') = pmat_cache_entries (pmem m) ->
  pmat_write_buffer_entries (pmem m') = pmat_write_buffer_entries (pmem m) ->
  disjoint m -> disjoint m'.
Proof.
  unfold disjoint, line_in_cache, line_in_write_buffer. intros -> ->. tauto.
Qed.

Lemma cache_capacity_check_disjoint running m m' :
  cache_capacity_check running m = Some m' -> disjoint m -> disjoint m'.
Proof.
  unfold cache_capacity_check. intros H Hd.
  destruct (_ >? _); [|injection H as <-; exact Hd].
  destruct (select_random _ _ _) as [arr w].
  eapply writeback_all_disjoint; [exact H|].
  eapply disjoint_same; [| |exact Hd]; reflexivity.
Qed.

Lemma maybe_simulate_crash_disjoint m m' :
  maybe_simulate_crash m = Some m' -> disjoint m -> disjoint m'.
Proof.
  intros H. apply maybe_simulate_crash_frame in H.
  destruct H as (Hc & Hb & _). apply disjoint_same; assumption.
Qed.

Lemma drain_disjoint arr m m' :
  drain arr m = Some m' -> disjoint m -> disjoint m'.
Proof.
  intros H Hd a [Hc Hb]. apply drain_frame in H.
  destruct H as (Hb' & Hc' & _).
  unfold line_in_cache, line_in_write_buffer in *.
  rewrite Hc' in Hc. rewrite Hb' in Hb.
  apply in_keys_filter in Hb. destruct Hb as (x & Hx & _ & <-).
  apply (Hd (wb_addr x)). split; [exact Hc|apply in_map, Hx].
Qed.

Lemma _do_fence_disjoint running m m' :
  _do_fence running m = Some m' -> disjoint m -> disjoint m'.
Proof.
  unfold _do_fence. intros H Hd.
  destruct (_ =? 0); [injection H as <-; exact Hd|].
  eapply drain_disjoint; eassumption.
Qed.

Lemma do_fence_disjoint running m m' :
  do_fence running m = Some m' -> disjoint m -> disjoint m'.
Proof.
  unfold do_fence. intros H Hd. bind_inv H. bind_inv H.
  eapply maybe_simulate_crash_disjoint; [exact H|].
  eapply _do_fence_disjoint; [exact E0|].
  eapply maybe_simulate_crash_disjoint; eassumption.
Qed.

Lemma do_flush_disjoint running base size m m' :
  do_flush running base size m = Some m' -> disjoint m -> disjoint m'.
Proof.
  unfold do_flush. intros H Hd.
  destruct (OSetGen_Lookup _ _ _); [|injection H as <-; exact Hd].
  eapply do_writeback_disjoint; eassumption.
Qed.

Lemma pmat_handle_client_request_disjoint running arg m b m' :
  pmat_handle_client_request running arg m = Some (b, m') ->
  disjoint m -> disjoint m'.
Proof.
  intros H Hm. destruct arg; simpl in H;
    try (injection H as <- <-; exact Hm).
  - bind_inv H. bind_inv H. injection H as <- <-.
    eapply maybe_simulate_crash_disjoint; [exact E0|].
    eapply do_flush_disjoint; eassumption.
  - bind_inv H. injection H as <- <-. eapply do_fence_disjoint; eassumption.
  - destruct name as [name|]; [|injection H as <- <-; exact Hm].
    destruct (negb _); [injection H as <- <-; exact Hm|].
    destruct (VG_open _ _ _) as [res w]. bind_inv H.
    destruct (_ =? _); [discriminate|]. bind_inv H.
    injection H as <- <-. exact Hm.
  - destruct (_ >? 0); [|injection H as <- <-; exact Hm].
    bind_inv H. injection H as <- <-. destruct o; exact Hm.
  - destruct (_ >? 0); [|injection H as <- <-; exact Hm].
    bind_inv H. injection H as <- <-. destruct o; exact Hm.
  - bind_inv H. injection H as <- <-.
    apply simulate_crash_frame in E. destruct E as (Hc & Hb & _).
    eapply disjoint_same; eassumption.
  - bind_inv H. destruct (negb b0); [injection H as <- <-; exact Hm|].
    destruct (OSetGen_Contains _ _ _); [injection H as <- <-; exact Hm|].
    bind_inv H. injection H as <- <-. exact Hm.
  - unfold handle_gdb_monitor_command in H.
    destruct (_ =? -2); [injection H as <- <-; exact Hm|].
    destruct (_ =? -1); [injection H as <- <-; exact Hm|].
    destruct (_ =? 0); [injection H as <- <-; exact Hm|discriminate].
Qed.

Lemma oset_place_length {E} (cmp : E -> E -> Z) e t :
  List.length (oset_place cmp e t) = S (List.length t).
Proof.
  apply (Permutation_length (oset_place_perm cmp e t)).
Qed.

Lemma trace_pmem_store_disjoint running context a size value m m' :
  trace_pmem_store running context a size value m = Some m' ->
  ~ line_in_write_buffer m (TRIM_CACHELINE a) ->
  disjoint m -> disjoint m'.
Proof.
  intros H Hnb Hd.
  destruct (is_pmem_access a size m) as [[|]|] eqn:Ht.
  - pose proof (trace_pmem_store_cases _ _ _ _ _ _ _ Ht H) as Hcases.
    destruct (OSetGen_Lookup _ _ _) as [x|] eqn:El.
    + (* the entry is updated in place *)
      unfold trace_pmem_store in H. rewrite Ht in H. cbn [negb] in H.
      destruct (warn_if_split_frame a size m) as (Hp & _).
      set (mw := warn_if_split a size m) in *. clearbody mw.
      rewrite Hp, El in H. injection H as <-.
      destruct (note_spill_frame (TRIM_CACHELINE a) (store_spill a size value)
                  (set_cache
                     (oset_update cmp_pmat_cache_entries
                        (pmat_cache_entries (pmem m)) (store_key a)
                        (stored_into context a size value)) mw))
        as (Hp2 & _).
      intros l [Hc Hb]. apply (Hd l).
      unfold line_in_cache, line_in_write_buffer in *.
      rewrite Hp2 in Hc, Hb.
      cbn [pmem set_cache set_pmem with_cache_entries pmat_cache_entries
             pmat_write_buffer_entries] in Hc, Hb.
      rewrite oset_update_keys in Hc by reflexivity.
      rewrite Hp in Hb. split; assumption.
    + destruct Hcases as (m1 & m2 & Hc1 & Hb1 & _ & Hcap & Hcr & _).
      eapply maybe_simulate_crash_disjoint; [exact Hcr|].
      eapply cache_capacity_check_disjoint; [exact Hcap|].
      intros l [Hc Hb]. unfold line_in_cache, line_in_write_buffer in *.
      rewrite Hc1 in Hc. rewrite Hb1 in Hb.
      apply in_keys_place in Hc. destruct Hc as [Hc|Hc].
      * subst l. apply Hnb. exact Hb.
      * apply (Hd l). split; assumption.
  - unfold trace_pmem_store in H. rewrite Ht in H. injection H as <-. exact Hd.
  - unfold trace_pmem_store in H. rewrite Ht in H. discriminate.
Qed.

(** C2, as the specification words it, fails: a store to a line that is in
    the write buffer creates a cache entry for it. *)
Lemma disjointness_counterexample : ~ cache_and_write_buffer_always_disjoint.
Proof.
  intros H.
  destruct (run [register_r1; store_8 7 4096 1; Flush 1 4096;
                 store_8 7 4096 2] plain_machine) as [m|] eqn:Em;
    [|discriminate Em].
  assert (Hr : reached m).
  { eapply reached_plain_run; [|exact Em]. unfold store_8. calls_ok. }
  apply (H m Hr 4096). vm_compute in Em. injection Em as <-.
  split; left; reflexivity.
Qed.

(** C2, amended.  Every call keeps the cache and the write buffer disjoint,
    except a store to a line that is in the write buffer: such a store, to
    a tracked address and while the cache has room, creates a cache entry
    for the line and leaves the write buffer as it was, so that the line is
    then in both. *)
Theorem disjoint_unless_store_to_flushed_line c m m' :
  step c m = Some m' -> disjoint m ->
  match c with
  | Store _ _ a size _ =>
      (~ line_in_write_buffer m (TRIM_CACHELINE a) -> disjoint m')
      /\ (line_in_write_buffer m (TRIM_CACHELINE a) ->
          is_pmem_access a size m = Some true ->
          OSetGen_Size (pmat_cache_entries (pmem m))
          < NUM_CACHE_ENTRIES (lim m) ->
          line_in_cache m' (TRIM_CACHELINE a)
          /\ line_in_write_buffer m' (TRIM_CACHELINE a)
          /\ pmat_write_buffer_entries (pmem m')
             = pmat_write_buffer_entries (pmem m))
  | _ => disjoint m'
  end.
Proof.
  intros H Hd. destruct c; simpl in H.
  - split.
    + intros Hnb. eapply trace_pmem_store_disjoint; eassumption.
    + intros Hb Ht Hroom.
      pose proof (trace_pmem_store_cases _ _ _ _ _ _ _ Ht H) as Hcases.
      destruct (OSetGen_Lookup _ _ _) as [x|] eqn:El.
      * exfalso. apply cache_lookup_some in El. destruct El as [Hin Hk].
        apply (Hd (TRIM_CACHELINE a)). split; [|exact Hb].
        unfold line_in_cache. change (TRIM_CACHELINE a) with (addr (store_key a)).
        rewrite <- Hk. apply in_map, Hin.
      * destruct Hcases as (m1 & m2 & Hc1 & Hb1 & Hl1 & Hcap & Hcr & _).
        unfold cache_capacity_check in Hcap.
        assert (Hfit : (OSetGen_Size (pmat_cache_entries (pmem m1))
                        >? NUM_CACHE_ENTRIES (lim m1)) = false).
        { rewrite Hc1, Hl1. unfold OSetGen_Size in *.
          rewrite oset_place_length.
          destruct (Z.gtb_spec (Z.of_nat (S (List.length (pmat_cache_entries (pmem m)))))
                      (NUM_CACHE_ENTRIES (lim m))); [lia|reflexivity]. }
        rewrite Hfit in Hcap. injection Hcap as <-.
        apply maybe_simulate_crash_frame in Hcr.
        destruct Hcr as (Hc & Hb' & _).
        unfold line_in_cache, line_in_write_buffer in *.
        rewrite Hc, Hb', Hc1, Hb1. repeat split; [|exact Hb].
        apply in_keys_place. left. reflexivity.
  - unfold trace_pmem_flush in H. bind_inv H.
    eapply maybe_simulate_crash_disjoint; [exact H|].
    eapply do_flush_disjoint; eassumption.
  - unfold trace_pmem_flush_fence in H. bind_inv H. bind_inv H.
    eapply maybe_simulate_crash_disjoint; [exact H|].
    eapply _do_fence_disjoint; [exact E0|].
    eapply do_flush_disjoint; eassumption.
  - eapply do_fence_disjoint; eassumption.
  - bind_inv H. destruct p as [b m1]. injection H as <-.
    eapply pmat_handle_client_request_disjoint; eassumption.
Qed.

(** ** Bytes of the backing files *)

Lemma write_at_nth bytes off buf o :
  nth o (write_at bytes off buf) 0
  = if (off <=? o)%nat && (o <? off + List.length buf)%nat
    then nth (o - off) buf 0
    else nth o bytes 0.
Proof.
  unfold write_at.
  assert (Hl1 : List.length (firstn off bytes) = Nat.min off (List.length bytes))
    by apply length_firstn.
  destruct (Nat.leb_spec off o) as [Hle|Hlt]; simpl.
  - rewrite app_nth2 by lia. rewrite Hl1.
    rewrite app_nth2 by (rewrite repeat_length; lia).
    rewrite repeat_length.
    replace (o - Nat.min off (List.length bytes) - (off - List.length bytes))%nat
      with (o - off)%nat by lia.
    destruct (Nat.ltb_spec o (off + List.length buf)) as [Hin|Hout].
    + rewrite app_nth1 by lia. reflexivity.
    + rewrite app_nth2 by lia. rewrite nth_skipn. f_equal. lia.
  - destruct (Nat.lt_ge_cases o (List.length bytes)) as [Hb|Hb].
    + rewrite app_nth1 by lia. rewrite nth_firstn.
      destruct (Nat.ltb_spec o off); [reflexivity|lia].
    + rewrite app_nth2 by lia. rewrite Hl1.
      rewrite app_nth1 by (rewrite repeat_length; lia).
      rewrite nth_repeat. symmetry. apply nth_overflow. lia.
Qed.

Lemma land_bit_zero d i :
  0 <= i < 64 ->
  (Z.land d (wrap64 (Z.shiftl 1 i)) =? 0) = negb (Z.testbit d i).
Proof.
  intros Hi. unfold wrap64. rewrite Z.shiftl_1_l.
  assert (Hp : 0 < 2 ^ i < 2 ^ 64).
  { split; [apply Z.pow_pos_nonneg; lia|apply Z.pow_lt_mono_r; lia]. }
  rewrite Z.mod_small by lia.
  destruct (Z.testbit d i) eqn:Hb; simpl.
  - apply Z.eqb_neq. intros H0.
    assert (Hc : Z.testbit (Z.land d (2 ^ i)) i = true)
      by (rewrite Z.land_spec, Hb, Z.pow2_bits_true by lia; reflexivity).
    rewrite H0, Z.bits_0 in Hc. discriminate.
  - apply Z.eqb_eq. apply Z.bits_inj'. intros j Hj.
    rewrite Z.land_spec, Z.bits_0, Z.pow2_bits_eqb by lia.
    destruct (Z.eqb_spec i j); [subst; rewrite Hb; reflexivity|].
    apply andb_false_r.
Qed.

Lemma merge_line_length e cacheline :
  List.length (merge_line e cacheline) = line_bytes.
Proof. unfold merge_line. rewrite length_map, length_seq. reflexivity. Qed.

Lemma merge_line_dirty e cacheline i :
  (i < line_bytes)%nat -> Z.testbit (dirtyBits e) (Z.of_nat i) = true ->
  nth i (merge_line e cacheline) 0 = nth i (data e) 0.
Proof.
  intros Hi Hb. unfold merge_line. rewrite nth_map_seq by exact Hi.
  unfold line_bytes, CACHELINE_SIZE in Hi.
  rewrite land_bit_zero, Hb by lia. reflexivity.
Qed.

(** [write_to_file] puts the dirty bytes of the entry into the line's slot
    and leaves every byte outside the slot as it was. *)
Lemma write_to_file_bytes wbe m m' :
  write_to_file wbe m = Some m' ->
  exists path off,
    slot m (addr (entry wbe)) = Some (path, off)
    /\ (forall i, (i < line_bytes)%nat ->
                  Z.testbit (dirtyBits (entry wbe)) (Z.of_nat i) = true ->
                  file_byte (sys m') path (off + i)
                  = nth i (data (entry wbe)) 0)
    /\ (forall p o,
          ~ (p = path /\ (off <= o < off + line_bytes)%nat) ->
          file_byte (sys m') p o = file_byte (sys m) p o).
Proof.
  unfold write_to_file. intros H.
  bind_inv H. bind_inv H. rename p into r.
  destruct (negb _) eqn:Hseek; [discriminate|].
  bind_inv H. destruct p as [path f]. injection H as <-.
  unfold fd_file in E1. bind_inv E1. bind_inv E1. injection E1 as <- <-.
  exists s, (Z.to_nat (wrap64 (addr (entry wbe) - rf_addr r))).
  split; [|split].
  - unfold slot. rewrite E, E2. reflexivity.
  - intros i Hi Hb. unfold file_byte.
    cbn [sys set_sys with_files w_files]. unfold upd_file.
    rewrite String.eqb_refl. cbn [f_bytes].
    rewrite write_at_nth, merge_line_length.
    destruct (Nat.leb_spec (Z.to_nat (wrap64 (addr (entry wbe) - rf_addr r)))
                (Z.to_nat (wrap64 (addr (entry wbe) - rf_addr r)) + i));
      [|lia].
    destruct (Nat.ltb_spec (Z.to_nat (wrap64 (addr (entry wbe) - rf_addr r)) + i)
                (Z.to_nat (wrap64 (addr (entry wbe) - rf_addr r)) + line_bytes));
      [|lia].
    cbn [andb].
    replace (Z.to_nat (wrap64 (addr (entry wbe) - rf_addr r)) + i
             - Z.to_nat (wrap64 (addr (entry wbe) - rf_addr r)))%nat
      with i by lia.
    apply merge_line_dirty; assumption.
  - intros p0 o0 Hout. unfold file_byte.
    cbn [sys set_sys with_files w_files]. unfold upd_file.
    destruct (String.eqb_spec p0 s) as [->|Hne]; [|reflexivity].
    rewrite E3. cbn [f_bytes].
    rewrite write_at_nth, merge_line_length.
    destruct (Nat.leb_spec (Z.to_nat (wrap64 (addr (entry wbe) - rf_addr r))) o0);
      [|reflexivity].
    destruct (Nat.ltb_spec o0
                (Z.to_nat (wrap64 (addr (entry wbe) - rf_addr r)) + line_bytes));
      [|reflexivity].
    exfalso. apply Hout. split; [reflexivity|lia].
Qed.

Lemma slot_same m m' a :
  pmat_registered_files (pmem m') = pmat_registered_files (pmem m) ->
  w_fds (sys m') = w_fds (sys m) ->
  slot m' a = slot m a.
Proof. unfold slot, lookup_file. intros -> ->. reflexivity. Qed.

Lemma in_slot_same m m' a p o :
  pmat_registered_files (pmem m') = pmat_registered_files (pmem m) ->
  w_fds (sys m') = w_fds (sys m) ->
  in_slot m' a p o <-> in_slot m a p o.
Proof.
  intros Hr Hf. unfold in_slot. rewrite (slot_same _ _ _ Hr Hf). tauto.
Qed.

(** Draining changes no byte outside the slots of the drained lines. *)
Lemma drain_bytes_frame arr : forall m m',
  drain arr m = Some m' ->
  forall p o,
    (forall w, In w arr -> ~ in_slot m (wb_addr w) p o) ->
    file_byte (sys m') p o = file_byte (sys m) p o.
Proof.
  induction arr as [|w arr IH]; simpl; intros m m' H p o Hout.
  - injection H as <-. reflexivity.
  - bind_inv H.
    destruct (write_to_file_frame _ _ _ E) as (Hp & _ & Hf & _).
    destruct (write_to_file_bytes _ _ _ E) as (path & off & Hs & _ & Hfr).
    rewrite (IH _ _ H).
    + apply Hfr. intros [-> Hr]. apply (Hout w (or_introl eq_refl)).
      exists off. split; assumption.
    + intros w' Hw' Hin. apply (Hout w' (or_intror Hw')).
      refine (proj1 (in_slot_same m _ (wb_addr w') p o _ _) Hin).
      * cbn [pmem set_write_buffer set_pmem with_write_buffer_entries
               pmat_registered_files]. rewrite Hp. reflexivity.
      * exact Hf.
Qed.

Lemma aligned_offsets_apart a1 a2 b :
  word a1 -> word a2 ->
  TRIM_CACHELINE a1 = a1 -> TRIM_CACHELINE a2 = a2 -> a1 <> a2 ->
  wrap64 (a1 - b) + 64 <= wrap64 (a2 - b)
  \/ wrap64 (a2 - b) + 64 <= wrap64 (a1 - b).
Proof.
  unfold word, wrap64. intros H1 H2 T1 T2 Hne.
  rewrite TRIM_CACHELINE_div in T1, T2.
  pose proof (Z.div_mod (a1 - b) (2 ^ 64) ltac:(lia)) as D1.
  pose proof (Z.div_mod (a2 - b) (2 ^ 64) ltac:(lia)) as D2.
  pose proof (Z.mod_pos_bound (a1 - b) (2 ^ 64) ltac:(lia)) as B1.
  pose proof (Z.mod_pos_bound (a2 - b) (2 ^ 64) ltac:(lia)) as B2.
  set (o1 := (a1 - b) mod 2 ^ 64) in *.
  set (o2 := (a2 - b) mod 2 ^ 64) in *.
  set (q1 := (a1 - b) / 2 ^ 64) in *.
  set (q2 := (a2 - b) / 2 ^ 64) in *.
  set (k1 := a1 / 64) in *. set (k2 := a2 / 64) in *.
  change (2 ^ 64) with 18446744073709551616 in *.
  lia.
Qed.

Lemma slots_separate m a1 a2 :
  distinct_files m ->
  word a1 -> word a2 ->
  TRIM_CACHELINE a1 = a1 -> TRIM_CACHELINE a2 = a2 -> a1 <> a2 ->
  separate m a1 a2.
Proof.
  intros Hd W1 W2 T1 T2 Hne p o (off1 & S1 & R1) (off2 & S2 & R2).
  unfold slot in S1, S2.
  destruct (lookup_file a1 m) as [[r1|]|] eqn:L1; try discriminate.
  destruct (lookup_file a2 m) as [[r2|]|] eqn:L2; try discriminate.
  destruct (w_fds (sys m) (rf_descr r1)) as [p1|] eqn:F1; [|discriminate].
  destruct (w_fds (sys m) (rf_descr r2)) as [p2|] eqn:F2; [|discriminate].
  injection S1 as <- <-. injection S2 as -> <-.
  apply lookup_file_sound in L1, L2.
  assert (Hb : rf_addr r1 = rf_addr r2).
  { apply (Hd r1 r2 p1); tauto. }
  rewrite Hb in R1.
  pose proof (aligned_offsets_apart a1 a2 (rf_addr r2) W1 W2 T1 T2 Hne) as Ha.
  unfold line_bytes, CACHELINE_SIZE in *.
  assert (0 <= wrap64 (a1 - rf_addr r2)) by (apply Z.mod_pos_bound; lia).
  assert (0 <= wrap64 (a2 - rf_addr r2)) by (apply Z.mod_pos_bound; lia).
  lia.
Qed.

Lemma separate_same m m' a1 a2 :
  pmat_registered_files (pmem m') = pmat_registered_files (pmem m) ->
  w_fds (sys m') = w_fds (sys m) ->
  separate m a1 a2 -> separate m' a1 a2.
Proof.
  intros Hr Hf Hs p o H1 H2. apply (Hs p o).
  - apply (proj1 (in_slot_same m m' a1 p o Hr Hf) H1).
  - apply (proj1 (in_slot_same m m' a2 p o Hr Hf) H2).
Qed.

Lemma backing_byte_same m m' e i :
  pmat_registered_files (pmem m') = pmat_registered_files (pmem m) ->
  w_fds (sys m') = w_fds (sys m) ->
  w_files (sys m') = w_files (sys m) ->
  backing_byte m' e i = backing_byte m e i.
Proof.
  intros Hr Hf Hb. unfold backing_byte, file_byte.
  rewrite (slot_same _ _ _ Hr Hf), Hb. reflexivity.
Qed.

(** After draining entries whose slots are apart, each of them is in its
    backing file. *)
Lemma drain_persists arr : forall m m',
  drain arr m = Some m' ->
  NoDup (map wb_addr arr) ->
  (forall w1 w2, In w1 arr -> In w2 arr -> wb_addr w1 <> wb_addr w2 ->
                 separate m (wb_addr w1) (wb_addr w2)) ->
  forall w, In w arr -> persisted m' (entry w).
Proof.
  induction arr as [|w arr IH]; simpl; intros m m' H Hnd Hsep x Hx.
  - contradiction.
  - bind_inv H. rename m0 into m1.
    destruct (write_to_file_frame _ _ _ E) as (Hp & _ & Hf & _).
    set (m2 := set_write_buffer _ m1) in *.
    assert (Hr2 : pmat_registered_files (pmem m2)
                  = pmat_registered_files (pmem m)).
    { subst m2. cbn [pmem set_write_buffer set_pmem with_write_buffer_entries
                       pmat_registered_files]. rewrite Hp. reflexivity. }
    assert (Hf2 : w_fds (sys m2) = w_fds (sys m)) by exact Hf.
    inversion Hnd as [|? ? Hnotin Hnd']; subst.
    destruct (drain_frame _ _ _ H) as (_ & _ & Hr' & _ & Hf' & _).
    destruct Hx as [<-|Hx].
    + destruct (write_to_file_bytes _ _ _ E) as (path & off & Hs & Hd & _).
      intros i Hi Hb. unfold backing_byte.
      rewrite (slot_same m m') by congruence.
      fold (wb_addr w) in Hs. unfold wb_addr in Hs. rewrite Hs.
      f_equal. rewrite <- (Hd i Hi Hb).
      apply (drain_bytes_frame _ _ _ H).
      intros w' Hw' Hin.
      apply (Hsep w w' (or_introl eq_refl) (or_intror Hw')) with (p := path)
                                                                 (o := (off + i)%nat).
      * intros Heq. apply Hnotin. rewrite Heq. apply in_map, Hw'.
      * exists off. split; [exact Hs|lia].
      * apply (proj1 (in_slot_same m m2 (wb_addr w') path (off + i)%nat
                        Hr2 Hf2) Hin).
    + eapply IH; [exact H|exact Hnd'| |exact Hx].
      intros w1 w2 H1 H2 Hne.
      apply (separate_same m m2); [exact Hr2|exact Hf2|].
      apply Hsep; [right; exact H1|right; exact H2|exact Hne].
Qed.

Lemma NoDup_map_inj {E K} (key : E -> K) l x y :
  NoDup (map key l) -> In x l -> In y l -> key x = key y -> x = y.
Proof.
  induction l as [|z l IH]; simpl; intros Hnd Hx Hy Hk; [contradiction|].
  inversion Hnd as [|? ? Hz Hl]; subst.
  destruct Hx as [<-|Hx], Hy as [<-|Hy]; try reflexivity.
  - exfalso. apply Hz. rewrite Hk. apply in_map, Hy.
  - exfalso. apply Hz. rewrite <- Hk. apply in_map, Hx.
  - apply IH; assumption.
Qed.

(** With one entry per line, the entries a fence leaves are those of the
    other threads. *)
Lemma undrained_own_entries T b :
  NoDup (map wb_addr b) ->
  filter (undrained (filter (fun w => tid w =? T) b)) b
  = filter (fun w => negb (tid w =? T)) b.
Proof.
  intros Hnd. apply filter_ext_in. intros x Hx. unfold undrained.
  destruct (tid x =? T) eqn:Ht; simpl.
  - apply not_true_is_false. intros Hall.
    rewrite forallb_forall in Hall.
    specialize (Hall x). rewrite Z.eqb_refl in Hall.
    discriminate Hall. apply filter_In. split; assumption.
  - apply forallb_forall. intros w Hw. apply filter_In in Hw.
    destruct Hw as [Hw Htw]. apply negb_true_iff, Z.eqb_neq. intros Hk.
    assert (w = x) by (eapply NoDup_map_inj; eassumption).
    subst w. congruence.
Qed.

Lemma distinct_files_same m m' :
  pmat_registered_files (pmem m') = pmat_registered_files (pmem m) ->
  w_fds (sys m') = w_fds (sys m) ->
  distinct_files m -> distinct_files m'.
Proof. unfold distinct_files. intros -> ->. tauto. Qed.

Lemma persisted_same m m' e :
  pmat_registered_files (pmem m') = pmat_registered_files (pmem m) ->
  w_fds (sys m') = w_fds (sys m) ->
  w_files (sys m') = w_files (sys m) ->
  persisted m e -> persisted m' e.
Proof.
  intros Hr Hf Hb H i Hi Hd.
  rewrite (backing_byte_same m m' e i Hr Hf Hb). apply H; assumption.
Qed.

(** The drain of a fence, on a well-formed machine whose regions have
    files of their own. *)
Lemma _do_fence_scope T m m' :
  machine_ok m -> distinct_files m ->
  _do_fence T m = Some m' ->
  pmat_write_buffer_entries (pmem m')
  = filter (fun w => negb (tid w =? T)) (pmat_write_buffer_entries (pmem m))
  /\ (forall w, In w (pmat_write_buffer_entries (pmem m)) -> tid w = T ->
                persisted m' (entry w)).
Proof.
  intros (_ & Hb & _ & Hnd) Hdf H. unfold _do_fence in H.
  destruct (_ =? 0) eqn:Hz.
  - injection H as <-. apply Z.eqb_eq in Hz. unfold OSetGen_Size in Hz.
    destruct (pmat_write_buffer_entries (pmem m)); [|simpl in Hz; lia].
    split; [reflexivity|]. intros w [].
  - split.
    + destruct (drain_frame _ _ _ H) as (Hb' & _).
      rewrite Hb'. apply undrained_own_entries, Hnd.
    + intros w Hw Ht.
      apply (drain_persists _ _ _ H).
      * apply NoDup_map_filter, Hnd.
      * intros w1 w2 H1 H2 Hne. apply filter_In in H1, H2.
        rewrite Forall_forall in Hb.
        destruct (Hb w1 (proj1 H1)) as (W1 & T1 & _).
        destruct (Hb w2 (proj1 H2)) as (W2 & T2 & _).
        apply slots_separate; assumption.
      * apply filter_In. split; [exact Hw|]. apply Z.eqb_eq, Ht.
Qed.

(** C3. Fence scope: after [do_fence] has run on thread [T], in a state the
    tool reaches and in which no backing file serves two regions, no
    write-buffer entry of [T] remains; each entry [T] had in the write
    buffer is in its backing file (its dirty bytes are the file's bytes at
    the line's offset) and gone from the buffer; the entries of the other
    threads are the write buffer afterwards, unchanged and in order. *)
Theorem fence_scope T m m' :
  reached m -> distinct_files m ->
  do_fence T m = Some m' ->
  (forall w, In w (pmat_write_buffer_entries (pmem m')) -> tid w <> T)
  /\ (forall w, In w (pmat_write_buffer_entries (pmem m)) -> tid w = T ->
                persisted m' (entry w)
                /\ ~ In w (pmat_write_buffer_entries (pmem m')))
  /\ pmat_write_buffer_entries (pmem m')
     = filter (fun w => negb (tid w =? T))
         (pmat_write_buffer_entries (pmem m)).
Proof.
  intros Hr Hdf H. apply reached_ok in Hr.
  unfold do_fence in H. bind_inv H. bind_inv H.
  rename m0 into ma, m1 into mb.
  destruct (maybe_simulate_crash_frame _ _ E)
    as (Hc1 & Hb1 & Hr1 & _ & _ & Hfl1 & Hfd1).
  destruct (maybe_simulate_crash_frame _ _ H)
    as (Hc2 & Hb2 & Hr2 & _ & _ & Hfl2 & Hfd2).
  assert (Hok1 : machine_ok ma) by (eapply machine_ok_same; eassumption).
  assert (Hdf1 : distinct_files ma)
    by (eapply distinct_files_same; eassumption).
  destruct (_do_fence_scope T ma _ Hok1 Hdf1 E0) as (Hwb & Hper).
  assert (Heq : pmat_write_buffer_entries (pmem m')
                = filter (fun w => negb (tid w =? T))
                    (pmat_write_buffer_entries (pmem m)))
    by (rewrite Hb2, Hwb, Hb1; reflexivity).
  split; [|split; [|exact Heq]].
  - intros w Hw. rewrite Heq in Hw. apply filter_In in Hw.
    destruct Hw as [_ Hw]. apply negb_true_iff, Z.eqb_neq in Hw. exact Hw.
  - intros w Hw Ht. split.
    + apply (persisted_same _ _ _ Hr2 Hfd2 Hfl2).
      apply Hper; [rewrite Hb1; exact Hw|exact Ht].
    + rewrite Heq. intros Hin. apply filter_In in Hin.
      destruct Hin as [_ Hin]. apply negb_true_iff, Z.eqb_neq in Hin.
      contradiction.
Qed.

(** ** Flushes *)

Lemma supersede_bytes e m m1 :
  supersede e m = Some m1 ->
  forall p o, ~ in_slot m (addr e) p o ->
              file_byte (sys m1) p o = file_byte (sys m) p o.
Proof.
  unfold supersede. intros H p o Hout.
  destruct (OSetGen_Lookup _ _ _) as [ex|] eqn:El.
  - bind_inv H. injection H as <-.
    destruct (write_to_file_bytes _ _ _ E) as (path & off & Hs & _ & Hfr).
    apply wb_lookup_some in El. destruct El as [_ Hk].
    unfold wb_addr in Hk. simpl in Hk. rewrite Hk in Hs.
    cbn [sys set_write_buffer set_pmem]. apply Hfr.
    intros [-> Hr]. apply Hout. exists off. split; assumption.
  - injection H as <-. reflexivity.
Qed.

(** While the write buffer, with the entry in place of any it held for
    the line, is within its capacity, [do_writeback] changes no byte outside
    the slot of the line it writes back. *)
Lemma do_writeback_bytes running e m m' :
  do_writeback running e m = Some m' ->
  OSetGen_Size
    (filter (fun x => negb (addr e =? wb_addr x))
       (pmat_write_buffer_entries (pmem m))) + 1
  <= NUM_WB_ENTRIES (lim m) ->
  forall p o, ~ in_slot m (addr e) p o ->
              file_byte (sys m') p o = file_byte (sys m) p o.
Proof.
  unfold do_writeback. intros H Hroom p o Hout.
  bind_inv H. bind_inv H. clear E E0. bind_inv H. rename m0 into m1.
  pose proof (supersede_bytes _ _ _ E p o) as Hby.
  apply supersede_effect in E.
  destruct E as (Hb1 & _ & _ & Hl1 & _).
  cbn [pmem set_cache set_pmem with_cache_entries pmat_write_buffer_entries
         lim sys] in *.
  bind_inv H. unfold OSetGen_Insert in E.
  destruct (OSetGen_Lookup _ _ _); [discriminate|]. injection E as <-.
  cbn [lim set_write_buffer set_pmem] in H. rewrite Hl1, Hb1 in H.
  assert (Hfit : (OSetGen_Size
                    (oset_place cmp_pmat_write_buffer_entries
                       (mk_wb_entry e running)
                       (filter (fun x => negb (addr e =? wb_addr x))
                          (pmat_write_buffer_entries (pmem m))))
                  >? NUM_WB_ENTRIES (lim m)) = false).
  { unfold OSetGen_Size in *. rewrite oset_place_length.
    destruct (Z.gtb_spec
                (Z.of_nat (S (List.length
                   (filter (fun x => negb (addr e =? wb_addr x))
                      (pmat_write_buffer_entries (pmem m))))))
                (NUM_WB_ENTRIES (lim m))); [lia|reflexivity]. }
  rewrite Hfit in H. injection H as <-.
  cbn [sys set_write_buffer set_pmem]. apply Hby.
  intros Hin. apply Hout.
  refine (proj1 (in_slot_same m _ (addr e) p o _ _) Hin); reflexivity.
Qed.

(** C10, as the specification words it, fails: when the flushed line
    makes the write buffer exceed its capacity, the eviction that follows
    drains entries of other lines. *)
Lemma flush_frame_counterexample : ~ flush_leaves_other_lines.
Proof.
  intros H.
  destruct (run [register_r1; store_8 7 4096 1; store_8 7 (4096 + 64) 2;
                 Flush 1 (4096 + 64)] tight_machine) as [m|] eqn:Em;
    [|discriminate Em].
  assert (Hr : reached m).
  { eapply run_reached; [apply reached_init| |exact Em].
    unfold store_8. calls_ok. }
  destruct (do_flush 1 4096 64 m) as [m'|] eqn:Em'.
  - destruct (H 1 4096 64 m m' Hr Em') as (_ & Hwb & _).
    vm_compute in Em. injection Em as <-.
    vm_compute in Em'. injection Em' as <-.
    specialize (Hwb _ (or_introl eq_refl)).
    vm_compute in Hwb. apply Hwb. discriminate.
  - vm_compute in Em. injection Em as <-. vm_compute in Em'. discriminate Em'.
Qed.

(** C10, amended.  [do_flush(base, size)] does not look at [size].  The
    cache loses the entry of the line of [base] and no other, and no
    write-buffer entry of another line appears.  As long as the write
    buffer does not exceed [NUM_WB_ENTRIES] once the line has moved into it
    (in place of any entry the buffer held for the line), the write-buffer
    entries of the other lines stay and no byte of a backing file outside
    the flushed line's own 64 bytes changes. *)
Theorem do_flush_moves_one_line running base size m m' :
  do_flush running base size m = Some m' ->
  (forall size', do_flush running base size' m = Some m')
  /\ pmat_cache_entries (pmem m')
     = filter (fun e => negb (TRIM_CACHELINE base =? addr e))
         (pmat_cache_entries (pmem m))
  /\ (forall w, In w (pmat_write_buffer_entries (pmem m')) ->
                wb_addr w <> TRIM_CACHELINE base ->
                In w (pmat_write_buffer_entries (pmem m)))
  /\ (wb_size_after_move base m <= NUM_WB_ENTRIES (lim m) ->
      (forall w, In w (pmat_write_buffer_entries (pmem m)) ->
                 wb_addr w <> TRIM_CACHELINE base ->
                 In w (pmat_write_buffer_entries (pmem m')))
      /\ (forall p o, ~ in_slot m (TRIM_CACHELINE base) p o ->
                      file_byte (sys m') p o = file_byte (sys m) p o)).
Proof.
  intros H. split; [intros size'; exact H|].
  unfold do_flush in H.
  destruct (OSetGen_Lookup _ _ _) as [x|] eqn:El.
  - pose proof (cache_lookup_some _ _ _ El) as [_ Hk].
    change (addr (store_key base)) with (TRIM_CACHELINE base) in Hk.
    pose proof (do_writeback_bytes _ _ _ _ H) as Hby.
    apply do_writeback_effect in H.
    destruct H as (Hc & (arr & Hb & Hno) & _).
    unfold wb_size_after_move.
    rewrite Hk in *. split; [exact Hc|]. split.
    + intros w Hw Hne. rewrite Hb in Hw. apply filter_In in Hw.
      destruct Hw as [Hw _].
      eapply Permutation_in in Hw; [|apply oset_place_perm].
      destruct Hw as [<-|Hw]; [exfalso; apply Hne; exact Hk|].
      apply filter_In in Hw. tauto.
    + intros Hroom. split; [|exact (Hby Hroom)].
      intros w Hw Hne. rewrite Hb, Hno, filter_undrained_nil.
      * eapply Permutation_in; [apply Permutation_sym, oset_place_perm|].
        right. apply filter_In. split; [exact Hw|].
        apply negb_true_iff, Z.eqb_neq. congruence.
      * unfold OSetGen_Size in *. rewrite oset_place_length.
        destruct (Z.gtb_spec
                    (Z.of_nat (S (List.length
                       (filter (fun x => negb (TRIM_CACHELINE base =? wb_addr x))
                          (pmat_write_buffer_entries (pmem m))))))
                    (NUM_WB_ENTRIES (lim m))); [lia|reflexivity].
  - injection H as <-. split; [|split; [tauto|split; [tauto|reflexivity]]].
    symmetry. apply filter_id. intros y Hy.
    pose proof (cache_lookup_none _ _ El y Hy) as Hn.
    change (addr (store_key base)) with (TRIM_CACHELINE base) in Hn.
    apply negb_true_iff, Z.eqb_neq. congruence.
Qed.


(** ** The fence does return *)

Lemma write_to_file_succeeds w m :
  writable m (wb_addr w) -> exists m', write_to_file w m = Some m'.
Proof.
  intros (r & path & f & Hl & Hd & Hf & Ho).
  unfold write_to_file. fold (wb_addr w). rewrite Hl. cbn.
  unfold VG_lseek. rewrite Hd, Ho, Z.eqb_refl. cbn [negb].
  unfold fd_file. rewrite Hd, Hf. eexists. reflexivity.
Qed.

Lemma write_to_file_keeps_files w m m' q f :
  write_to_file w m = Some m' ->
  w_files (sys m) q = Some f ->
  exists f', w_files (sys m') q = Some f'.
Proof.
  unfold write_to_file. intros H Hq. repeat bind_inv H.
  destruct p0 as [path' f']. injection H as <-.
  cbn [sys set_sys with_files w_files]. unfold upd_file.
  destruct (String.eqb q _); eexists; [reflexivity|exact Hq].
Qed.

Lemma write_to_file_writable w m m' a :
  write_to_file w m = Some m' -> writable m a -> writable m' a.
Proof.
  intros H (r & path & f & Hl & Hd & Hf & Ho).
  destruct (write_to_file_frame _ _ _ H) as (Hp & _ & Hfd & _).
  destruct (write_to_file_keeps_files _ _ _ _ _ H Hf) as (f' & Hf').
  exists r, path, f'. unfold lookup_file in *. rewrite Hp, Hfd. tauto.
Qed.

Lemma writable_same m m' a :
  pmat_registered_files (pmem m') = pmat_registered_files (pmem m) ->
  sys m' = sys m -> writable m a -> writable m' a.
Proof.
  intros Hr Hs (r & path & f & Hl & Hd & Hf & Ho).
  exists r, path, f. unfold lookup_file in *. rewrite Hr, Hs. tauto.
Qed.

Lemma drain_succeeds arr : forall m,
  (forall w, In w arr -> writable m (wb_addr w)) ->
  exists m', drain arr m = Some m'.
Proof.
  induction arr as [|w arr IH]; simpl; intros m Hw.
  - eexists. reflexivity.
  - destruct (write_to_file_succeeds w m (Hw w (or_introl eq_refl)))
      as (m1 & H1).
    rewrite H1. apply IH. intros w' Hw'.
    apply (writable_same m1).
    + reflexivity.
    + reflexivity.
    + eapply write_to_file_writable; [exact H1|]. apply Hw. right. exact Hw'.
Qed.

(** The drain of a fence returns whenever each pending line of the thread
    can be written back. *)
Lemma _do_fence_succeeds T m :
  (forall w, In w (pmat_write_buffer_entries (pmem m)) -> tid w = T ->
             writable m (wb_addr w)) ->
  exists m', _do_fence T m = Some m'.
Proof.
  intros H. unfold _do_fence.
  destruct (_ =? 0); [eexists; reflexivity|].
  apply drain_succeeds. intros w Hw. apply filter_In in Hw.
  destruct Hw as [Hw Ht]. apply H; [exact Hw|]. apply Z.eqb_eq, Ht.
Qed.

(** * Further properties of the code *)

(** ** Which stores are tracked *)

(** X1.  With a single region registered and no transient range, a store
    at [a] is tracked exactly when [base <= a <= base + size] (in machine
    arithmetic): the size of the store plays no part, and the first address
    past the end of the region counts as inside it. *)
Theorem tracked_iff_inside_single_region a size r m :
  pmat_registered_files (pmem m) = [r] ->
  rf_size r <> 0 ->
  pmat_transient_addresses (pmem m) = [] ->
  is_pmem_access a size m
  = Some ((rf_addr r <=? a) && (a <=? wrap64 (rf_addr r + rf_size r))).
Proof.
  intros Hr Hs Ht. unfold is_pmem_access, lookup_file. rewrite Hr, Ht.
  cbn [OSetGen_Size List.length Z.of_nat Z.eqb OSetGen_LookupWithCmp].
  rewrite find_file_by_addr_query by exact Hs.
  destruct (Z.ltb_spec a (rf_addr r)), (Z.leb_spec (rf_addr r) a); try lia;
    cbn; [reflexivity|].
  destruct (Z.gtb_spec a (wrap64 (rf_addr r + rf_size r))),
           (Z.leb_spec a (wrap64 (rf_addr r + rf_size r))); try lia;
    reflexivity.
Qed.

(** X2.  A store to an address that lies in no registered region (each
    region taken with both ends, [base <= a <= base + size]) changes
    nothing: no entry, no warning, no draw from the random stream and no
    crash check. *)
Theorem store_outside_regions_is_noop running context a size value m :
  (forall r, In r (pmat_registered_files (pmem m)) ->
     rf_size r <> 0
     /\ ~ (rf_addr r <= a <= wrap64 (rf_addr r + rf_size r))) ->
  trace_pmem_store running context a size value m = Some m.
Proof.
  intros H. unfold trace_pmem_store, is_pmem_access.
  destruct (OSetGen_Size _ =? 0); [reflexivity|].
  rewrite (lookup_file_none a m H). reflexivity.
Qed.

Lemma register_table running name a size m m1 :
  pmat_handle_client_request running (PMC_PMAT_REGISTER (Some name) a size) m
  = Some (true, m1) ->
  exists descr,
    OSetGen_Insert cmp_pmat_registered_files1 (pmat_registered_files (pmem m))
      (mk_registered_file name a size descr)
    = Some (pmat_registered_files (pmem m1))
    /\ TRIM_CACHELINE a = a
    /\ pmat_cache_entries (pmem m1) = pmat_cache_entries (pmem m)
    /\ pmat_write_buffer_entries (pmem m1) = pmat_write_buffer_entries (pmem m)
    /\ pmat_transient_addresses (pmem m1) = pmat_transient_addresses (pmem m)
    /\ lim m1 = lim m.
Proof.
  unfold pmat_handle_client_request. intros H.
  destruct (negb (TRIM_CACHELINE a =? a)) eqn:Ha; [discriminate|].
  apply negb_false_iff, Z.eqb_eq in Ha.
  destruct (VG_open _ _ _) as [res w]. bind_inv H.
  destruct (_ =? _); [discriminate|]. bind_inv H.
  injection H as <-. exists z. repeat split; try assumption.
Qed.

(** X3.  A region of size 0 is accepted by the register request, and once
    it is the only region every lookup by address fails the comparator's
    assertion: each store, each transient request and each unregistration
    by address then aborts the tool. *)
Theorem zero_size_region_aborts running name base m m1 :
  pmat_registered_files (pmem m) = [] ->
  pmat_handle_client_request running (PMC_PMAT_REGISTER (Some name) base 0) m
  = Some (true, m1) ->
  (forall T context a size value,
      trace_pmem_store T context a size value m1 = None)
  /\ (forall T a size,
        pmat_handle_client_request T (PMC_PMAT_TRANSIENT a size) m1 = None)
  /\ (forall T a,
        pmat_handle_client_request T (PMC_PMAT_UNREGISTER_BY_ADDR a) m1
        = None).
Proof.
  intros He H. apply register_table in H.
  destruct H as (descr & Hi & _). rewrite He in Hi. cbn in Hi.
  injection Hi as Hi.
  assert (Hl : forall a, lookup_file a m1 = None).
  { intros a. unfold lookup_file. rewrite <- Hi. reflexivity. }
  split; [|split].
  - intros T context a size value.
    unfold trace_pmem_store, is_pmem_access. rewrite Hl, <- Hi. reflexivity.
  - intros T a size. unfold pmat_handle_client_request.
    rewrite Hl, <- Hi. reflexivity.
  - intros T a. unfold pmat_handle_client_request.
    rewrite Hl, <- Hi. reflexivity.
Qed.

(** ** What a writeback leaves in the file *)

Lemma write_at_length bytes off buf :
  List.length (write_at bytes off buf)
  = Nat.max (List.length bytes) (off + List.length buf).
Proof.
  unfold write_at.
  rewrite !length_app, length_firstn, repeat_length, length_skipn. lia.
Qed.

Lemma read_into_nth junk bytes off n i :
  (i < n)%nat ->
  nth i (read_into junk bytes off n) 0
  = if (off + i <? List.length bytes)%nat then nth (off + i) bytes 0
    else junk i.
Proof.
  intros Hi. unfold read_into. rewrite nth_map_seq by exact Hi.
  destruct (Nat.ltb_spec (off + i) (List.length bytes)) as [Hlt|Hge].
  - destruct (nth_error bytes (off + i)) eqn:E.
    + symmetry. apply nth_error_nth. exact E.
    + apply nth_error_None in E. lia.
  - apply nth_error_None in Hge. rewrite Hge. reflexivity.
Qed.

Lemma merge_line_nth e cacheline i :
  (i < line_bytes)%nat ->
  nth i (merge_line e cacheline) 0
  = if Z.testbit (dirtyBits e) (Z.of_nat i) then nth i (data e) 0
    else nth i cacheline 0.
Proof.
  intros Hi. unfold merge_line. rewrite nth_map_seq by exact Hi.
  unfold line_bytes, CACHELINE_SIZE in Hi.
  rewrite land_bit_zero by lia.
  destruct (Z.testbit _ _); reflexivity.
Qed.

(** What [write_to_file] leaves in the file of the region. *)
Lemma write_to_file_effect wbe m m' :
  write_to_file wbe m = Some m' ->
  exists path off f f',
    slot m (addr (entry wbe)) = Some (path, off)
    /\ w_files (sys m) path = Some f
    /\ w_files (sys m') path = Some f'
    /\ f_mode f' = f_mode f
    /\ List.length (f_bytes f')
       = Nat.max (List.length (f_bytes f)) (off + line_bytes)
    /\ (forall i, (i < line_bytes)%nat ->
          nth (off + i) (f_bytes f') 0
          = if Z.testbit (dirtyBits (entry wbe)) (Z.of_nat i)
            then nth i (data (entry wbe)) 0
            else if (off + i <? List.length (f_bytes f))%nat
                 then nth (off + i) (f_bytes f) 0
                 else w_uninit (sys m) i)
    /\ (forall k, (k < off \/ off + line_bytes <= k)%nat ->
          nth k (f_bytes f') 0 = nth k (f_bytes f) 0)
    /\ (forall q, q <> path -> w_files (sys m') q = w_files (sys m) q).
Proof.
  unfold write_to_file. intros H.
  bind_inv H. bind_inv H. rename p into r.
  destruct (negb _) eqn:Hseek; [discriminate|].
  bind_inv H. destruct p as [path f]. injection H as <-.
  unfold fd_file in E1. bind_inv E1. bind_inv E1. injection E1 as <- <-.
  set (off := Z.to_nat (wrap64 (addr (entry wbe) - rf_addr r))).
  exists s, off, f0. eexists.
  split; [unfold slot; rewrite E, E2; reflexivity|].
  split; [exact E3|].
  cbn [sys set_sys with_files w_files]. unfold upd_file.
  rewrite String.eqb_refl.
  split; [reflexivity|]. cbn [f_mode f_bytes].
  split; [reflexivity|].
  split; [rewrite write_at_length, merge_line_length; reflexivity|].
  split; [|split].
  - intros i Hi. rewrite write_at_nth, merge_line_length.
    destruct (Nat.leb_spec off (off + i)); [|lia].
    destruct (Nat.ltb_spec (off + i) (off + line_bytes)); [|lia].
    cbn [andb]. replace (off + i - off)%nat with i by lia.
    rewrite merge_line_nth by exact Hi.
    rewrite read_into_nth by exact Hi. reflexivity.
  - intros k Hk. rewrite write_at_nth, merge_line_length.
    destruct (Nat.leb_spec off k); [|reflexivity].
    destruct (Nat.ltb_spec k (off + line_bytes)); [lia|reflexivity].
  - intros q Hq. destruct (String.eqb_spec q s); [contradiction|reflexivity].
Qed.

(** X4.  [write_to_file] merges the entry into the file of its region: of
    the 64 bytes at the line's offset, those marked dirty become the
    entry's, the others keep what the file had; the bytes before and after
    the line, the mode and the other files are as before.  The file is
    never cut, and it grows to the end of the line when it was shorter:
    bytes of the line past the old end that are not dirty are then written
    from the writeback's buffer, which nothing has initialised. *)
Theorem write_to_file_merges wbe m m' :
  write_to_file wbe m = Some m' ->
  exists path off f f',
    slot m (addr (entry wbe)) = Some (path, off)
    /\ w_files (sys m) path = Some f
    /\ w_files (sys m') path = Some f'
    /\ f_mode f' = f_mode f
    /\ List.length (f_bytes f')
       = Nat.max (List.length (f_bytes f)) (off + line_bytes)
    /\ (forall i, (i < line_bytes)%nat ->
          nth (off + i) (f_bytes f') 0
          = if Z.testbit (dirtyBits (entry wbe)) (Z.of_nat i)
            then nth i (data (entry wbe)) 0
            else if (off + i <? List.length (f_bytes f))%nat
                 then nth (off + i) (f_bytes f) 0
                 else w_uninit (sys m) i)
    /\ (forall k, (k < off \/ off + line_bytes <= k)%nat ->
          nth k (f_bytes f') 0 = nth k (f_bytes f) 0)
    /\ (forall q, q <> path -> w_files (sys m') q = w_files (sys m) q).
Proof. apply write_to_file_effect. Qed.

(** ** From the store to the file *)

Lemma forallb_false {A} (f : A -> bool) l :
  forallb f l = false -> exists x, In x l /\ f x = false.
Proof.
  induction l as [|y l IH]; simpl; intros H; [discriminate|].
  destruct (f y) eqn:E.
  - destruct (IH H) as (x & Hx & Hf). exists x. tauto.
  - exists y. tauto.
Qed.

Lemma select_random_NoDup {E K} (key : E -> K) (pick : Z -> bool)
      (t : list E) : forall w,
  NoDup (map key t) -> NoDup (map key (fst (select_random pick t w))).
Proof.
  induction t as [|e t IH]; intros w Hnd; cbn [select_random].
  - constructor.
  - inversion Hnd as [|? ? He Ht]; subst.
    destruct (VG_random w) as [r w1].
    pose proof (select_random_incl pick t w1) as Hin.
    specialize (IH w1 Ht). destruct (select_random pick t w1) as [vs w2].
    cbn [fst] in *. destruct (pick r); [|exact IH].
    simpl. constructor; [|exact IH].
    intros Hk. apply He. apply in_map_iff in Hk.
    destruct Hk as (y & Hy & Hv). apply in_map_iff. exists y.
    split; [exact Hy|apply Hin, Hv].
Qed.

Lemma on_its_way_same T e m m' :
  pmat_cache_entries (pmem m') = pmat_cache_entries (pmem m) ->
  pmat_write_buffer_entries (pmem m') = pmat_write_buffer_entries (pmem m) ->
  pmat_registered_files (pmem m') = pmat_registered_files (pmem m) ->
  w_fds (sys m') = w_fds (sys m) ->
  w_files (sys m') = w_files (sys m) ->
  on_its_way T e m -> on_its_way T e m'.
Proof.
  intros Hc Hb Hr Hd Hf.
  unfold on_its_way, line_in_cache, line_in_write_buffer. rewrite Hc, Hb.
  intros [H|[H|(H1 & H2 & H3)]]; [left|right; left|right; right]; auto.
  split; [|auto]. eapply persisted_same; eassumption.
Qed.

Lemma sound_same m m' :
  pmat_cache_entries (pmem m') = pmat_cache_entries (pmem m) ->
  pmat_write_buffer_entries (pmem m') = pmat_write_buffer_entries (pmem m) ->
  pmat_registered_files (pmem m') = pmat_registered_files (pmem m) ->
  w_fds (sys m') = w_fds (sys m) ->
  sound m -> sound m'.
Proof.
  intros Hc Hb Hr Hd [Hok Hdf]. split.
  - eapply machine_ok_same; eassumption.
  - eapply distinct_files_same; eassumption.
Qed.

Lemma drain_sound arr m m' :
  drain arr m = Some m' -> sound m -> sound m'.
Proof.
  intros H [Hok Hdf]. split; [eapply drain_ok; eassumption|].
  apply drain_frame in H. destruct H as (_ & _ & Hr & _ & Hf & _).
  eapply distinct_files_same; eassumption.
Qed.

(** Draining entries of the write buffer keeps an entry on its way. *)
Lemma drain_keeps T e arr m m' :
  sound m -> entry_ok e ->
  incl arr (pmat_write_buffer_entries (pmem m)) ->
  NoDup (map wb_addr arr) ->
  drain arr m = Some m' ->
  on_its_way T e m -> on_its_way T e m'.
Proof.
  intros ((Hc & Hb & Hnc & Hnb) & Hdf) (We & Te & _) Hin Hnd H.
  destruct (drain_frame _ _ _ H) as (Hb' & Hc' & Hr' & _ & Hf' & _).
  rewrite Forall_forall in Hb.
  assert (Hsep : forall w1 w2, In w1 arr -> In w2 arr ->
                   wb_addr w1 <> wb_addr w2 ->
                   separate m (wb_addr w1) (wb_addr w2)).
  { intros w1 w2 H1 H2 Hne.
    destruct (Hb w1 (Hin w1 H1)) as (W1 & T1 & _).
    destruct (Hb w2 (Hin w2 H2)) as (W2 & T2 & _).
    apply slots_separate; assumption. }
  pose proof (drain_persists arr m m' H Hnd Hsep) as Hper.
  intros [H1|[[H2 Hn2]|(Hp & Hn3 & Hb3)]].
  - left. rewrite Hc'. exact H1.
  - destruct (undrained arr (mk_wb_entry e T)) eqn:Hu.
    + right; left. split.
      * rewrite Hb'. apply filter_In. split; assumption.
      * unfold line_in_cache. rewrite Hc'. exact Hn2.
    + right; right. unfold undrained in Hu. apply forallb_false in Hu.
      destruct Hu as (w & Hw & Hk).
      apply negb_false_iff, Z.eqb_eq in Hk.
      assert (Hwe : w = mk_wb_entry e T).
      { apply (NoDup_map_inj wb_addr (pmat_write_buffer_entries (pmem m)));
          auto. }
      split; [|split].
      * specialize (Hper w Hw). rewrite Hwe in Hper. exact Hper.
      * unfold line_in_cache. rewrite Hc'. exact Hn2.
      * unfold line_in_write_buffer. rewrite Hb'. intros Hl.
        apply in_keys_filter in Hl. destruct Hl as (x & _ & Hx & Hl).
        unfold undrained in Hx. rewrite forallb_forall in Hx.
        specialize (Hx w Hw). apply negb_true_iff, Z.eqb_neq in Hx.
        apply Hx. rewrite Hl, Hk. reflexivity.
  - right; right. split; [|split].
    + intros i Hi Hd. specialize (Hp i Hi Hd). unfold backing_byte in *.
      rewrite (slot_same m m') by assumption.
      destruct (slot m (addr e)) as [[path off]|] eqn:Hs; [|discriminate].
      injection Hp as Hp. f_equal. rewrite <- Hp.
      apply (drain_bytes_frame _ _ _ H). intros w Hw Hsl.
      destruct (Hb w (Hin w Hw)) as (W1 & T1 & _).
      apply (slots_separate m (addr e) (wb_addr w) Hdf We W1 Te T1)
        with (p := path) (o := (off + i)%nat).
      * intros Heq. apply Hb3. unfold line_in_write_buffer. rewrite Heq.
        apply in_map, Hin, Hw.
      * exists off. split; [exact Hs|lia].
      * exact Hsl.
    + unfold line_in_cache. rewrite Hc'. exact Hn3.
    + unfold line_in_write_buffer. rewrite Hb'. intros Hl.
      apply in_keys_filter in Hl. destruct Hl as (x & Hx & _ & Hl).
      apply Hb3. unfold line_in_write_buffer. rewrite <- Hl.
      apply in_map, Hx.
Qed.

Lemma supersede_drain e m :
  supersede e m
  = match OSetGen_Lookup cmp_pmat_write_buffer_entries
            (pmat_write_buffer_entries (pmem m)) (mk_wb_entry e 0) with
    | Some exist_ => drain [exist_] m
    | None => Some m
    end.
Proof. unfold supersede. destruct (OSetGen_Lookup _ _ _); reflexivity. Qed.

Lemma supersede_keeps T e x m m1 :
  sound m -> entry_ok e ->
  supersede x m = Some m1 ->
  sound m1 /\ (on_its_way T e m -> on_its_way T e m1).
Proof.
  intros Hs He H. rewrite supersede_drain in H.
  destruct (OSetGen_Lookup _ _ _) as [ex|] eqn:El.
  - split; [eapply drain_sound; eassumption|].
    apply (drain_keeps T e [ex] m m1 Hs He).
    + intros y [<-|[]]. apply wb_lookup_some in El. tauto.
    + repeat constructor. intros [].
    + exact H.
  - injection H as <-. tauto.
Qed.

(** The writeback of a cache entry keeps an entry on its way, be it the
    one written back or one of another line. *)
Lemma do_writeback_keeps T e x m m' :
  sound m -> entry_ok e -> entry_ok x ->
  x = e \/ addr x <> addr e ->
  on_its_way T e m ->
  do_writeback T x m = Some m' ->
  on_its_way T e m' /\ sound m'
  /\ (x = e -> ~ line_in_cache m' (addr e)).
Proof.
  intros Hs He Hx Hxe Hway H.
  pose proof (do_writeback_effect _ _ _ _ H) as (Hc' & _ & _).
  unfold do_writeback in H.
  set (ma := set_cache _ m) in H.
  bind_inv H. bind_inv H. clear E E0. bind_inv H. rename m0 into m0.
  assert (Hsa : sound ma).
  { destruct Hs as ((Hc & Hb & Hnc & Hnb) & Hdf). split; [|exact Hdf].
    subst ma. unfold machine_ok.
    cbn [pmem set_cache set_pmem with_cache_entries pmat_cache_entries
           pmat_write_buffer_entries].
    rewrite cache_remove_filter. repeat split; try assumption.
    - apply Forall_filter, Hc.
    - apply NoDup_map_filter, Hnc. }
  assert (Hca : pmat_cache_entries (pmem ma)
                = filter (fun y => negb (addr x =? addr y))
                    (pmat_cache_entries (pmem m))).
  { subst ma. cbn [pmem set_cache set_pmem with_cache_entries
                     pmat_cache_entries]. apply cache_remove_filter. }
  assert (Hwa : addr x <> addr e -> on_its_way T e ma).
  { intros Hne. destruct Hway as [H1|[[H2 Hn2]|(Hp & Hn3 & Hb3)]].
    - left. rewrite Hca. apply filter_In. split; [exact H1|].
      apply negb_true_iff, Z.eqb_neq, Hne.
    - right; left. split; [exact H2|].
      unfold line_in_cache. rewrite Hca. intros Hl.
      apply in_keys_filter in Hl. destruct Hl as (y & Hy & _ & Hl).
      apply Hn2. unfold line_in_cache. rewrite <- Hl. apply in_map, Hy.
    - right; right. split; [|split].
      + eapply persisted_same; [| | |exact Hp]; reflexivity.
      + unfold line_in_cache. rewrite Hca. intros Hl.
        apply in_keys_filter in Hl. destruct Hl as (y & Hy & _ & Hl).
        apply Hn3. unfold line_in_cache. rewrite <- Hl. apply in_map, Hy.
      + exact Hb3. }
  assert (Hna : x = e -> ~ line_in_cache ma (addr e)).
  { intros -> Hl. unfold line_in_cache in Hl. rewrite Hca in Hl.
    apply in_keys_filter in Hl. destruct Hl as (y & _ & Hy & Hl).
    apply negb_true_iff, Z.eqb_neq in Hy. congruence. }
  destruct (supersede_keeps T e x ma m0 Hsa He E) as (Hs0 & Hk0).
  destruct (supersede_effect _ _ _ E) as (Hb0 & Hc0 & Hr0 & Hl0 & Hf0 & _).
  bind_inv H. rename l into wb. unfold OSetGen_Insert in E0.
  destruct (OSetGen_Lookup _ _ _) eqn:El in E0; [discriminate|].
  injection E0 as <-.
  set (wb := oset_place _ _ _) in *.
  set (mb := set_write_buffer wb m0) in *.
  assert (Hsb : sound mb).
  { destruct Hs0 as ((Hc & Hb & Hnc & Hnb) & Hdf). split; [|exact Hdf].
    subst mb wb. unfold machine_ok.
    cbn [pmem set_write_buffer set_pmem with_write_buffer_entries
           pmat_cache_entries pmat_write_buffer_entries].
    repeat split; try assumption.
    - apply oset_place_Forall; [exact Hx|exact Hb].
    - apply oset_place_NoDup; [|exact Hnb].
      intros Hin. apply in_map_iff in Hin. destruct Hin as (y & Hy & Hin).
      apply (wb_lookup_none _ _ El y Hin). rewrite Hy. reflexivity. }
  assert (Hwb : on_its_way T e mb).
  { destruct Hxe as [->|Hne].
    - right; left. split.
      + subst mb wb.
        cbn [pmem set_write_buffer set_pmem with_write_buffer_entries
               pmat_write_buffer_entries].
        eapply Permutation_in;
          [apply Permutation_sym, oset_place_perm|left; reflexivity].
      + unfold line_in_cache. subst mb.
        cbn [pmem set_write_buffer set_pmem with_write_buffer_entries
               pmat_cache_entries].
        rewrite Hc0. apply (Hna eq_refl).
    - destruct (Hk0 (Hwa Hne)) as [H1|[[H2 Hn2]|(Hp & Hn3 & Hb3)]].
      + left. exact H1.
      + right; left. split; [|exact Hn2]. subst mb wb.
        cbn [pmem set_write_buffer set_pmem with_write_buffer_entries
               pmat_write_buffer_entries].
        eapply Permutation_in;
          [apply Permutation_sym, oset_place_perm|right; exact H2].
      + right; right. split; [|split].
        * eapply persisted_same; [| | |exact Hp]; reflexivity.
        * exact Hn3.
        * unfold line_in_write_buffer. subst mb wb.
          cbn [pmem set_write_buffer set_pmem with_write_buffer_entries
                 pmat_write_buffer_entries].
          intros Hl. apply in_keys_place in Hl.
          destruct Hl as [Hl|Hl]; [apply Hne; symmetry; exact Hl|].
          apply Hb3, Hl. }
  assert (Hfin : on_its_way T e m' /\ sound m').
  { destruct (_ >? _) in H.
    - destruct (select_random _ _ _) as [arr w] eqn:Es in H.
      pose proof (select_random_world (fun r => r mod 10 =? 0) wb (sys mb))
        as (Hwf & Hwd & _).
      pose proof (select_random_incl (fun r => r mod 10 =? 0) wb (sys mb))
        as Hin.
      pose proof (select_random_NoDup wb_addr (fun r => r mod 10 =? 0) wb
                    (sys mb)) as Hnd.
      rewrite Es in Hwf, Hwd, Hin, Hnd. cbn [fst snd] in *.
      assert (Hsc : sound (set_sys w mb))
        by (eapply sound_same; [| | | |exact Hsb]; auto).
      split; [|eapply drain_sound; eassumption].
      eapply (drain_keeps T e arr (set_sys w mb) m' Hsc He).
      + exact Hin.
      + apply Hnd. destruct Hsb as ((_ & _ & _ & Hnb) & _). exact Hnb.
      + exact H.
      + eapply on_its_way_same; [| | | | |exact Hwb]; auto.
    - injection H as <-. split; assumption. }
  destruct Hfin as [Hw' Hs']. split; [exact Hw'|]. split; [exact Hs'|].
  intros ->. unfold line_in_cache. rewrite Hc'. intros Hl.
  apply in_keys_filter in Hl. destruct Hl as (y & _ & Hy & Hl).
  apply negb_true_iff, Z.eqb_neq in Hy. congruence.
Qed.

Lemma writeback_all_keeps T e arr : forall m m',
  sound m -> entry_ok e -> Forall entry_ok arr ->
  Forall (fun x => x = e \/ addr x <> addr e) arr ->
  on_its_way T e m ->
  writeback_all T arr m = Some m' ->
  on_its_way T e m' /\ sound m'.
Proof.
  induction arr as [|x arr IH]; simpl; intros m m' Hs He Hok Hxe Hw H.
  - injection H as <-. split; assumption.
  - bind_inv H. inversion Hok; subst. inversion Hxe; subst.
    destruct (do_writeback_keeps T e x m m0 Hs He) as (Hw0 & Hs0 & _);
      try assumption.
    eapply IH; eassumption.
Qed.

Lemma cache_capacity_check_keeps T e m m' :
  sound m -> entry_ok e ->
  In e (pmat_cache_entries (pmem m)) ->
  cache_capacity_check T m = Some m' ->
  on_its_way T e m' /\ sound m'.
Proof.
  intros Hs He Hin H. unfold cache_capacity_check in H.
  destruct (_ >? _); [|injection H as <-; split; [left|]; assumption].
  pose proof (select_random_incl (fun r => negb (r mod 2 =? 0))
                (pmat_cache_entries (pmem m)) (sys m)) as Hincl.
  pose proof (select_random_world (fun r => negb (r mod 2 =? 0))
                (pmat_cache_entries (pmem m)) (sys m)) as (Hwf & Hwd & _).
  destruct (select_random _ _ _) as [arr w]. cbn [fst snd] in *.
  destruct Hs as [Hok Hdf]. pose proof Hok as (Hc & _ & Hnc & _).
  rewrite Forall_forall in Hc.
  eapply (writeback_all_keeps T e arr (set_sys w m) m'); try eassumption.
  - eapply sound_same; [| | | |split; eassumption]; auto.
  - apply Forall_forall. intros x Hx. apply Hc, Hincl, Hx.
  - apply Forall_forall. intros x Hx.
    destruct (Z.eq_dec (addr x) (addr e)) as [Heq|Hne]; [left|right; exact Hne].
    eapply NoDup_map_inj; [exact Hnc|apply Hincl, Hx|exact Hin|exact Heq].
  - left. exact Hin.
Qed.

Lemma maybe_simulate_crash_keeps T e m m' :
  maybe_simulate_crash m = Some m' ->
  (sound m -> sound m')
  /\ (on_its_way T e m -> on_its_way T e m')
  /\ (persisted m e -> persisted m' e)
  /\ (~ line_in_cache m (addr e) -> ~ line_in_cache m' (addr e)).
Proof.
  intros H. apply maybe_simulate_crash_frame in H.
  destruct H as (Hc & Hb & Hr & _ & _ & Hf & Hd).
  split; [|split; [|split]].
  - apply sound_same; assumption.
  - apply on_its_way_same; assumption.
  - apply persisted_same; assumption.
  - unfold line_in_cache. rewrite Hc. tauto.
Qed.

Lemma oset_update_In {E} (cmp : E -> E -> Z) t k f x :
  OSetGen_Lookup cmp t k = Some x -> In (f x) (oset_update cmp t k f).
Proof.
  unfold OSetGen_Lookup.
  induction t as [|y t IH]; simpl; intros H; [discriminate|].
  destruct (cmp k y =? 0).
  - injection H as ->. left. reflexivity.
  - right. apply IH, H.
Qed.

Lemma stored_into_holds context a size value x :
  1 <= size <= 8 -> OFFSET_CACHELINE a + size <= 64 ->
  addr x = TRIM_CACHELINE a ->
  holds_store a size value (stored_into context a size value x).
Proof.
  intros Hs Hfit Ha. split; [exact Ha|]. intros i Hi.
  pose proof (OFFSET_CACHELINE_range a) as Ho.
  assert (Hlt : (Z.to_nat (OFFSET_CACHELINE a) + i < line_bytes)%nat)
    by (unfold line_bytes, CACHELINE_SIZE; lia).
  rewrite stored_into_dirty, stored_into_byte by assumption.
  destruct (Nat.leb_spec (Z.to_nat (OFFSET_CACHELINE a))
              (Z.to_nat (OFFSET_CACHELINE a) + i)); [|lia].
  destruct (Nat.ltb_spec (Z.to_nat (OFFSET_CACHELINE a) + i)
              (Z.to_nat (OFFSET_CACHELINE a) + Z.to_nat size)); [|lia].
  cbn [andb]. rewrite orb_true_r. split; [reflexivity|].
  unfold value_byte. f_equal. lia.
Qed.

(** After a store to a tracked address that stays in its line, the entry
    that holds the stored bytes is on its way to the file. *)
Lemma trace_pmem_store_on_its_way T context a size value m m' :
  sound m -> word a -> 1 <= size <= 8 ->
  OFFSET_CACHELINE a + size <= 64 ->
  is_pmem_access a size m = Some true ->
  trace_pmem_store T context a size value m = Some m' ->
  exists e,
    holds_store a size value e /\ entry_ok e
    /\ on_its_way T e m' /\ sound m'.
Proof.
  intros Hs Ha Hsz Hfit Ht H. unfold trace_pmem_store in H.
  rewrite Ht in H. cbn [negb] in H.
  destruct (warn_if_split_frame a size m) as (Hp & _ & Hwf & Hwd & _).
  set (mw := warn_if_split a size m) in *. clearbody mw.
  rewrite Hp in H.
  destruct Hs as [Hok Hdf]. pose proof Hok as (Hc & Hb & Hnc & Hnb).
  destruct (OSetGen_Lookup _ _ _) as [x|] eqn:El.
  - injection H as <-.
    destruct (note_spill_frame (TRIM_CACHELINE a) (store_spill a size value)
                (set_cache
                   (oset_update cmp_pmat_cache_entries
                      (pmat_cache_entries (pmem m)) (store_key a)
                      (stored_into context a size value)) mw))
      as (Hp2 & _ & Hf2 & Hd2 & _).
    pose proof (cache_lookup_some _ _ _ El) as [Hin Hk].
    change (addr (store_key a)) with (TRIM_CACHELINE a) in Hk.
    rewrite Forall_forall in Hc.
    exists (stored_into context a size value x).
    split; [apply stored_into_holds; assumption|].
    split; [apply stored_into_ok; [assumption|apply Hc, Hin]|].
    split.
    + left. rewrite Hp2.
      cbn [pmem set_cache set_pmem with_cache_entries pmat_cache_entries].
      apply oset_update_In, El.
    + split.
      * unfold machine_ok. rewrite Hp2.
        cbn [pmem set_cache set_pmem with_cache_entries pmat_cache_entries
               pmat_write_buffer_entries].
        rewrite Hp. repeat split; try assumption.
        -- apply oset_update_Forall; [|apply Forall_forall, Hc].
           intros y Hy. apply stored_into_ok; assumption.
        -- rewrite oset_update_keys; [exact Hnc|reflexivity].
      * unfold distinct_files. rewrite Hp2, Hd2.
        cbn [pmem sys set_cache set_pmem with_cache_entries
               pmat_registered_files].
        rewrite Hp, Hwd. exact Hdf.
  - destruct (note_spill_frame (TRIM_CACHELINE a) (store_spill a size value) mw)
      as (Hp2 & _ & Hf2 & Hd2 & _).
    set (ms := note_spill _ _ mw) in *. clearbody ms.
    rewrite Hp2, Hp in H. unfold OSetGen_Insert in H.
    rewrite (cache_lookup_ext _ (fresh_entry context a size value)
               (store_key a) eq_refl), El in H.
    bind_inv H. rename m0 into m2.
    set (e := fresh_entry context a size value) in *.
    set (m1 := set_cache _ ms) in E.
    assert (He : entry_ok e) by (apply fresh_entry_ok; assumption).
    assert (Hs1 : sound m1).
    { split.
      - unfold machine_ok. subst m1.
        cbn [pmem set_cache set_pmem with_cache_entries pmat_cache_entries
               pmat_write_buffer_entries].
        rewrite Hp2, Hp. repeat split; try assumption.
        + apply oset_place_Forall; assumption.
        + apply oset_place_NoDup; [|exact Hnc].
          intros Hin. apply in_map_iff in Hin. destruct Hin as (y & Hy & Hin).
          apply (cache_lookup_none _ _ El y Hin). rewrite Hy. reflexivity.
      - unfold distinct_files. subst m1.
        cbn [pmem sys set_cache set_pmem with_cache_entries
               pmat_registered_files].
        rewrite Hp2, Hd2, Hp, Hwd. exact Hdf. }
    assert (Hin1 : In e (pmat_cache_entries (pmem m1))).
    { subst m1. cbn [pmem set_cache set_pmem with_cache_entries
                       pmat_cache_entries].
      eapply Permutation_in;
        [apply Permutation_sym, oset_place_perm|left; reflexivity]. }
    destruct (cache_capacity_check_keeps T e m1 m2 Hs1 He Hin1 E)
      as (Hw2 & Hs2).
    destruct (maybe_simulate_crash_keeps T e m2 m' H) as (Hk1 & Hk2 & _).
    exists e. split; [|split; [exact He|split; auto]].
    subst e. unfold fresh_entry. apply stored_into_holds; try assumption.
    reflexivity.
Qed.

(** A flush of its line by [T] takes an entry that is on its way out of
    the cache. *)
Lemma do_flush_keeps T e base size m m' :
  sound m -> entry_ok e -> addr e = TRIM_CACHELINE base ->
  on_its_way T e m ->
  do_flush T base size m = Some m' ->
  on_its_way T e m' /\ sound m' /\ ~ line_in_cache m' (addr e).
Proof.
  intros Hs He Ha Hw H. unfold do_flush in H.
  pose proof Hs as ((Hc & _ & Hnc & _) & _).
  rewrite Forall_forall in Hc.
  destruct (OSetGen_Lookup _ _ _) as [x|] eqn:El.
  - pose proof (cache_lookup_some _ _ _ El) as [Hin Hk].
    change (addr (store_key base)) with (TRIM_CACHELINE base) in Hk.
    assert (Hxe : x = e).
    { destruct Hw as [H1|[[_ Hn]|(_ & Hn & _)]].
      - eapply NoDup_map_inj; [exact Hnc|exact Hin|exact H1|congruence].
      - exfalso. apply Hn. unfold line_in_cache. rewrite Ha, <- Hk.
        apply in_map, Hin.
      - exfalso. apply Hn. unfold line_in_cache. rewrite Ha, <- Hk.
        apply in_map, Hin. }
    destruct (do_writeback_keeps T e x m m' Hs He (Hc x Hin)
                (or_introl Hxe) Hw H) as (Hw' & Hs' & Hn').
    split; [exact Hw'|]. split; [exact Hs'|]. apply Hn', Hxe.
  - injection H as <-. split; [exact Hw|]. split; [exact Hs|].
    intros Hl. unfold line_in_cache in Hl. apply in_map_iff in Hl.
    destruct Hl as (y & Hy & Hin).
    apply (cache_lookup_none _ _ El y Hin).
    change (addr (store_key base)) with (TRIM_CACHELINE base). congruence.
Qed.

(** The drain of a fence by [T] puts an entry that is on its way and out
    of the cache into the file. *)
Lemma _do_fence_persists T e m m' :
  sound m -> entry_ok e ->
  on_its_way T e m -> ~ line_in_cache m (addr e) ->
  _do_fence T m = Some m' ->
  persisted m' e /\ sound m'.
Proof.
  intros Hs He Hw Hn H. unfold _do_fence in H.
  assert (Hnot : ~ In e (pmat_cache_entries (pmem m))).
  { intros Hin. apply Hn. apply in_map, Hin. }
  destruct (_ =? 0) eqn:Hz.
  - injection H as <-. split; [|exact Hs].
    apply Z.eqb_eq in Hz. unfold OSetGen_Size in Hz.
    destruct Hw as [H1|[[H2 _]|(Hp & _)]]; [contradiction| |exact Hp].
    destruct (pmat_write_buffer_entries (pmem m)); [destruct H2|].
    simpl in Hz. lia.
  - split; [|eapply drain_sound; eassumption].
    pose proof Hs as ((_ & _ & _ & Hnb) & _).
    destruct (drain_frame _ _ _ H) as (Hb' & Hc' & _).
    assert (Hw' : on_its_way T e m').
    { eapply (drain_keeps T e _ m m' Hs He); [| |exact H|exact Hw].
      - intros y Hy. apply filter_In in Hy. tauto.
      - apply NoDup_map_filter, Hnb. }
    destruct Hw' as [H1|[[H2 _]|(Hp & _)]]; [| |exact Hp].
    + exfalso. apply Hnot. rewrite <- Hc'. exact H1.
    + exfalso. rewrite Hb', undrained_own_entries in H2 by exact Hnb.
      apply filter_In in H2. destruct H2 as [_ H2].
      cbn [tid] in H2. rewrite Z.eqb_refl in H2. discriminate.
Qed.

Lemma holds_store_persisted a size value e m :
  holds_store a size value e -> OFFSET_CACHELINE a + size <= 64 ->
  persisted m e ->
  forall i, (i < Z.to_nat size)%nat ->
    backing_byte m (store_key a) (Z.to_nat (OFFSET_CACHELINE a) + i)
    = Some (value_byte value size i).
Proof.
  intros [Ha Hb] Hfit Hp i Hi.
  pose proof (OFFSET_CACHELINE_range a) as Ho.
  destruct (Hb i Hi) as [Hd Hv].
  assert (Hlt : (Z.to_nat (OFFSET_CACHELINE a) + i < line_bytes)%nat)
    by (unfold line_bytes, CACHELINE_SIZE; lia).
  specialize (Hp _ Hlt Hd). rewrite Hv in Hp.
  unfold backing_byte in *. cbn [addr store_key]. rewrite <- Ha. exact Hp.
Qed.

(** X5.  Store, flush, fence.  In a state the tool reaches and in which no
    backing file serves two regions, when a thread stores 1 to 8 bytes at
    a tracked address without leaving the cache line, then flushes the
    line and then fences, and the tool aborts on none of the three, the
    stored bytes are in the backing file of the region at the offset of the
    address, whatever evictions and crash checks happened on the way. *)
Theorem store_flush_fence_persists T context a size value m m' :
  reached m -> distinct_files m ->
  word a -> 1 <= size <= 8 ->
  OFFSET_CACHELINE a + size <= 64 ->
  is_pmem_access a size m = Some true ->
  run [Store T context a size value; Flush T a; Fence T] m = Some m' ->
  forall i, (i < Z.to_nat size)%nat ->
    backing_byte m' (store_key a) (Z.to_nat (OFFSET_CACHELINE a) + i)
    = Some (value_byte value size i).
Proof.
  intros Hr Hdf Ha Hsz Hfit Ht H.
  assert (Hs : sound m) by (split; [apply reached_ok, Hr|exact Hdf]).
  cbn [run step] in H. bind_inv H. rename m0 into m1.
  bind_inv H. rename m0 into m2. bind_inv H. rename m0 into m3.
  injection H as <-.
  destruct (trace_pmem_store_on_its_way _ _ _ _ _ _ _ Hs Ha Hsz Hfit Ht E)
    as (e & Hh & He & Hw1 & Hs1).
  unfold trace_pmem_flush in E0.
  destruct (do_flush T a PMAT_CACHELINE_SIZE m1) as [m1f|] eqn:Ef;
    [|discriminate].
  destruct (do_flush_keeps T e a PMAT_CACHELINE_SIZE m1 m1f Hs1 He
              (proj1 Hh) Hw1 Ef) as (Hwf & Hsf & Hnf).
  destruct (maybe_simulate_crash_keeps T e _ _ E0) as (K1 & K2 & _ & K4).
  unfold do_fence in E1.
  destruct (maybe_simulate_crash m2) as [ma|] eqn:Ea; [|discriminate].
  destruct (_do_fence T ma) as [mb|] eqn:Eb; [|discriminate].
  destruct (maybe_simulate_crash_keeps T e _ _ Ea) as (A1 & A2 & _ & A4).
  destruct (_do_fence_persists T e ma mb (A1 (K1 Hsf)) He
              (A2 (K2 Hwf)) (A4 (K4 Hnf)) Eb) as (Hp & _).
  destruct (maybe_simulate_crash_keeps T e _ _ E1) as (_ & _ & B3 & _).
  apply (holds_store_persisted a size value e); auto.
Qed.

(** X6.  Store, then a flush that fences ([CLFLUSH]).  Under the same
    conditions, after the store and the combined flush and fence of its
    line by the same thread the stored bytes are in the backing file. *)
Theorem store_flush_with_fence_persists T context a size value m m' :
  reached m -> distinct_files m ->
  word a -> 1 <= size <= 8 ->
  OFFSET_CACHELINE a + size <= 64 ->
  is_pmem_access a size m = Some true ->
  run [Store T context a size value; FlushFence T a] m = Some m' ->
  forall i, (i < Z.to_nat size)%nat ->
    backing_byte m' (store_key a) (Z.to_nat (OFFSET_CACHELINE a) + i)
    = Some (value_byte value size i).
Proof.
  intros Hr Hdf Ha Hsz Hfit Ht H.
  assert (Hs : sound m) by (split; [apply reached_ok, Hr|exact Hdf]).
  cbn [run step] in H. bind_inv H. rename m0 into m1.
  bind_inv H. rename m0 into m2. injection H as <-.
  destruct (trace_pmem_store_on_its_way _ _ _ _ _ _ _ Hs Ha Hsz Hfit Ht E)
    as (e & Hh & He & Hw1 & Hs1).
  unfold trace_pmem_flush_fence in E0.
  destruct (do_flush T a PMAT_CACHELINE_SIZE m1) as [m1f|] eqn:Ef;
    [|discriminate].
  destruct (_do_fence T m1f) as [mb|] eqn:Eb; [|discriminate].
  destruct (do_flush_keeps T e a PMAT_CACHELINE_SIZE m1 m1f Hs1 He
              (proj1 Hh) Hw1 Ef) as (Hwf & Hsf & Hnf).
  destruct (_do_fence_persists T e m1f mb Hsf He Hwf Hnf Eb) as (Hp & _).
  destruct (maybe_simulate_crash_keeps T e _ _ E0) as (_ & _ & B3 & _).
  apply (holds_store_persisted a size value e); auto.
Qed.

(** ** What does not reach the file *)

(** X7.  While the cache has room for one more entry, a store changes no
    backing file and leaves the write buffer alone: what it writes is in
    the cache only. *)
Theorem store_leaves_files T context a size value m m' :
  OSetGen_Size (pmat_cache_entries (pmem m)) < NUM_CACHE_ENTRIES (lim m) ->
  trace_pmem_store T context a size value m = Some m' ->
  w_files (sys m') = w_files (sys m)
  /\ pmat_write_buffer_entries (pmem m')
     = pmat_write_buffer_entries (pmem m).
Proof.
  intros Hroom H. unfold trace_pmem_store in H.
  bind_inv H. destruct b; cbn [negb] in H; [|injection H as <-; tauto].
  destruct (warn_if_split_frame a size m) as (Hp & Hl & Hwf & _).
  set (mw := warn_if_split a size m) in *. clearbody mw.
  rewrite Hp in H.
  destruct (OSetGen_Lookup _ _ _) as [x|] eqn:El.
  - injection H as <-.
    destruct (note_spill_frame (TRIM_CACHELINE a) (store_spill a size value)
                (set_cache
                   (oset_update cmp_pmat_cache_entries
                      (pmat_cache_entries (pmem m)) (store_key a)
                      (stored_into context a size value)) mw))
      as (Hp2 & _ & Hf2 & _).
    rewrite Hp2, Hf2.
    cbn [pmem sys set_cache set_pmem with_cache_entries
           pmat_write_buffer_entries].
    rewrite Hp, Hwf. tauto.
  - destruct (note_spill_frame (TRIM_CACHELINE a) (store_spill a size value) mw)
      as (Hp2 & Hl2 & Hf2 & _).
    set (ms := note_spill _ _ mw) in *. clearbody ms.
    rewrite Hp2, Hp in H. unfold OSetGen_Insert in H.
    rewrite (cache_lookup_ext _ (fresh_entry context a size value)
               (store_key a) eq_refl), El in H.
    bind_inv H. rename m0 into m2.
    unfold cache_capacity_check in E0.
    cbn [pmem lim set_cache set_pmem with_cache_entries pmat_cache_entries]
      in E0.
    assert (Hfit : (OSetGen_Size
                      (oset_place cmp_pmat_cache_entries
                         (fresh_entry context a size value)
                         (pmat_cache_entries (pmem m)))
                    >? NUM_CACHE_ENTRIES (lim ms)) = false).
    { rewrite Hl2, Hl. unfold OSetGen_Size in *. rewrite oset_place_length.
      destruct (Z.gtb_spec
                  (Z.of_nat (S (List.length (pmat_cache_entries (pmem m)))))
                  (NUM_CACHE_ENTRIES (lim m))); [lia|reflexivity]. }
    rewrite Hfit in E0. injection E0 as <-.
    apply maybe_simulate_crash_frame in H.
    destruct H as (_ & Hb & _ & _ & _ & Hf & _).
    rewrite Hf, Hb.
    cbn [pmem sys set_cache set_pmem with_cache_entries
           pmat_write_buffer_entries].
    rewrite Hp2, Hf2, Hp, Hwf. tauto.
Qed.

(** X8.  While the write buffer has room for one more entry and holds
    nothing for the line, a flush of a cached line by thread [T] moves the
    entry from the cache into the write buffer under [T] and changes no
    backing file: the line is not yet persistent. *)
Theorem flush_moves_line_to_write_buffer T a e m m' :
  OSetGen_Lookup cmp_pmat_cache_entries (pmat_cache_entries (pmem m))
    (store_key a) = Some e ->
  ~ line_in_write_buffer m (TRIM_CACHELINE a) ->
  OSetGen_Size (pmat_write_buffer_entries (pmem m))
  < NUM_WB_ENTRIES (lim m) ->
  trace_pmem_flush T a m = Some m' ->
  pmat_write_buffer_entries (pmem m')
  = oset_place cmp_pmat_write_buffer_entries (mk_wb_entry e T)
      (pmat_write_buffer_entries (pmem m))
  /\ pmat_cache_entries (pmem m')
     = filter (fun x => negb (TRIM_CACHELINE a =? addr x))
         (pmat_cache_entries (pmem m))
  /\ w_files (sys m') = w_files (sys m).
Proof.
  intros El Hnb Hroom H. unfold trace_pmem_flush, do_flush in H.
  rewrite El in H.
  destruct (do_writeback T e m) as [m1|] eqn:Ew; [|discriminate].
  apply maybe_simulate_crash_frame in H.
  destruct H as (Hc & Hb & _ & _ & _ & Hf & _).
  rewrite Hc, Hb, Hf. clear Hc Hb Hf m'.
  pose proof (cache_lookup_some _ _ _ El) as [_ Hk].
  change (addr (store_key a)) with (TRIM_CACHELINE a) in Hk.
  pose proof (do_writeback_effect _ _ _ _ Ew) as (Hc' & _).
  rewrite Hc', Hk.
  assert (Hsup : OSetGen_Lookup cmp_pmat_write_buffer_entries
                   (pmat_write_buffer_entries (pmem m)) (mk_wb_entry e 0)
                 = None).
  { unfold OSetGen_Lookup. destruct (find _ _) as [y|] eqn:Ef; [|reflexivity].
    exfalso. apply find_some in Ef. destruct Ef as [Hin Hy].
    unfold cmp_pmat_write_buffer_entries in Hy. rewrite zcmp_eq in Hy.
    apply Z.eqb_eq in Hy. cbn [entry] in Hy.
    apply Hnb. unfold line_in_write_buffer.
    rewrite <- Hk, Hy. change (addr (entry y)) with (wb_addr y).
    apply in_map, Hin. }
  unfold do_writeback in Ew.
  bind_inv Ew. bind_inv Ew. clear E E0.
  unfold supersede in Ew.
  cbn [pmem set_cache set_pmem with_cache_entries
         pmat_write_buffer_entries] in Ew.
  rewrite Hsup in Ew. unfold OSetGen_Insert in Ew.
  cbn [pmem set_cache set_pmem with_cache_entries
         pmat_write_buffer_entries] in Ew.
  assert (Hins : OSetGen_Lookup cmp_pmat_write_buffer_entries
                   (pmat_write_buffer_entries (pmem m)) (mk_wb_entry e T)
                 = None) by exact Hsup.
  rewrite Hins in Ew.
  cbn [lim set_write_buffer set_cache set_pmem] in Ew.
  assert (Hfit : (OSetGen_Size
                    (oset_place cmp_pmat_write_buffer_entries
                       (mk_wb_entry e T)
                       (pmat_write_buffer_entries (pmem m)))
                  >? NUM_WB_ENTRIES (lim m)) = false).
  { unfold OSetGen_Size in *. rewrite oset_place_length.
    destruct (Z.gtb_spec
                (Z.of_nat (S (List.length
                                (pmat_write_buffer_entries (pmem m)))))
                (NUM_WB_ENTRIES (lim m))); [lia|reflexivity]. }
  rewrite Hfit in Ew. injection Ew as <-. repeat split.
Qed.

(** ** Regions that come and go *)

Lemma lookup_file_none_inv a t :
  OSetGen_LookupWithCmp t (addr_key a) find_file_by_addr = Some None ->
  forall y, In y t ->
    exists c, find_file_by_addr (addr_key a) y = Some c /\ c <> 0.
Proof.
  induction t as [|x t IH]; cbn [OSetGen_LookupWithCmp]; intros H y Hy.
  - destruct Hy.
  - destruct (find_file_by_addr (addr_key a) x) as [c|] eqn:Ec;
      [|discriminate].
    destruct (c =? 0) eqn:Ez; [discriminate|].
    destruct Hy as [<-|Hy].
    + exists c. split; [exact Ec|]. apply Z.eqb_neq, Ez.
    + apply IH; assumption.
Qed.

Lemma lookup_in_place a r t :
  find_file_by_addr (addr_key a) r = Some 0 ->
  (forall y, In y t ->
     exists c, find_file_by_addr (addr_key a) y = Some c /\ c <> 0) ->
  OSetGen_LookupWithCmp (oset_place cmp_pmat_registered_files1 r t)
    (addr_key a) find_file_by_addr = Some (Some r).
Proof.
  intros Hr. induction t as [|x t IH]; intros Ht; cbn [oset_place].
  - cbn [OSetGen_LookupWithCmp]. rewrite Hr. reflexivity.
  - destruct (_ <=? 0).
    + cbn [OSetGen_LookupWithCmp]. rewrite Hr. reflexivity.
    + cbn [OSetGen_LookupWithCmp].
      destruct (Ht x (or_introl eq_refl)) as (c & Hc & Hne).
      rewrite Hc. apply Z.eqb_neq in Hne. rewrite Hne.
      apply IH. intros y Hy. apply Ht. right. exact Hy.
Qed.

Lemma filter_oset_place {E} (cmp : E -> E -> Z) (f : E -> bool) e t :
  f e = false -> (forall y, In y t -> f y = true) ->
  filter f (oset_place cmp e t) = t.
Proof.
  intros He. induction t as [|x t IH]; intros Ht; cbn [oset_place].
  - simpl. rewrite He. reflexivity.
  - destruct (cmp e x <=? 0).
    + change (filter f (e :: x :: t)) with
        (if f e then e :: filter f (x :: t) else filter f (x :: t)).
      rewrite He. apply filter_id. exact Ht.
    + cbn [filter]. rewrite (Ht x (or_introl eq_refl)). f_equal.
      apply IH. intros y Hy. apply Ht. right. exact Hy.
Qed.

(** X9.  Registration followed by unregistration by address.  When a
    region of at least one byte is registered and the request to
    unregister then names any address from its base to the first address
    past its end, for which no earlier region is found, the table of
    regions is again what it was before the registration.  The request
    touches nothing of the operating system: the backing file stays as the
    registration left it, and its descriptor stays open. *)
Theorem register_then_unregister T name a size x m m1 :
  size <> 0 ->
  a <= x <= wrap64 (a + size) ->
  lookup_file x m = Some None ->
  pmat_handle_client_request T (PMC_PMAT_REGISTER (Some name) a size) m
  = Some (true, m1) ->
  exists m2,
    pmat_handle_client_request T (PMC_PMAT_UNREGISTER_BY_ADDR x) m1
    = Some (true, m2)
    /\ pmat_registered_files (pmem m2) = pmat_registered_files (pmem m)
    /\ sys m2 = sys m1.
Proof.
  intros Hs Hx Hl H. apply register_table in H.
  destruct H as (descr & Hi & _).
  unfold OSetGen_Insert in Hi.
  destruct (OSetGen_Lookup _ _ _) eqn:Eb in Hi; [discriminate|].
  injection Hi as Hi.
  set (r := mk_registered_file name a size descr) in *.
  assert (Hr : find_file_by_addr (addr_key x) r = Some 0).
  { rewrite find_file_by_addr_query by exact Hs. cbn [rf_addr rf_size r].
    destruct (Z.ltb_spec x a); [lia|].
    destruct (Z.gtb_spec x (wrap64 (a + size))); [lia|reflexivity]. }
  assert (Hfound : lookup_file x m1 = Some (Some r)).
  { unfold lookup_file. rewrite <- Hi. apply lookup_in_place; [exact Hr|].
    apply lookup_file_none_inv, Hl. }
  unfold pmat_handle_client_request. rewrite Hfound.
  assert (Hpos : (OSetGen_Size (pmat_registered_files (pmem m1)) >? 0) = true).
  { rewrite <- Hi. unfold OSetGen_Size. rewrite oset_place_length.
    apply Z.gtb_lt. lia. }
  rewrite Hpos. eexists. split; [reflexivity|].
  cbn [unregister set_registered_files pmem sys set_pmem
         with_registered_files pmat_registered_files].
  split; [|reflexivity].
  rewrite <- Hi. unfold OSetGen_Remove. apply filter_oset_place.
  - unfold cmp_pmat_registered_files1. rewrite zcmp_eq, Z.eqb_refl.
    reflexivity.
  - intros y Hy. unfold OSetGen_Lookup in Eb.
    pose proof (find_none _ _ Eb y Hy) as Hn. cbn beta in Hn.
    rewrite Hn. reflexivity.
Qed.

Lemma drain_aborts arr : forall m w,
  In w arr -> lookup_file (wb_addr w) m = Some None -> drain arr m = None.
Proof.
  induction arr as [|y arr IH]; intros m w Hin Hl; [destruct Hin|].
  cbn [drain]. destruct (write_to_file y m) as [m1|] eqn:Ew; [|reflexivity].
  destruct Hin as [->|Hin].
  - unfold write_to_file in Ew. fold (wb_addr w) in Ew. rewrite Hl in Ew.
    discriminate.
  - apply (IH _ w Hin).
    destruct (write_to_file_frame _ _ _ Ew) as (Hp & _).
    unfold lookup_file in *.
    cbn [pmem set_write_buffer set_pmem with_write_buffer_entries
           pmat_registered_files].
    rewrite Hp. exact Hl.
Qed.

(** X10.  Unregistering a region does not discard the lines of it that are
    pending: the cache and the write buffer are as before.  Once no region
    is found for such a line, flushing it from the cache aborts the tool,
    and so does a fence by the thread under which it waits in the write
    buffer. *)
Theorem unregister_orphans_pending_lines T x a b m m1 :
  pmat_handle_client_request T (PMC_PMAT_UNREGISTER_BY_ADDR x) m
  = Some (b, m1) ->
  lookup_file (TRIM_CACHELINE a) m1 = Some None ->
  pmat_cache_entries (pmem m1) = pmat_cache_entries (pmem m)
  /\ pmat_write_buffer_entries (pmem m1)
     = pmat_write_buffer_entries (pmem m)
  /\ (line_in_cache m (TRIM_CACHELINE a) ->
      forall T', trace_pmem_flush T' a m1 = None)
  /\ (forall w, In w (pmat_write_buffer_entries (pmem m)) ->
                wb_addr w = TRIM_CACHELINE a ->
                do_fence (tid w) m1 = None).
Proof.
  intros H Hl.
  assert (Hsame : pmat_cache_entries (pmem m1) = pmat_cache_entries (pmem m)
                  /\ pmat_write_buffer_entries (pmem m1)
                     = pmat_write_buffer_entries (pmem m)).
  { unfold pmat_handle_client_request in H.
    destruct (_ >? 0); [|injection H as <- <-; tauto].
    bind_inv H. injection H as <- <-. destruct o; split; reflexivity. }
  destruct Hsame as [Hc Hb]. split; [exact Hc|]. split; [exact Hb|]. split.
  - intros Hin T'. unfold trace_pmem_flush, do_flush.
    rewrite Hc.
    destruct (OSetGen_Lookup _ _ _) as [e|] eqn:El.
    + pose proof (cache_lookup_some _ _ _ El) as [_ Hk].
      change (addr (store_key a)) with (TRIM_CACHELINE a) in Hk.
      unfold do_writeback.
      assert (Hl' : lookup_file (addr e)
                      (set_cache
                         (OSetGen_Remove cmp_pmat_cache_entries
                            (pmat_cache_entries (pmem m1)) e) m1)
                    = Some None) by (rewrite Hk; exact Hl).
      rewrite Hl'. reflexivity.
    + exfalso. unfold line_in_cache in Hin. apply in_map_iff in Hin.
      destruct Hin as (y & Hy & Hin).
      apply (cache_lookup_none _ _ El y Hin). exact Hy.
  - intros w Hw Hk. unfold do_fence.
    destruct (maybe_simulate_crash m1) as [ma|] eqn:Ea; [|reflexivity].
    apply maybe_simulate_crash_frame in Ea.
    destruct Ea as (_ & Hb1 & Hr1 & _).
    assert (Hf : _do_fence (tid w) ma = None); [|rewrite Hf; reflexivity].
    unfold _do_fence. rewrite Hb1, Hb.
    rewrite OSetGen_Size_nonempty
      by (intros Hnil; rewrite Hnil in Hw; destruct Hw).
    apply (drain_aborts _ ma w).
    + apply filter_In. split; [exact Hw|apply Z.eqb_refl].
    + unfold lookup_file in *. rewrite Hr1, Hk. exact Hl.
Qed.

(** X11.  A store of exactly the range of a transient request that the
    tool has answered is ignored: whether the request recorded the range,
    found it recorded or dropped it because its address lies in no region,
    the store changes nothing. *)
Theorem transient_range_is_ignored T a size b m m1 :
  pmat_handle_client_request T (PMC_PMAT_TRANSIENT a size) m = Some (b, m1) ->
  forall T' context value,
    trace_pmem_store T' context a size value m1 = Some m1.
Proof.
  intros H T' context value.
  assert (Hacc : is_pmem_access a size m1 = Some false);
    [|unfold trace_pmem_store; rewrite Hacc; reflexivity].
  unfold pmat_handle_client_request in H. unfold is_pmem_access.
  destruct (pmat_registered_files (pmem m)) as [|r0 t] eqn:Er.
  - cbn in H.
    destruct (OSetGen_Contains _ _ _);
      [injection H as <- <-; rewrite Er; reflexivity|].
    bind_inv H. injection H as <- <-.
    cbn [pmem set_transient_addresses set_pmem with_transient_addresses
           pmat_registered_files]. rewrite Er. reflexivity.
  - assert (Hpos : (OSetGen_Size (r0 :: t) >? 0) = true).
    { unfold OSetGen_Size. apply Z.gtb_lt. simpl List.length. lia. }
    assert (Hnz : (OSetGen_Size (r0 :: t) =? 0) = false).
    { unfold OSetGen_Size. apply Z.eqb_neq. simpl List.length. lia. }
    rewrite Hpos in H.
    destruct (lookup_file a m) as [found|] eqn:El; [|discriminate].
    destruct found as [r|]; cbn [negb] in H.
    + assert (Hin : forall m2,
                 pmat_registered_files (pmem m2) = r0 :: t ->
                 OSetGen_Contains cmp_pmat_transient_entries
                   (pmat_transient_addresses (pmem m2))
                   (mk_transient_entry a size) = true ->
                 (if OSetGen_Size (pmat_registered_files (pmem m2)) =? 0
                  then Some false
                  else
                    ' found <- lookup_file a m2 ;;
                    match found with
                    | Some _ =>
                        if OSetGen_Size (pmat_transient_addresses (pmem m2))
                           =? 0
                        then Some true
                        else
                          match OSetGen_Lookup cmp_pmat_transient_entries
                                  (pmat_transient_addresses (pmem m2))
                                  (mk_transient_entry a size) with
                          | Some _ => Some false
                          | None => Some true
                          end
                    | None => Some false
                    end) = Some false).
      { intros m2 Hr2 Hc2. rewrite Hr2, Hnz.
        assert (Hl2 : lookup_file a m2 = Some (Some r)).
        { unfold lookup_file in *. rewrite Hr2, <- Er. exact El. }
        rewrite Hl2. unfold OSetGen_Contains in Hc2.
        destruct (OSetGen_Lookup _ _ _) eqn:Et; [|discriminate].
        destruct (pmat_transient_addresses (pmem m2)); [discriminate Et|].
        reflexivity. }
      destruct (OSetGen_Contains _ _ _) eqn:Hc.
      * injection H as <- <-. apply Hin; assumption.
      * bind_inv H. injection H as <- <-. unfold OSetGen_Insert in E.
        destruct (OSetGen_Lookup _ _ _); [discriminate|].
        injection E as <-. apply Hin.
        -- cbn [pmem set_transient_addresses set_pmem
                  with_transient_addresses pmat_registered_files].
           exact Er.
        -- cbn [pmem set_transient_addresses set_pmem
                  with_transient_addresses pmat_transient_addresses].
           apply oset_place_contains, transient_cmp_refl.
    + injection H as <- <-. rewrite Er, Hnz, El. reflexivity.
Qed.

(** ** When no crash is simulated *)

Lemma crash_untouched_refl m : crash_untouched m m.
Proof. split; reflexivity. Qed.

Lemma crash_untouched_trans m1 m2 m3 :
  crash_untouched m1 m2 -> crash_untouched m2 m3 -> crash_untouched m1 m3.
Proof. intros [A1 A2] [B1 B2]. split; congruence. Qed.

Lemma crash_untouched_by_pmem m m' :
  verification_state m' = verification_state m ->
  w_trace (sys m') = w_trace (sys m) ->
  crash_untouched m m'.
Proof. intros H1 H2. split; [exact H1|rewrite H2; reflexivity]. Qed.

Lemma drain_untouched arr : forall m m',
  drain arr m = Some m' ->
  crash_untouched m m'
  /\ pmat_should_verify (pmem m') = pmat_should_verify (pmem m).
Proof.
  induction arr as [|w arr IH]; cbn [drain]; intros m m' H.
  - injection H as <-. split; [apply crash_untouched_refl|reflexivity].
  - bind_inv H. destruct (write_to_file_frame _ _ _ E) as (Hp & _ & _ & Ht & _).
    apply IH in H. destruct H as [[H1 H2] H3].
    unfold verification_state in *.
    cbn [pmem sys set_write_buffer set_pmem with_write_buffer_entries
           pmat_num_verifications pmat_num_bad_verifications pmat_verifier
           pmat_min_verification_time pmat_max_verification_time
           pmat_mean_verification_time pmat_ssd_verification_time
           pmat_should_verify] in *.
    rewrite Hp in *. rewrite Ht in *. repeat split; assumption.
Qed.

(** Two steps that leave the crash simulator alone, the second of them run
    in a state that is still quiet. *)
Lemma untouched_then m m1 m2 :
  crash_untouched m m1
  /\ pmat_should_verify (pmem m1) = pmat_should_verify (pmem m) ->
  crash_untouched m1 m2
  /\ pmat_should_verify (pmem m2) = pmat_should_verify (pmem m1) ->
  crash_untouched m m2
  /\ pmat_should_verify (pmem m2) = pmat_should_verify (pmem m).
Proof.
  intros [A1 A2] [B1 B2].
  split; [eapply crash_untouched_trans; eassumption|congruence].
Qed.

Lemma do_writeback_untouched T e m m' :
  do_writeback T e m = Some m' ->
  crash_untouched m m'
  /\ pmat_should_verify (pmem m') = pmat_should_verify (pmem m).
Proof.
  unfold do_writeback. intros H.
  set (ma := set_cache _ m) in H.
  assert (Ha : crash_untouched m ma
               /\ pmat_should_verify (pmem ma) = pmat_should_verify (pmem m))
    by (split; [split|]; reflexivity).
  bind_inv H. bind_inv H. clear E E0. bind_inv H. rename m0 into m0.
  rewrite supersede_drain in E.
  assert (H0 : crash_untouched m m0
               /\ pmat_should_verify (pmem m0) = pmat_should_verify (pmem m)).
  { apply (untouched_then _ _ _ Ha).
    destruct (OSetGen_Lookup _ _ _).
    - apply drain_untouched in E. exact E.
    - injection E as <-. split; [apply crash_untouched_refl|reflexivity]. }
  bind_inv H. rename l into wb.
  assert (H1 : crash_untouched m (set_write_buffer wb m0)
               /\ pmat_should_verify (pmem (set_write_buffer wb m0))
                  = pmat_should_verify (pmem m)) by exact H0.
  destruct (_ >? _) in H.
  - destruct (select_random _ _ _) as [arr w] eqn:Es in H.
    pose proof (select_random_world (fun r => r mod 10 =? 0) wb
                  (sys (set_write_buffer wb m0))) as (_ & _ & Hwt).
    rewrite Es in Hwt. cbn [snd] in Hwt.
    apply drain_untouched in H. destruct H as [[A1 A2] A3].
    destruct H1 as [[B1 B2] B3].
    cbn [sys set_sys] in A2. rewrite Hwt in A2.
    split; [split|]; [rewrite A1; exact B1|rewrite A2; exact B2|
                      rewrite A3; exact B3].
  - injection H as <-. exact H1.
Qed.

Lemma writeback_all_untouched T arr : forall m m',
  writeback_all T arr m = Some m' ->
  crash_untouched m m'
  /\ pmat_should_verify (pmem m') = pmat_should_verify (pmem m).
Proof.
  induction arr as [|e arr IH]; cbn [writeback_all]; intros m m' H.
  - injection H as <-. split; [apply crash_untouched_refl|reflexivity].
  - bind_inv H. apply do_writeback_untouched in E. apply IH in H.
    destruct E as [A1 A2], H as [B1 B2].
    split; [eapply crash_untouched_trans; eassumption|congruence].
Qed.

Lemma cache_capacity_check_untouched T m m' :
  cache_capacity_check T m = Some m' ->
  crash_untouched m m'
  /\ pmat_should_verify (pmem m') = pmat_should_verify (pmem m).
Proof.
  unfold cache_capacity_check. intros H. destruct (_ >? _).
  - pose proof (select_random_world (fun r => negb (r mod 2 =? 0))
                  (pmat_cache_entries (pmem m)) (sys m)) as (_ & _ & Hwt).
    destruct (select_random _ _ _) as [arr w]. cbn [snd] in Hwt.
    apply writeback_all_untouched in H. destruct H as [[A1 A2] A3].
    cbn [sys set_sys] in A2. rewrite Hwt in A2.
    split; [split|]; assumption.
  - injection H as <-. split; [apply crash_untouched_refl|reflexivity].
Qed.

Lemma emit_untouched ev m :
  crash_event ev = false ->
  crash_untouched m (emit ev m)
  /\ pmat_should_verify (pmem (emit ev m)) = pmat_should_verify (pmem m).
Proof.
  intros He. split; [split|]; try reflexivity.
  unfold emit. cbn [sys set_sys with_trace w_trace].
  rewrite filter_app. simpl. rewrite He, app_nil_r. reflexivity.
Qed.

Lemma maybe_simulate_crash_untouched m m' :
  pmat_should_verify (pmem m) = false \/ pmat_verifier (pmem m) = None ->
  maybe_simulate_crash m = Some m' ->
  crash_untouched m m'
  /\ pmat_should_verify (pmem m') = pmat_should_verify (pmem m).
Proof.
  intros Hq H. unfold maybe_simulate_crash in H.
  cbn [pmem emit set_sys] in H.
  assert (Hc : negb (pmat_should_verify (pmem m))
               || match pmat_verifier (pmem m) with
                  | Some _ => false
                  | None => true
                  end
               || (OSetGen_Size (pmat_registered_files (pmem m)) =? 0)
               = true).
  { destruct Hq as [-> | ->]; [reflexivity|].
    destruct (pmat_should_verify (pmem m)); reflexivity. }
  rewrite Hc in H. injection H as <-. apply emit_untouched. reflexivity.
Qed.

Lemma simulate_crash_untouched m m' :
  pmat_verifier (pmem m) = None ->
  simulate_crash m = Some m' ->
  crash_untouched m m'
  /\ pmat_should_verify (pmem m') = pmat_should_verify (pmem m).
Proof.
  intros Hv H. unfold simulate_crash in H. rewrite Hv in H.
  injection H as <-. apply emit_untouched. reflexivity.
Qed.

Lemma warn_if_split_untouched a size m :
  crash_untouched m (warn_if_split a size m)
  /\ pmat_should_verify (pmem (warn_if_split a size m))
     = pmat_should_verify (pmem m).
Proof.
  unfold warn_if_split.
  destruct (TRIM_CACHELINE a =? _); destruct (OFFSET_CACHELINE a >? _);
    (split; [split|]); try reflexivity;
    unfold emit; cbn [sys set_sys with_trace w_trace];
    rewrite ?filter_app; simpl; rewrite ?app_nil_r; reflexivity.
Qed.

Lemma note_spill_untouched line spill m :
  crash_untouched m (note_spill line spill m)
  /\ pmat_should_verify (pmem (note_spill line spill m))
     = pmat_should_verify (pmem m).
Proof.
  unfold note_spill. destruct spill.
  - split; [apply crash_untouched_refl|reflexivity].
  - apply emit_untouched. reflexivity.
Qed.

Lemma quiet_carries m m' :
  crash_untouched m m' ->
  pmat_should_verify (pmem m') = pmat_should_verify (pmem m) ->
  pmat_should_verify (pmem m) = false \/ pmat_verifier (pmem m) = None ->
  pmat_should_verify (pmem m') = false \/ pmat_verifier (pmem m') = None.
Proof.
  intros [Hv _] Hs [H|H]; [left; congruence|right].
  unfold verification_state in Hv. injection Hv as _ _ Hv _ _ _ _.
  congruence.
Qed.

Lemma trace_pmem_store_untouched T context a size value m m' :
  pmat_should_verify (pmem m) = false \/ pmat_verifier (pmem m) = None ->
  trace_pmem_store T context a size value m = Some m' ->
  crash_untouched m m'
  /\ pmat_should_verify (pmem m') = pmat_should_verify (pmem m).
Proof.
  intros Hq H. unfold trace_pmem_store in H.
  bind_inv H. destruct b; cbn [negb] in H;
    [|injection H as <-; split; [apply crash_untouched_refl|reflexivity]].
  destruct (warn_if_split_untouched a size m) as [W1 W2].
  destruct (warn_if_split_frame a size m) as (Hp & _).
  set (mw := warn_if_split a size m) in *. clearbody mw.
  destruct (OSetGen_Lookup _ _ _) as [x|].
  - injection H as <-.
    destruct (note_spill_untouched (TRIM_CACHELINE a)
                (store_spill a size value)
                (set_cache
                   (oset_update cmp_pmat_cache_entries
                      (pmat_cache_entries (pmem mw)) (store_key a)
                      (stored_into context a size value)) mw)) as [N1 N2].
    split; [|rewrite N2; exact W2].
    eapply crash_untouched_trans; [exact W1|exact N1].
  - destruct (note_spill_untouched (TRIM_CACHELINE a)
                (store_spill a size value) mw) as [N1 N2].
    destruct (note_spill_frame (TRIM_CACHELINE a) (store_spill a size value) mw)
      as (Hp2 & _).
    set (ms := note_spill _ _ mw) in *. clearbody ms.
    bind_inv H. rename l into cache. bind_inv H. rename m0 into m2.
    apply cache_capacity_check_untouched in E1. destruct E1 as [C1 C2].
    assert (Hms : crash_untouched m (set_cache cache ms)
                  /\ pmat_should_verify (pmem (set_cache cache ms))
                     = pmat_should_verify (pmem m)).
    { split; [|cbn [pmem set_cache set_pmem with_cache_entries
                      pmat_should_verify]; congruence].
      eapply crash_untouched_trans; [exact W1|exact N1]. }
    destruct Hms as [M1 M2].
    assert (Hq2 : pmat_should_verify (pmem m2) = false
                  \/ pmat_verifier (pmem m2) = None).
    { eapply quiet_carries; [exact C1|exact C2|].
      eapply quiet_carries; [exact M1|exact M2|exact Hq]. }
    apply (maybe_simulate_crash_untouched _ _ Hq2) in H.
    destruct H as [S1 S2]. split; [|congruence].
    eapply crash_untouched_trans; [exact M1|].
    eapply crash_untouched_trans; [exact C1|exact S1].
Qed.

Lemma do_flush_untouched T base size m m' :
  do_flush T base size m = Some m' ->
  crash_untouched m m'
  /\ pmat_should_verify (pmem m') = pmat_should_verify (pmem m).
Proof.
  unfold do_flush. intros H. destruct (OSetGen_Lookup _ _ _).
  - apply do_writeback_untouched in H. exact H.
  - injection H as <-. split; [apply crash_untouched_refl|reflexivity].
Qed.

Lemma _do_fence_untouched T m m' :
  _do_fence T m = Some m' ->
  crash_untouched m m'
  /\ pmat_should_verify (pmem m') = pmat_should_verify (pmem m).
Proof.
  unfold _do_fence. intros H. destruct (_ =? 0).
  - injection H as <-. split; [apply crash_untouched_refl|reflexivity].
  - apply drain_untouched in H. exact H.
Qed.

Lemma do_fence_untouched T m m' :
  pmat_should_verify (pmem m) = false \/ pmat_verifier (pmem m) = None ->
  do_fence T m = Some m' ->
  crash_untouched m m'
  /\ pmat_should_verify (pmem m') = pmat_should_verify (pmem m).
Proof.
  intros Hq H. unfold do_fence in H.
  destruct (maybe_simulate_crash m) as [ma|] eqn:Ea; [|discriminate].
  destruct (_do_fence T ma) as [mb|] eqn:Eb; [|discriminate].
  pose proof (maybe_simulate_crash_untouched _ _ Hq Ea) as A.
  pose proof (_do_fence_untouched _ _ _ Eb) as B.
  pose proof (untouched_then _ _ _ A B) as AB.
  eapply untouched_then; [exact AB|].
  apply maybe_simulate_crash_untouched; [|exact H].
  eapply quiet_carries; [exact (proj1 AB)|exact (proj2 AB)|exact Hq].
Qed.

Lemma flush_then_check_untouched T base size m m1 m' :
  pmat_should_verify (pmem m) = false \/ pmat_verifier (pmem m) = None ->
  do_flush T base size m = Some m1 ->
  maybe_simulate_crash m1 = Some m' ->
  crash_untouched m m'
  /\ pmat_should_verify (pmem m') = pmat_should_verify (pmem m).
Proof.
  intros Hq Hf Hc.
  pose proof (do_flush_untouched _ _ _ _ _ Hf) as A.
  eapply untouched_then; [exact A|].
  apply maybe_simulate_crash_untouched; [|exact Hc].
  eapply quiet_carries; [exact (proj1 A)|exact (proj2 A)|exact Hq].
Qed.

(** A call that does not ask for a crash, made while no crash can be
    simulated at random. *)
Lemma step_untouched c m m' :
  step c m = Some m' ->
  (pmat_verifier (pmem m) = None -> crash_untouched m m')
  /\ (pmat_should_verify (pmem m) = false -> crash_request c = false ->
      crash_untouched m m' /\ pmat_should_verify (pmem m') = false).
Proof.
  intros H.
  assert (Hgen : (pmat_should_verify (pmem m) = false
                  \/ pmat_verifier (pmem m) = None) ->
                 (pmat_verifier (pmem m) = None \/ crash_request c = false) ->
                 crash_untouched m m'
                 /\ (crash_request c = false ->
                     pmat_should_verify (pmem m) = false ->
                     pmat_should_verify (pmem m') = false)).
  { intros Hq Hr. destruct c; cbn [step] in H.
    - apply (trace_pmem_store_untouched _ _ _ _ _ _ _ Hq) in H.
      destruct H as [A B]. split; [exact A|congruence].
    - unfold trace_pmem_flush in H.
      destruct (do_flush _ _ _ _) as [m1|] eqn:Ef; [|discriminate].
      destruct (flush_then_check_untouched _ _ _ _ _ _ Hq Ef H) as [A B].
      split; [exact A|congruence].
    - unfold trace_pmem_flush_fence in H.
      destruct (do_flush _ _ _ _) as [m1|] eqn:Ef; [|discriminate].
      destruct (_do_fence _ m1) as [m2|] eqn:Eb; [|discriminate].
      pose proof (do_flush_untouched _ _ _ _ _ Ef) as A.
      pose proof (_do_fence_untouched _ _ _ Eb) as B.
      pose proof (untouched_then _ _ _ A B) as AB.
      assert (Hq2 : pmat_should_verify (pmem m2) = false
                    \/ pmat_verifier (pmem m2) = None)
        by (eapply quiet_carries;
            [exact (proj1 AB)|exact (proj2 AB)|exact Hq]).
      pose proof (maybe_simulate_crash_untouched _ _ Hq2 H) as C.
      destruct (untouched_then _ _ _ AB C) as [D1 D2].
      split; [exact D1|congruence].
    - apply (do_fence_untouched _ _ _ Hq) in H.
      destruct H as [A B]. split; [exact A|congruence].
    - destruct (pmat_handle_client_request running arg m) as [[b m1]|] eqn:Er;
        [|discriminate].
      injection H as <-.
      destruct arg; cbn [pmat_handle_client_request] in Er;
        try (injection Er as <- <-;
             first [ split; [split; reflexivity|tauto]
                   | split; [apply emit_untouched; reflexivity|tauto] ]).
      + (* flush *)
        destruct (do_flush _ _ _ _) as [m2|] eqn:Ef; [|discriminate].
        destruct (maybe_simulate_crash m2) as [m3|] eqn:Ec; [|discriminate].
        injection Er as <- <-.
        destruct (flush_then_check_untouched _ _ _ _ _ _ Hq Ef Ec) as [A B].
        split; [exact A|congruence].
      + (* fence *)
        destruct (do_fence _ _) as [m2|] eqn:Ef; [|discriminate].
        injection Er as <- <-.
        apply (do_fence_untouched _ _ _ Hq) in Ef.
        destruct Ef as [A B]. split; [exact A|congruence].
      + (* register *)
        destruct name as [name|];
          [|injection Er as <- <-;
            split; [apply emit_untouched; reflexivity|tauto]].
        destruct (negb _);
          [injection Er as <- <-;
           split; [apply emit_untouched; reflexivity|tauto]|].
        unfold VG_open in Er. destruct (existsb _ _); [discriminate|].
        cbn [fst snd] in Er.
        match type of Er with
        | context [VG_ftruncate ?d ?s ?w] =>
            assert (Ht : w_trace (VG_ftruncate d s w) = w_trace (sys m))
        end.
        { unfold VG_ftruncate. cbn [w_fds w_files].
          repeat match goal with
                 | |- context [match ?e with _ => _ end] => destruct e
                 end; reflexivity. }
        destruct (_ =? wrap64 (-1)); [discriminate|].
        bind_inv Er. injection Er as <- <-.
        split; [|tauto]. apply crash_untouched_by_pmem; [reflexivity|].
        exact Ht.
      + (* unregister by name *)
        destruct (_ >? 0);
          [|injection Er as <- <-; split; [split; reflexivity|tauto]].
        bind_inv Er. injection Er as <- <-.
        destruct o; (split; [split; reflexivity|tauto]).
      + (* unregister by address *)
        destruct (_ >? 0);
          [|injection Er as <- <-; split; [split; reflexivity|tauto]].
        bind_inv Er. injection Er as <- <-.
        destruct o; (split; [split; reflexivity|tauto]).
      + (* forced crash *)
        destruct Hr as [Hv|Hr]; [|discriminate Hr].
        destruct (simulate_crash m) as [m2|] eqn:Es; [|discriminate].
        injection Er as <- <-.
        apply (simulate_crash_untouched _ _ Hv) in Es.
        destruct Es as [A B]. split; [exact A|congruence].
      + (* transient *)
        bind_inv Er.
        destruct (negb b0);
          [injection Er as <- <-; split; [split; reflexivity|tauto]|].
        destruct (OSetGen_Contains _ _ _);
          [injection Er as <- <-; split; [split; reflexivity|tauto]|].
        bind_inv Er. injection Er as <- <-.
        split; [split; reflexivity|tauto].
      + (* monitor command *)
        unfold handle_gdb_monitor_command in Er.
        destruct (_ =? -2);
          [injection Er as <- <-; split; [split; reflexivity|tauto]|].
        destruct (_ =? -1);
          [injection Er as <- <-; split; [split; reflexivity|tauto]|].
        destruct (_ =? 0); [|discriminate].
        injection Er as <- <-.
        split; [apply emit_untouched; reflexivity|tauto]. }
  split.
  - intros Hv. apply Hgen; [right; exact Hv|left; exact Hv].
  - intros Hs Hr. destruct (Hgen (or_introl Hs) (or_intror Hr)) as [A B].
    split; [exact A|apply B; assumption].
Qed.

(** X12.  Without a verifier no crash is ever simulated: whatever the
    calls, a forced crash among them, the counts of verifications and of
    bad ones and the recorded times stay as they are, and no file is
    copied or unlinked. *)
Theorem no_verifier_no_verification cs : forall m m',
  pmat_verifier (pmem m) = None ->
  run cs m = Some m' ->
  verification_state m' = verification_state m
  /\ filter crash_event (w_trace (sys m'))
     = filter crash_event (w_trace (sys m)).
Proof.
  induction cs as [|c cs IH]; cbn [run]; intros m m' Hv H.
  - injection H as <-. split; reflexivity.
  - destruct (step c m) as [m1|] eqn:Es; [|discriminate].
    destruct (step_untouched _ _ _ Es) as [A _]. specialize (A Hv).
    assert (Hv1 : pmat_verifier (pmem m1) = None).
    { destruct A as [A _]. unfold verification_state in A.
      injection A as _ _ A _ _ _ _. congruence. }
    apply (crash_untouched_trans _ _ _ A). apply IH; assumption.
Qed.

(** X13.  Once the crash checks are switched off, calls that neither switch
    them on again nor force a crash never run the verifier: the counts and
    the times stay as they are, no file is copied or unlinked, and the
    checks are still off afterwards. *)
Theorem disabled_crash_checks_never_fire cs : forall m m',
  pmat_should_verify (pmem m) = false ->
  forallb (fun c => negb (crash_request c)) cs = true ->
  run cs m = Some m' ->
  verification_state m' = verification_state m
  /\ filter crash_event (w_trace (sys m'))
     = filter crash_event (w_trace (sys m))
  /\ pmat_should_verify (pmem m') = false.
Proof.
  induction cs as [|c cs IH]; cbn [run forallb]; intros m m' Hs Hcs H.
  - injection H as <-. repeat split. exact Hs.
  - apply andb_true_iff in Hcs. destruct Hcs as [Hc Hcs].
    apply negb_true_iff in Hc.
    destruct (step c m) as [m1|] eqn:Es; [|discriminate].
    destruct (step_untouched _ _ _ Es) as [_ A].
    destruct (A Hs Hc) as [[A1 A2] A3].
    destruct (IH m1 m' A3 Hcs H) as (B1 & B2 & B3).
    repeat split; congruence.
Qed.

(** ** The recorded times *)

Section Times.
Local Open Scope Q_scope.

Lemma record_verification_min sec p :
  pmat_min_verification_time (record_verification sec p)
  = (let mn := VG_MIN (pmat_min_verification_time p) sec in
     if Qeq_bool mn 0 then sec else mn).
Proof. reflexivity. Qed.

Lemma record_verification_max sec p :
  pmat_max_verification_time (record_verification sec p)
  = VG_MAX (pmat_max_verification_time p) sec.
Proof. reflexivity. Qed.

Lemma record_verification_first x p :
  0 < x ->
  pmat_min_verification_time p == 0 -> pmat_max_verification_time p == 0 ->
  pmat_min_verification_time (record_verification x p) = x
  /\ pmat_max_verification_time (record_verification x p) = x.
Proof.
  intros Hx Hmin Hmax.
  rewrite record_verification_min, record_verification_max.
  unfold VG_MIN, VG_MAX. split.
  - destruct (Qle_bool x (pmat_min_verification_time p)) eqn:E.
    + apply Qle_bool_iff in E. lra.
    + cbn zeta. apply Qeq_bool_iff in Hmin. rewrite Hmin. reflexivity.
  - destruct (Qle_bool (pmat_max_verification_time p) x) eqn:E;
      [reflexivity|].
    assert (Hle : pmat_max_verification_time p <= x) by lra.
    apply Qle_bool_iff in Hle. congruence.
Qed.

Lemma record_verification_next x p seen :
  0 < x -> (forall y, In y seen -> 0 < y) ->
  In (pmat_min_verification_time p) seen ->
  In (pmat_max_verification_time p) seen ->
  (forall y, In y seen ->
     pmat_min_verification_time p <= y <= pmat_max_verification_time p) ->
  let p' := record_verification x p in
  In (pmat_min_verification_time p') (seen ++ [x])%list
  /\ In (pmat_max_verification_time p') (seen ++ [x])%list
  /\ (forall y, In y (seen ++ [x])%list ->
        pmat_min_verification_time p' <= y <= pmat_max_verification_time p').
Proof.
  intros Hx Hpos Hmin Hmax Hb p'. subst p'.
  rewrite record_verification_min, record_verification_max.
  pose proof (Hpos _ Hmin) as Hminpos.
  unfold VG_MIN, VG_MAX.
  destruct (Qle_bool x (pmat_min_verification_time p)) eqn:E1;
    destruct (Qle_bool (pmat_max_verification_time p) x) eqn:E2;
    cbn zeta.
  all: try (apply Qle_bool_iff in E1).
  all: try (apply Qle_bool_iff in E2).
  all: try (assert (N1 : ~ x <= pmat_min_verification_time p)
             by (intros F; apply Qle_bool_iff in F; congruence)).
  all: try (assert (N2 : ~ pmat_max_verification_time p <= x)
             by (intros F; apply Qle_bool_iff in F; congruence)).
  all: match goal with
       | |- context [Qeq_bool ?q 0] =>
           let Eq := fresh "Eq" in
           destruct (Qeq_bool q 0) eqn:Eq;
           [apply Qeq_bool_iff in Eq; lra|]
       end.
  all: split; [apply in_or_app; first [right; left; reflexivity
                                      |left; assumption]|].
  all: split; [apply in_or_app; first [right; left; reflexivity
                                      |left; assumption]|].
  all: intros y Hy; apply in_app_or in Hy;
       destruct Hy as [Hy|[<-|[]]]; [specialize (Hb y Hy)|]; lra.
Qed.

Lemma record_all_tracks xs : forall seen p,
  (forall y, In y (seen ++ xs)%list -> 0 < y) ->
  seen <> [] ->
  In (pmat_min_verification_time p) seen ->
  In (pmat_max_verification_time p) seen ->
  (forall y, In y seen ->
     pmat_min_verification_time p <= y <= pmat_max_verification_time p) ->
  let p' := record_all xs p in
  In (pmat_min_verification_time p') (seen ++ xs)%list
  /\ In (pmat_max_verification_time p') (seen ++ xs)%list
  /\ (forall y, In y (seen ++ xs)%list ->
        pmat_min_verification_time p' <= y <= pmat_max_verification_time p').
Proof.
  induction xs as [|x xs IH]; intros seen p Hpos Hne Hmin Hmax Hb.
  - cbn. rewrite app_nil_r. tauto.
  - cbn zeta. change (record_all (x :: xs) p)
      with (record_all xs (record_verification x p)).
    replace (seen ++ x :: xs)%list with ((seen ++ [x]) ++ xs)%list
      by (rewrite <- app_assoc; reflexivity).
    destruct (record_verification_next x p seen) as (A1 & A2 & A3);
      try assumption.
    + apply Hpos. apply in_or_app. right. left. reflexivity.
    + intros y Hy. apply Hpos. apply in_or_app. left. exact Hy.
    + apply IH; try assumption.
      * intros y Hy. apply Hpos. rewrite <- app_assoc in Hy. exact Hy.
      * intros F. apply app_eq_nil in F. destruct F as [_ F]. discriminate.
Qed.

(** X14.  The least and the greatest time.  After the verifier has been
    run at least once from start-up and every run took more than no time,
    the recorded minimum and maximum are the least and the greatest of the
    times of the runs.  (A minimum of 0 is read as "nothing recorded yet",
    which is why a run of exactly no time is left out.) *)
Theorem min_max_track_the_samples xs p :
  xs <> [] -> (forall x, In x xs -> 0 < x) ->
  pmat_min_verification_time p == 0 ->
  pmat_max_verification_time p == 0 ->
  let p' := record_all xs p in
  In (pmat_min_verification_time p') xs
  /\ In (pmat_max_verification_time p') xs
  /\ (forall x, In x xs ->
        pmat_min_verification_time p' <= x <= pmat_max_verification_time p').
Proof.
  intros Hne Hpos Hmin Hmax. destruct xs as [|x xs]; [congruence|].
  cbn zeta. change (record_all (x :: xs) p)
    with (record_all xs (record_verification x p)).
  destruct (record_verification_first x p) as [F1 F2]; try assumption.
  { apply Hpos. left. reflexivity. }
  apply (record_all_tracks xs [x] (record_verification x p)).
  - exact Hpos.
  - discriminate.
  - rewrite F1. left. reflexivity.
  - rewrite F2. left. reflexivity.
  - intros y [<-|[]]. rewrite F1, F2. lra.
Qed.

End Times.

(** ** The report at exit *)

Section Report.
Local Open Scope Q_scope.

Lemma Qle_bool_false x y : Qle_bool x y = false <-> y < x.
Proof.
  split; intros H.
  - apply Qnot_le_lt. intros F. apply Qle_bool_iff in F. congruence.
  - destruct (Qle_bool x y) eqn:E; [|reflexivity].
    apply Qle_bool_iff in E. lra.
Qed.

Lemma quotient_spec number s :
  ~ s == 0 -> s * (number / s) == number.
Proof. intros H. apply Qmult_div_r, H. Qed.

(** X19.  [sqrt] returns its argument itself whenever the argument is at
    most [1 + error]: for such a number the loop's condition fails at once,
    so that every variance below one second squared is its own "root". *)
Theorem sqrt_returns_small_arguments fuel number :
  number <= 1 + sqrt_error -> sqrt (S fuel) number = Some number.
Proof.
  intros H. unfold sqrt. cbn [sqrt_loop].
  assert (Hc : number - number / number <= sqrt_error).
  { destruct (Qeq_dec number 0) as [Hz|Hnz].
    - assert (Hq : number / number == 0)
        by (unfold Qdiv; rewrite Hz at 1; ring).
      rewrite Hq, Hz. unfold sqrt_error. lra.
    - pose proof (quotient_spec number number Hnz) as Hq.
      assert (Hone : number / number == 1).
      { unfold Qdiv. apply Qmult_inv_r, Hnz. }
      rewrite Hone. lra. }
  apply Qle_bool_iff in Hc. rewrite Hc. reflexivity.
Qed.

Lemma scale_up_negative fuel : forall norm exp,
  norm < 0 -> scale_up fuel norm exp = None.
Proof.
  induction fuel as [|fuel IH]; intros norm exp H; [reflexivity|].
  cbn [scale_up].
  assert (Hc : Qle_bool 1 norm = false) by (apply Qle_bool_false; lra).
  rewrite Hc. apply IH. lra.
Qed.

(** X22.  For a negative number [scientificNotation] never returns: its
    second loop multiplies by ten while the mantissa is below 1, which a
    negative mantissa stays for ever. *)
Theorem scientificNotation_never_returns_for_negative fuel d :
  d < 0 -> scientificNotation fuel d = None.
Proof.
  intros Hd. unfold scientificNotation.
  assert (Hz : Qeq_bool d 0 = false).
  { destruct (Qeq_bool d 0) eqn:E; [|reflexivity].
    apply Qeq_bool_iff in E. lra. }
  rewrite Hz. destruct fuel as [|fuel]; [reflexivity|].
  cbn [scale_down].
  assert (Hc : Qle_bool 10 d = false) by (apply Qle_bool_false; lra).
  rewrite Hc. apply scale_up_negative, Hd.
Qed.
End Report.

(** ** The verifier's argument vector *)






(** ** Widening of the stored value *)

(** X17.  A 64-bit constant that is stored is handed to the store
    callback with its upper 32 bits cleared: [widen_const] casts every
    constant to [UInt].  The traced value is the constant itself exactly
    when the constant is below [2^32]; the narrower constants are kept. *)
Theorem widen_const_keeps_low_32_bits v :
  0 <= v < 2 ^ 64 ->
  widen_const (Ico_U64 v) = Some (v mod 2 ^ 32)
  /\ (widen_const (Ico_U64 v) = Some v <-> v < 2 ^ 32)
  /\ (v < 2 ^ 32 ->
      widen_const (Ico_U32 v) = Some v
      /\ widen_const (Ico_U16 v) = Some v
      /\ widen_const (Ico_U8 v) = Some v
      /\ widen_const (Ico_U1 v) = Some v).
Proof.
  intros Hv. cbn [widen_const]. unfold UInt.
  split; [reflexivity|]. split; [split|].
  - intros H. injection H as H.
    pose proof (Z.mod_pos_bound v (2 ^ 32) ltac:(lia)). lia.
  - intros H. rewrite Z.mod_small by lia. reflexivity.
  - intros H. rewrite Z.mod_small by lia. repeat split.
Qed.

(** X18.  The assertions of the two widening functions cannot fail where
    the instrumentation calls them: [widen_operation] has an answer exactly
    for the types [tmp_needs_widen] accepts, and [widen_const] exactly for
    the constants [const_needs_widen] accepts. *)
Theorem widening_is_guarded :
  (forall type,
      tmp_needs_widen type = true
      <-> exists op, widen_operation type = Some op)
  /\ (forall con,
        const_needs_widen con = true
        <-> exists w, widen_const con = Some w).
Proof.
  split.
  - intros type. destruct type; cbn; split; intros H;
      try discriminate; try reflexivity; try (eexists; reflexivity);
      destruct H as [op H]; discriminate.
  - intros con. destruct con; cbn; split; intros H;
      try discriminate; try reflexivity; try (eexists; reflexivity);
      destruct H as [w H]; discriminate.
Qed.

(** ** Stack traces *)

Lemma same_ips_order ips1 : forall ips2,
  same_ips ips1 ips2 = (order_ips ips1 ips2 =? 0).
Proof.
  induction ips1 as [|a l1 IH]; intros [|b l2]; cbn [same_ips order_ips];
    try reflexivity.
  destruct (Z.eqb_spec a b) as [->|Hne]; cbn [negb].
  - rewrite !Z.gtb_ltb, !Z.ltb_irrefl. apply IH.
  - destruct (Z.gtb_spec a b); [reflexivity|].
    destruct (Z.gtb_spec b a); [reflexivity|]. lia.
Qed.

Lemma order_ips_swap ips1 : forall ips2,
  order_ips ips2 ips1 = - order_ips ips1 ips2.
Proof.
  induction ips1 as [|a l1 IH]; intros [|b l2]; cbn [order_ips];
    try reflexivity.
  destruct (Z.gtb_spec a b), (Z.gtb_spec b a); try lia; try reflexivity.
  apply IH.
Qed.

Lemma omit_top_swap describe_IP ips1 ips2 :
  omit_top describe_IP ips2 ips1 = omit_top describe_IP ips1 ips2.
Proof.
  unfold omit_top. rewrite Z.eqb_sym.
  rewrite (andb_comm (is_ip_memset_memcpy describe_IP (nth 0 ips2 0))).
  reflexivity.
Qed.

(** X23.  The two comparisons of contexts agree: on two contexts that
    are not null, [cmp_exe_context] fails its assertion exactly where
    [cmp_exe_context_pointers] fails it, and it answers true exactly where
    the other answers 0. *)
Theorem cmp_exe_context_agrees describe_IP l r :
  cmp_exe_context describe_IP (Some l) (Some r)
  = option_map (fun c => c =? 0)
      (cmp_exe_context_pointers describe_IP (Some l) (Some r)).
Proof.
  unfold cmp_exe_context, cmp_exe_context_pointers.
  destruct (ec_where l =? ec_where r); [reflexivity|].
  destruct (negb _); [reflexivity|].
  destruct (Z.eqb_spec (n_ips l) (n_ips r)) as [He|Hne]; cbn [negb].
  - rewrite He, Z.gtb_ltb, Z.ltb_irrefl. cbn [option_map].
    rewrite same_ips_order. reflexivity.
  - destruct (Z.gtb_spec (n_ips l) (n_ips r)); [reflexivity|].
    destruct (Z.gtb_spec (n_ips r) (n_ips l)); [reflexivity|]. lia.
Qed.

(** X24.  [cmp_exe_context_pointers] is antisymmetric: with its arguments
    exchanged it fails where it failed and answers the opposite sign where
    it answered. *)
Theorem cmp_exe_context_pointers_antisymmetric describe_IP l r :
  cmp_exe_context_pointers describe_IP (Some r) (Some l)
  = option_map Z.opp (cmp_exe_context_pointers describe_IP (Some l) (Some r)).
Proof.
  unfold cmp_exe_context_pointers. rewrite (Z.eqb_sym (ec_where r)).
  destruct (ec_where l =? ec_where r); [reflexivity|].
  rewrite (andb_comm (n_ips r >=? 1)).
  destruct (negb _); [reflexivity|].
  destruct (Z.gtb_spec (n_ips l) (n_ips r)),
           (Z.gtb_spec (n_ips r) (n_ips l)); try lia; try reflexivity.
  cbn [option_map]. rewrite omit_top_swap, order_ips_swap. reflexivity.
Qed.

(** X25.  [cmp_exe_context_pointers], the order of the set that the
    report keeps its stack traces in, is not transitive: two traces that
    differ by a top frame in [memcpy] and one in [memset] compare equal,
    yet a third trace can lie above the one and below the other. *)
Theorem cmp_exe_context_pointers_not_transitive :
  exists describe_IP a b c,
    cmp_exe_context_pointers describe_IP (Some a) (Some b) = Some 0
    /\ cmp_exe_context_pointers describe_IP (Some a) (Some c) = Some (-1)
    /\ cmp_exe_context_pointers describe_IP (Some c) (Some b) = Some (-1).
Proof.
  exists (fun ip => if ip =? 1 then "memcpy (string.c:10)"
                    else if ip =? 9 then "memset (string.c:20)"
                    else "main (queue.c:30)"),
         (mk_ExeContext 100 [1; 5]), (mk_ExeContext 200 [9; 5]),
         (mk_ExeContext 300 [4; 5]).
  repeat split.
Qed.

(** ** More on writebacks *)

(** X27.  Writing an entry back a second time changes nothing: the file
    of the region, the other files and the state of the tool are as the
    first writeback left them. *)
Theorem write_to_file_idempotent wbe m m1 :
  write_to_file wbe m = Some m1 ->
  exists m2,
    write_to_file wbe m1 = Some m2
    /\ (forall q, w_files (sys m2) q = w_files (sys m1) q)
    /\ pmem m2 = pmem m1.
Proof.
  intros H.
  destruct (write_to_file_effect _ _ _ H)
    as (path & off & f & f' & Hs & Hf & Hf' & Hm & Hlen & Hin & Hout & Hoth).
  destruct (write_to_file_frame _ _ _ H) as (Hp & _ & Hfd & _).
  assert (Hw : writable m1 (wb_addr wbe)).
  { unfold writable. unfold slot in Hs. unfold wb_addr.
    destruct (lookup_file (addr (entry wbe)) m) as [[r|]|] eqn:El;
      try discriminate.
    destruct (w_fds (sys m) (rf_descr r)) as [p0|] eqn:Ed; [|discriminate].
    injection Hs as -> Ho.
    assert (Hseek : (sword64 (wrap64 (addr (entry wbe) - rf_addr r)) <? 0)
                    = false).
    { unfold write_to_file in H. rewrite El in H. cbn beta iota zeta in H.
      unfold VG_lseek in H. rewrite Ed in H.
      destruct (sword64 _ <? 0) eqn:En; [|reflexivity].
      exfalso.
      assert (Ho' : 0 <= wrap64 (addr (entry wbe) - rf_addr r))
        by (apply Z.mod_pos_bound; lia).
      destruct (Z.eqb_spec (-1) (wrap64 (addr (entry wbe) - rf_addr r)));
        [lia|discriminate H]. }
    exists r, path, f'. unfold lookup_file in *. rewrite Hp, Hfd.
    repeat split; assumption. }
  destruct (write_to_file_succeeds wbe m1 Hw) as (m2 & H2).
  exists m2. split; [exact H2|].
  destruct (write_to_file_frame _ _ _ H2) as (Hp2 & _).
  split; [|exact Hp2].
  destruct (write_to_file_effect _ _ _ H2)
    as (path2 & off2 & g & g' & Hs2 & Hg & Hg' & Hm2 & Hlen2 & Hin2 & Hout2
        & Hoth2).
  assert (Hsame : slot m1 (addr (entry wbe)) = slot m (addr (entry wbe))).
  { apply slot_same; [rewrite Hp; reflexivity|exact Hfd]. }
  rewrite Hsame, Hs in Hs2. injection Hs2 as <- <-.
  rewrite Hf' in Hg. injection Hg as <-.
  intros q. destruct (String.eqb_spec q path) as [->|Hne];
    [|apply Hoth2, Hne].
  rewrite Hg', Hf'. f_equal.
  destruct g' as [mode2 bytes2], f' as [mode1 bytes1].
  cbn [f_mode f_bytes] in *. f_equal; [exact Hm2|].
  assert (Hl : List.length bytes2 = List.length bytes1) by lia.
  apply (nth_ext _ _ 0 0 Hl). intros k Hk.
  destruct (Nat.lt_ge_cases k off) as [Hlo|Hhi];
    [apply Hout2; left; exact Hlo|].
  destruct (Nat.lt_ge_cases k (off + line_bytes)) as [Hmid|Hup];
    [|apply Hout2; right; exact Hup].
  replace k with (off + (k - off))%nat by lia.
  assert (Hi : (k - off < line_bytes)%nat) by lia.
  rewrite (Hin2 _ Hi).
  destruct (Z.testbit _ _) eqn:Eb.
  - rewrite (Hin _ Hi), Eb. reflexivity.
  - destruct (Nat.ltb_spec (off + (k - off)) (List.length bytes1));
      [reflexivity|lia].
Qed.

Lemma writable_frame m m' a :
  pmat_registered_files (pmem m') = pmat_registered_files (pmem m) ->
  w_fds (sys m') = w_fds (sys m) ->
  w_files (sys m') = w_files (sys m) ->
  writable m a -> writable m' a.
Proof.
  intros Hr Hd Hf (r & path & f & Hl & Hfd & Hfl & Ho).
  exists r, path, f. unfold lookup_file in *. rewrite Hr, Hd, Hf. tauto.
Qed.

(** X28.  A fence returns.  While no crash can be simulated at random (the
    checks are off or there is no verifier), a fence by [T] does not abort
    the tool when each line that waits in the write buffer under [T] can
    be written back: a region is found for it, the descriptor of the
    region is open on a file that exists, and the offset of the line is
    one [lseek] takes. *)
Theorem fence_returns T m :
  pmat_should_verify (pmem m) = false \/ pmat_verifier (pmem m) = None ->
  (forall w, In w (pmat_write_buffer_entries (pmem m)) -> tid w = T ->
             writable m (wb_addr w)) ->
  exists m', do_fence T m = Some m'.
Proof.
  intros Hq Hw. unfold do_fence.
  assert (Hcalm : forall m0,
             pmat_should_verify (pmem m0) = false
             \/ pmat_verifier (pmem m0) = None ->
             maybe_simulate_crash m0 = Some (emit CrashCheck m0)).
  { intros m0 H0. unfold maybe_simulate_crash.
    cbn [pmem emit set_sys].
    destruct H0 as [-> | ->]; [reflexivity|].
    destruct (pmat_should_verify (pmem m0)); reflexivity. }
  rewrite (Hcalm m Hq).
  destruct (_do_fence_succeeds T (emit CrashCheck m)) as (mb & Hb).
  { intros w Hin Ht. apply (writable_frame m); try reflexivity.
    apply Hw; assumption. }
  rewrite Hb.
  destruct (_do_fence_untouched _ _ _ Hb) as [A B].
  rewrite Hcalm; [eexists; reflexivity|].
  eapply quiet_carries; [exact A|exact B|exact Hq].
Qed.

(** ** Registration that is turned down *)

(** X29.  A register request is answered as not handled exactly when its
    name is null or its base is not a multiple of 64; it has then only
    printed its message: nothing is registered, no file is opened, created
    or cut. *)
Theorem register_is_turned_down T name a size m :
  ((exists m',
       pmat_handle_client_request T (PMC_PMAT_REGISTER name a size) m
       = Some (false, m'))
   <-> name = None \/ a mod 64 <> 0)
  /\ (forall m',
        pmat_handle_client_request T (PMC_PMAT_REGISTER name a size) m
        = Some (false, m') ->
        pmem m' = pmem m
        /\ w_files (sys m') = w_files (sys m)
        /\ w_fds (sys m') = w_fds (sys m)
        /\ w_next_fd (sys m') = w_next_fd (sys m)).
Proof.
  assert (Hal : TRIM_CACHELINE a = a <-> a mod 64 = 0).
  { rewrite TRIM_CACHELINE_div.
    pose proof (Z.div_mod a 64 ltac:(lia)). lia. }
  cbn [pmat_handle_client_request]. split; [split|].
  - intros (m' & H). destruct name as [name|]; [right|left; reflexivity].
    destruct (Z.eqb_spec (TRIM_CACHELINE a) a) as [Ea|Ea].
    + cbn [negb] in H. destruct (VG_open _ _ _) as [res w].
      bind_inv H. destruct (_ =? _) in H; [discriminate H|]. bind_inv H.
      discriminate H.
    + intros F. apply Hal in F. contradiction.
  - intros [->|Hm]; [eexists; reflexivity|].
    destruct name as [name|]; [|eexists; reflexivity].
    destruct (Z.eqb_spec (TRIM_CACHELINE a) a) as [Ea|Ea];
      [apply Hal in Ea; contradiction|].
    eexists. reflexivity.
  - intros m' H. destruct name as [name|];
      [|injection H as <-; repeat split].
    destruct (negb _); [injection H as <-; repeat split|].
    destruct (VG_open _ _ _) as [res w].
    bind_inv H. destruct (_ =? _) in H; [discriminate H|]. bind_inv H.
    discriminate H.
Qed.

(** ** The cache as a store reads it back *)

Lemma lookup_after_update {E} (cmp : E -> E -> Z) t k f x :
  (forall y, cmp k (f y) = cmp k y) ->
  OSetGen_Lookup cmp t k = Some x ->
  OSetGen_Lookup cmp (oset_update cmp t k f) k = Some (f x).
Proof.
  intros Hf. unfold OSetGen_Lookup.
  induction t as [|y t IH]; simpl; intros H; [discriminate|].
  destruct (cmp k y =? 0) eqn:Ey.
  - injection H as ->. simpl. rewrite Hf, Ey. reflexivity.
  - simpl. rewrite Ey. apply IH, H.
Qed.

Lemma lookup_after_place {E} (cmp : E -> E -> Z) t k e :
  cmp k e = 0 ->
  OSetGen_Lookup cmp t k = None ->
  OSetGen_Lookup cmp (oset_place cmp e t) k = Some e.
Proof.
  intros He. unfold OSetGen_Lookup.
  induction t as [|y t IH]; simpl; intros H.
  - rewrite He. reflexivity.
  - destruct (cmp k y =? 0) eqn:Ey; [discriminate|].
    destruct (cmp e y <=? 0); simpl.
    + rewrite He. reflexivity.
    + rewrite Ey. apply IH, H.
Qed.

Lemma stored_into_elsewhere context a size value x i :
  1 <= size <= 8 -> (i < line_bytes)%nat ->
  ~ (Z.to_nat (OFFSET_CACHELINE a) <= i
     < Z.to_nat (OFFSET_CACHELINE a) + Z.to_nat size)%nat ->
  nth i (data (stored_into context a size value x)) 0 = nth i (data x) 0
  /\ Z.testbit (dirtyBits (stored_into context a size value x)) (Z.of_nat i)
     = Z.testbit (dirtyBits x) (Z.of_nat i).
Proof.
  intros Hs Hi Hout.
  rewrite stored_into_byte, stored_into_dirty by assumption.
  destruct (Nat.leb_spec (Z.to_nat (OFFSET_CACHELINE a)) i);
    destruct (Nat.ltb_spec i
                (Z.to_nat (OFFSET_CACHELINE a) + Z.to_nat size));
    cbn [andb]; try lia; rewrite ?orb_false_r; split; reflexivity.
Qed.

(** X26.  What a store leaves in the cache.  While the cache has room, a
    store of 1 to 8 bytes to a tracked address that stays in its line
    leaves one entry for the line: it carries the context of the store,
    holds the stored bytes at the offset of the address and has them
    marked dirty; every other byte and its mark are those of the entry the
    line had before, or zero and clean if it had none. *)
Theorem store_is_read_back_from_cache T context a size value m m' :
  OSetGen_Size (pmat_cache_entries (pmem m)) < NUM_CACHE_ENTRIES (lim m) ->
  1 <= size <= 8 -> OFFSET_CACHELINE a + size <= 64 ->
  is_pmem_access a size m = Some true ->
  trace_pmem_store T context a size value m = Some m' ->
  exists e,
    OSetGen_Lookup cmp_pmat_cache_entries (pmat_cache_entries (pmem m'))
      (store_key a) = Some e
    /\ holds_store a size value e
    /\ lastPendingStore e = context
    /\ forall i, (i < line_bytes)%nat ->
         ~ (Z.to_nat (OFFSET_CACHELINE a) <= i
            < Z.to_nat (OFFSET_CACHELINE a) + Z.to_nat size)%nat ->
         match OSetGen_Lookup cmp_pmat_cache_entries
                 (pmat_cache_entries (pmem m)) (store_key a) with
         | Some x =>
             nth i (data e) 0 = nth i (data x) 0
             /\ Z.testbit (dirtyBits e) (Z.of_nat i)
                = Z.testbit (dirtyBits x) (Z.of_nat i)
         | None =>
             nth i (data e) 0 = 0
             /\ Z.testbit (dirtyBits e) (Z.of_nat i) = false
         end.
Proof.
  intros Hroom Hsz Hfit Ht H. unfold trace_pmem_store in H.
  rewrite Ht in H. cbn [negb] in H.
  destruct (warn_if_split_frame a size m) as (Hp & Hl & _).
  set (mw := warn_if_split a size m) in *. clearbody mw.
  rewrite Hp in H.
  destruct (OSetGen_Lookup _ _ _) as [x|] eqn:El.
  - injection H as <-.
    destruct (note_spill_frame (TRIM_CACHELINE a) (store_spill a size value)
                (set_cache
                   (oset_update cmp_pmat_cache_entries
                      (pmat_cache_entries (pmem m)) (store_key a)
                      (stored_into context a size value)) mw))
      as (Hp2 & _).
    pose proof (cache_lookup_some _ _ _ El) as [_ Hk].
    change (addr (store_key a)) with (TRIM_CACHELINE a) in Hk.
    exists (stored_into context a size value x).
    split; [|split; [apply stored_into_holds; assumption|split]].
    + rewrite Hp2.
      cbn [pmem set_cache set_pmem with_cache_entries pmat_cache_entries].
      apply lookup_after_update; [reflexivity|exact El].
    + reflexivity.
    + intros i Hi Hout. apply stored_into_elsewhere; assumption.
  - destruct (note_spill_frame (TRIM_CACHELINE a) (store_spill a size value) mw)
      as (Hp2 & Hl2 & _).
    set (ms := note_spill _ _ mw) in *. clearbody ms.
    rewrite Hp2, Hp in H. unfold OSetGen_Insert in H.
    rewrite (cache_lookup_ext _ (fresh_entry context a size value)
               (store_key a) eq_refl), El in H.
    bind_inv H. rename m0 into m2.
    unfold cache_capacity_check in E.
    cbn [pmem lim set_cache set_pmem with_cache_entries pmat_cache_entries]
      in E.
    assert (Hfit2 : (OSetGen_Size
                       (oset_place cmp_pmat_cache_entries
                          (fresh_entry context a size value)
                          (pmat_cache_entries (pmem m)))
                     >? NUM_CACHE_ENTRIES (lim ms)) = false).
    { rewrite Hl2, Hl. unfold OSetGen_Size in *. rewrite oset_place_length.
      destruct (Z.gtb_spec
                  (Z.of_nat (S (List.length (pmat_cache_entries (pmem m)))))
                  (NUM_CACHE_ENTRIES (lim m))); [lia|reflexivity]. }
    rewrite Hfit2 in E. injection E as <-.
    apply maybe_simulate_crash_frame in H. destruct H as (Hc & _).
    exists (fresh_entry context a size value).
    split; [|split; [|split]].
    + rewrite Hc.
      cbn [pmem set_cache set_pmem with_cache_entries pmat_cache_entries].
      apply lookup_after_place; [|exact El].
      unfold cmp_pmat_cache_entries. apply Z.eqb_eq. rewrite zcmp_eq.
      apply Z.eqb_refl.
    + unfold fresh_entry. apply stored_into_holds; try assumption.
      reflexivity.
    + reflexivity.
    + intros i Hi Hout. unfold fresh_entry.
      destruct (stored_into_elsewhere context a size value
                  (mk_cache_entry 0 (TRIM_CACHELINE a) 0
                     (repeat 0 line_bytes)) i Hsz Hi Hout) as [B1 B2].
      rewrite B1, B2. cbn [data dirtyBits].
      split; [apply nth_repeat|apply Z.testbit_0_l].
Qed.

(** * The capacity check of a store *)

Lemma filter_twice {A} (f g : A -> bool) l :
  filter f (filter g l) = filter (fun x => g x && f x) l.
Proof.
  induction l as [|x l IH]; simpl; [reflexivity|].
  destruct (g x); simpl; [destruct (f x)|]; rewrite IH; reflexivity.
Qed.

(** The cache after a series of writebacks: the entries of the lines that
    were not written back. *)
Lemma writeback_all_cache running arr : forall m m',
  writeback_all running arr m = Some m' ->
  pmat_cache_entries (pmem m')
  = filter (fun x => negb (existsb (fun v => addr v =? addr x) arr))
      (pmat_cache_entries (pmem m)).
Proof.
  induction arr as [|e arr IH]; simpl; intros m m' H.
  - injection H as <-. symmetry. apply filter_id. reflexivity.
  - bind_inv H. apply do_writeback_effect in E. destruct E as (Hc & _).
    rewrite (IH _ _ H), Hc, filter_twice. apply filter_ext.
    intros x. rewrite negb_orb. reflexivity.
Qed.

(** The victims depend on the world through its random stream only. *)
Lemma select_random_stream {E} (pick : Z -> bool) (t : list E) : forall w w',
  w_random w = w_random w' -> w_drawn w = w_drawn w' ->
  fst (select_random pick t w) = fst (select_random pick t w').
Proof.
  induction t as [|e t IH]; intros w w' Hr Hd; simpl; [reflexivity|].
  specialize (IH (snd (VG_random w)) (snd (VG_random w'))).
  unfold VG_random in *. cbn [fst snd w_random w_drawn] in *.
  rewrite Hr, Hd in *. specialize (IH eq_refl eq_refl).
  destruct (select_random pick t _) as [vs w2].
  destruct (select_random pick t _) as [vs' w2'].
  cbn [fst] in *. rewrite IH. reflexivity.
Qed.

Lemma warn_if_split_stream a size m :
  w_random (sys (warn_if_split a size m)) = w_random (sys m)
  /\ w_drawn (sys (warn_if_split a size m)) = w_drawn (sys m).
Proof.
  unfold warn_if_split.
  destruct (TRIM_CACHELINE a =? _); destruct (OFFSET_CACHELINE a >? _);
    split; reflexivity.
Qed.

Lemma note_spill_stream line spill m :
  w_random (sys (note_spill line spill m)) = w_random (sys m)
  /\ w_drawn (sys (note_spill line spill m)) = w_drawn (sys m).
Proof. unfold note_spill. destruct spill; split; reflexivity. Qed.

(** Where the victims of the capacity check end up: each waits in the
    write buffer under the running thread, unless the overflow check of
    the write buffer has written it to its file. *)
Lemma capacity_victims T m m' victims w :
  sound m ->
  select_random (fun r => negb (r mod 2 =? 0))
    (pmat_cache_entries (pmem m)) (sys m) = (victims, w) ->
  writeback_all T victims (set_sys w m) = Some m' ->
  forall v, In v victims ->
    In (mk_wb_entry v T) (pmat_write_buffer_entries (pmem m'))
    \/ (persisted m' v /\ ~ line_in_write_buffer m' (addr v)).
Proof.
  intros Hs Es H v Hv.
  pose proof (select_random_incl (fun r => negb (r mod 2 =? 0))
                (pmat_cache_entries (pmem m)) (sys m)) as Hincl.
  pose proof (select_random_world (fun r => negb (r mod 2 =? 0))
                (pmat_cache_entries (pmem m)) (sys m)) as (Hwf & Hwd & _).
  rewrite Es in Hincl, Hwf, Hwd. cbn [fst snd] in *.
  pose proof Hs as [Hok Hdf]. pose proof Hok as (Hc & _ & Hnc & _).
  rewrite Forall_forall in Hc.
  assert (Hin : In v (pmat_cache_entries (pmem m))) by apply Hincl, Hv.
  destruct (writeback_all_keeps T v victims (set_sys w m) m') as [Hway _];
    try assumption.
  - eapply sound_same; [| | | |exact Hs]; auto.
  - apply Hc, Hin.
  - apply Forall_forall. intros x Hx. apply Hc, Hincl, Hx.
  - apply Forall_forall. intros x Hx.
    destruct (Z.eq_dec (addr x) (addr v)) as [Heq|Hne]; [left|right; exact Hne].
    eapply NoDup_map_inj; [exact Hnc|apply Hincl, Hx|exact Hin|exact Heq].
  - left. exact Hin.
  - destruct Hway as [Hcache|[[Hb _]|(Hp & _ & Hnb)]].
    + exfalso. rewrite (writeback_all_cache _ _ _ _ H) in Hcache.
      apply filter_In in Hcache. destruct Hcache as [_ Hf].
      apply negb_true_iff in Hf.
      assert (Ht : existsb (fun x => addr x =? addr v) victims = true).
      { apply existsb_exists. exists v. split; [exact Hv|apply Z.eqb_refl]. }
      congruence.
    + left. exact Hb.
    + right. split; assumption.
Qed.

(** C5, amended.  A store to a tracked, non-transient address whose line has
    no cache entry inserts the new entry, performs the capacity check on the
    cache so enlarged and then makes the crash check.  The capacity check
    does nothing while the cache holds no more than [NUM_CACHE_ENTRIES]
    entries.  When it holds more, one draw of the random stream per entry,
    in the order of the cache, chooses the victims; each victim is written
    back as a flush writes a line back, and the cache is left with the
    entries that are not victims.  On a well-formed machine whose regions
    have files of their own each victim then waits in the write buffer
    under the running thread, or has its dirty bytes in its file.  A store
    whose line already has a cache entry updates that entry and returns:
    the number of cache entries, the write buffer, the random stream and
    the counters are as before, and no crash check is made. *)
Theorem store_capacity_then_crash_check running context a size value m m' :
  is_pmem_access a size m = Some true ->
  trace_pmem_store running context a size value m = Some m' ->
  match OSetGen_Lookup cmp_pmat_cache_entries (pmat_cache_entries (pmem m))
          (store_key a) with
  | None =>
      exists m1 m2 victims w,
        pmat_cache_entries (pmem m1)
        = oset_place cmp_pmat_cache_entries
            (fresh_entry context a size value) (pmat_cache_entries (pmem m))
        /\ pmat_write_buffer_entries (pmem m1)
           = pmat_write_buffer_entries (pmem m)
        /\ lim m1 = lim m
        /\ cache_capacity_check running m1 = Some m2
        /\ select_random (fun r => negb (r mod 2 =? 0))
             (pmat_cache_entries (pmem m1)) (sys m1) = (victims, w)
        /\ victims
           = fst (select_random (fun r => negb (r mod 2 =? 0))
                    (pmat_cache_entries (pmem m1)) (sys m))
        /\ (if OSetGen_Size (pmat_cache_entries (pmem m1))
               >? NUM_CACHE_ENTRIES (lim m)
            then
              writeback_all running victims (set_sys w m1) = Some m2
              /\ pmat_cache_entries (pmem m2)
                 = filter
                     (fun x => negb (existsb (fun v => addr v =? addr x)
                                       victims))
                     (pmat_cache_entries (pmem m1))
              /\ (machine_ok m -> distinct_files m ->
                  word a -> 1 <= size <= 8 ->
                  forall v, In v victims ->
                    In (mk_wb_entry v running)
                      (pmat_write_buffer_entries (pmem m2))
                    \/ (persisted m2 v
                        /\ ~ line_in_write_buffer m2 (addr v)))
            else m2 = m1)
        /\ maybe_simulate_crash m2 = Some m'
        /\ In CrashCheck (events_since m m')
  | Some _ =>
      List.length (pmat_cache_entries (pmem m'))
      = List.length (pmat_cache_entries (pmem m))
      /\ pmat_write_buffer_entries (pmem m')
         = pmat_write_buffer_entries (pmem m)
      /\ w_drawn (sys m') = w_drawn (sys m)
      /\ pmat_num_verifications (pmem m') = pmat_num_verifications (pmem m)
      /\ ~ In CrashCheck (events_since m m')
  end.
Proof.
  intros Ht H0.
  pose proof (trace_pmem_store_cases _ _ _ _ _ _ _ Ht H0) as Hcases.
  destruct (OSetGen_Lookup cmp_pmat_cache_entries
              (pmat_cache_entries (pmem m)) (store_key a)) as [x|] eqn:El;
    [exact Hcases|].
  destruct Hcases as (_ & _ & _ & _ & _ & _ & _ & Hcheck).
  pose proof H0 as H. unfold trace_pmem_store in H.
  rewrite Ht in H. cbn [negb] in H.
  destruct (warn_if_split_frame a size m) as (Hp & Hl & _ & Hwd & _).
  destruct (warn_if_split_stream a size m) as (Hwr & Hwn).
  set (mw := warn_if_split a size m) in *. clearbody mw.
  rewrite Hp, El in H.
  destruct (note_spill_frame (TRIM_CACHELINE a) (store_spill a size value) mw)
    as (Hp2 & Hl2 & _ & Hd2 & _).
  destruct (note_spill_stream (TRIM_CACHELINE a) (store_spill a size value) mw)
    as (Hsr & Hsn).
  set (ms := note_spill _ _ mw) in *. clearbody ms.
  rewrite Hp2, Hp in H. unfold OSetGen_Insert in H.
  rewrite (cache_lookup_ext _ (fresh_entry context a size value)
             (store_key a) eq_refl), El in H.
  bind_inv H. rename m0 into m2.
  set (e := fresh_entry context a size value) in *.
  set (m1 := set_cache
               (oset_place cmp_pmat_cache_entries e
                  (pmat_cache_entries (pmem m))) ms) in *.
  assert (Hc1 : pmat_cache_entries (pmem m1)
                = oset_place cmp_pmat_cache_entries e
                    (pmat_cache_entries (pmem m))) by reflexivity.
  assert (Hb1 : pmat_write_buffer_entries (pmem m1)
                = pmat_write_buffer_entries (pmem m)).
  { subst m1. cbn [pmem set_cache set_pmem with_cache_entries
                     pmat_write_buffer_entries].
    rewrite Hp2, Hp. reflexivity. }
  assert (Hl1 : lim m1 = lim m).
  { subst m1. cbn [lim set_cache set_pmem]. congruence. }
  destruct (select_random (fun r => negb (r mod 2 =? 0))
              (pmat_cache_entries (pmem m1)) (sys m1)) as [victims w] eqn:Es.
  exists m1, m2, victims, w.
  split; [exact Hc1|]. split; [exact Hb1|]. split; [exact Hl1|].
  split; [exact E|]. split; [exact Es|]. split.
  { change victims with (fst (victims, w)). rewrite <- Es.
    apply select_random_stream; subst m1; cbn [sys set_cache set_pmem];
      congruence. }
  split; [|split; [exact H|exact Hcheck]].
  unfold cache_capacity_check in E. rewrite Es, Hl1 in E.
  destruct (_ >? _); [|injection E as <-; reflexivity].
  split; [exact E|]. split; [exact (writeback_all_cache _ _ _ _ E)|].
  intros Hok Hdf Ha Hsz.
  apply (capacity_victims running m1 m2 victims w); [|exact Es|exact E].
  pose proof Hok as (Hc & Hb & Hnc & Hnb).
  split.
  - unfold machine_ok. rewrite Hc1, Hb1. repeat split; try assumption.
    + apply oset_place_Forall; [apply fresh_entry_ok|]; assumption.
    + apply oset_place_NoDup; [|exact Hnc].
      intros Hin. apply in_map_iff in Hin. destruct Hin as (y & Hy & Hin).
      apply (cache_lookup_none _ _ El y Hin). rewrite Hy. reflexivity.
  - unfold distinct_files. subst m1.
    cbn [pmem sys set_cache set_pmem with_cache_entries
           pmat_registered_files].
    rewrite Hp2, Hd2, Hp, Hwd. exact Hdf.
Qed.

(** * The statistics in binary64 *)

Section Doubles.
Import Floats.
Local Open Scope Q_scope.





(** From 1.9 s to 3.1 s [diff] returns the [Double] next below 1.2: the
    quotient [200000000 / 1e9] is rounded, and so is the sum. *)
Example diff_rounds :
  Binary64.diff (mk_timespec 1 900000000) (mk_timespec 3 100000000)
  = 0x1.3333333333333p+0%float
  /\ ~ B2Q (Binary64.diff (mk_timespec 1 900000000)
              (mk_timespec 3 100000000)) == 6 # 5.
Proof. split; [vm_compute; reflexivity|vm_compute; discriminate]. Qed.

(** A loop that stalls never returns, whatever its fuel. *)
Lemma stalls_never_return k : forall number s,
  stalls k number s ->
  forall fuel, Binary64.sqrt_loop fuel number s = None.
Proof.
  induction k as [|k IH]; intros number s [Ht Hk] fuel.
  - induction fuel as [|fuel IHf]; [reflexivity|].
    cbn [Binary64.sqrt_loop]. rewrite Ht, Hk. exact IHf.
  - destruct fuel as [|fuel]; [reflexivity|].
    cbn [Binary64.sqrt_loop]. rewrite Ht. apply IH, Hk.
Qed.

(** X20.  In binary64 the loop of [sqrt] need not end: there is a finite
    number above 1 ([4.8e21]) for which the Newton step comes to rest at a
    value [s] whose [s - number / s] is still above [error], so that
    [sqrt] never returns. *)
Theorem sqrt_need_not_return :
  exists number,
    is_finite number = true
    /\ (1 <=? number)%float = true
    /\ forall fuel, Binary64.sqrt fuel number = None.
Proof.
  exists stalling_variance.
  split; [vm_compute; reflexivity|]. split; [vm_compute; reflexivity|].
  intros fuel. unfold Binary64.sqrt.
  apply (stalls_never_return 41).
  vm_compute. repeat split.
Qed.

(** X15.  The time that [diff] converts to seconds is the time from
    [start] to [end]: for readings of the clock that are not negative, with
    nanosecond fields below a second and [end] not before [start], the
    [temp] that [diff] builds in either of its branches has a second field
    that is not negative and a nanosecond field below a second, and stands
    for exactly the nanoseconds between the two readings; [diff] returns
    its second field plus its nanosecond field over [1e9], in [Double]s. *)
Theorem diff_converts_the_elapsed_time start end_ :
  (0 <= tv_sec start)%Z -> (tv_sec end_ < 2 ^ 63)%Z ->
  (0 <= tv_nsec start < 1000000000)%Z ->
  (0 <= tv_nsec end_ < 1000000000)%Z ->
  (tv_sec start < tv_sec end_
   \/ (tv_sec start = tv_sec end_ /\ tv_nsec start <= tv_nsec end_))%Z ->
  let temp := Binary64.diff_temp start end_ in
  (0 <= tv_sec temp
   /\ 0 <= tv_nsec temp < 1000000000
   /\ tv_sec temp * 1000000000 + tv_nsec temp
      = (tv_sec end_ * 1000000000 + tv_nsec end_)
        - (tv_sec start * 1000000000 + tv_nsec start))%Z
  /\ Binary64.diff start end_
     = (Binary64.Double_of_Word (tv_sec temp)
        + Binary64.Double_of_Word (tv_nsec temp) / 1000000000)%float.
Proof.
  intros Hs He Hns Hne Hord temp. split; [|reflexivity].
  subst temp. unfold Binary64.diff_temp.
  assert (Hw : forall z, (- 2 ^ 63 <= z < 2 ^ 63)%Z -> sword64 z = z).
  { intros z Hz. unfold sword64. rewrite Z.mod_small by lia. lia. }
  rewrite (Hw (tv_nsec end_ - tv_nsec start)%Z) by lia.
  destruct (Z.ltb_spec (tv_nsec end_ - tv_nsec start) 0);
    cbn [tv_sec tv_nsec].
  - rewrite (Hw (tv_sec end_ - tv_sec start)%Z) by lia.
    rewrite (Hw (tv_sec end_ - tv_sec start - 1)%Z) by lia.
    rewrite (Hw (1000000000 + tv_nsec end_)%Z) by lia.
    rewrite (Hw (1000000000 + tv_nsec end_ - tv_nsec start)%Z) by lia.
    lia.
  - rewrite (Hw (tv_sec end_ - tv_sec start)%Z) by lia.
    lia.
Qed.

End Doubles.

(** ** The scenarios of the specification *)

(** A store that is never flushed: one dirty line, the file is zeros. *)
Example scenario_store_only :
  observe (run [register_r1; store_8 7 4096 0x1122334455667788] plain_machine)
  = Some ([4096], [], [0; 0; 0; 0; 0; 0; 0; 0; 0; 0]).
Proof. vm_compute. reflexivity. Qed.

(** Store, flush, fence: nothing pending, the value is in the file, least
    significant byte first. *)
Example scenario_store_flush_fence :
  observe (run [register_r1; store_8 7 4096 0x1122334455667788;
                Flush 1 4096; Fence 1] plain_machine)
  = Some ([], [], [0x88; 0x77; 0x66; 0x55; 0x44; 0x33; 0x22; 0x11; 0; 0]).
Proof. vm_compute. reflexivity. Qed.

(** Two stores into one line are merged by the writeback. *)
Example scenario_two_stores :
  observe (run [register_r1; Store 1 7 4096 4 0xAAAAAAAA;
                Store 1 7 (4096 + 4) 4 0xBBBBBBBB;
                Flush 1 4096; Fence 1] plain_machine)
  = Some ([], [], [0xAA; 0xAA; 0xAA; 0xAA; 0xBB; 0xBB; 0xBB; 0xBB; 0; 0]).
Proof. vm_compute. reflexivity. Qed.

(** A fence on another thread leaves the flushed line pending. *)
Example scenario_fence_of_other_thread :
  observe (run [register_r1; store_8 7 4096 1; Flush 1 4096; Fence 2]
             plain_machine)
  = Some ([], [(4096, 1)], [0; 0; 0; 0; 0; 0; 0; 0; 0; 0]).
Proof. vm_compute. reflexivity. Qed.

(** ** The properties at work on small runs *)

Lemma reached_stored_machine : reached stored_machine.
Proof.
  unfold stored_machine.
  destruct (run _ plain_machine) as [m|] eqn:Em; simpl.
  - eapply reached_plain_run; [|exact Em]. unfold store_8. calls_ok.
  - apply reached_init.
Qed.

Lemma reached_flushed_machine : reached flushed_machine.
Proof.
  unfold flushed_machine.
  destruct (run _ plain_machine) as [m|] eqn:Em; simpl.
  - eapply reached_plain_run; [|exact Em]. unfold store_8. calls_ok.
  - apply reached_init.
Qed.

Lemma clean_bytes_are_zero_witness :
  reached stored_machine
  /\ forall e, In e (pmat_cache_entries (pmem stored_machine)) ->
     forall i, (i < line_bytes)%nat -> clean e i -> nth i (data e) 0 = 0.
Proof.
  split; [exact reached_stored_machine|].
  apply (clean_bytes_are_zero stored_machine reached_stored_machine).
Defined.

Lemma disjoint_unless_store_to_flushed_line_witness :
  step (store_8 9 4096 2) flushed_machine
  = Some (or_else (step (store_8 9 4096 2) flushed_machine) flushed_machine)
  /\ disjoint flushed_machine
  /\ line_in_cache
       (or_else (step (store_8 9 4096 2) flushed_machine) flushed_machine) 4096
  /\ line_in_write_buffer
       (or_else (step (store_8 9 4096 2) flushed_machine) flushed_machine) 4096.
Proof.
  assert (Hs : step (store_8 9 4096 2) flushed_machine
               = Some (or_else (step (store_8 9 4096 2) flushed_machine)
                         flushed_machine)) by (vm_compute; reflexivity).
  assert (Hd : disjoint flushed_machine).
  { intros a [Hc _]. vm_compute in Hc. exact Hc. }
  split; [exact Hs|]. split; [exact Hd|].
  pose proof (disjoint_unless_store_to_flushed_line
                (store_8 9 4096 2) flushed_machine _ Hs Hd) as H.
  cbn [store_8] in H. destruct H as [_ H].
  destruct H as (Hc & Hb & _).
  - vm_compute. left. reflexivity.
  - vm_compute. reflexivity.
  - vm_compute. reflexivity.
  - split; [exact Hc|exact Hb].
Defined.

Lemma fence_scope_witness :
  reached flushed_machine
  /\ distinct_files flushed_machine
  /\ do_fence 1 flushed_machine
     = Some (or_else (do_fence 1 flushed_machine) flushed_machine)
  /\ pmat_write_buffer_entries
       (pmem (or_else (do_fence 1 flushed_machine) flushed_machine))
     = filter (fun w => negb (tid w =? 1))
         (pmat_write_buffer_entries (pmem flushed_machine)).
Proof.
  assert (Hd : distinct_files flushed_machine).
  { intros r1 r2 p H1 H2 _ _. vm_compute in H1, H2.
    destruct H1 as [<-|[]], H2 as [<-|[]]. reflexivity. }
  assert (Hf : do_fence 1 flushed_machine
               = Some (or_else (do_fence 1 flushed_machine) flushed_machine))
    by (vm_compute; reflexivity).
  split; [exact reached_flushed_machine|]. split; [exact Hd|].
  split; [exact Hf|].
  apply (fence_scope 1 flushed_machine _ reached_flushed_machine Hd Hf).
Defined.

(** A second line stored into a cache that holds one: both entries are
    chosen and leave the cache. *)
Lemma store_capacity_then_crash_check_witness :
  is_pmem_access (4096 + 64) 8 narrow_machine = Some true
  /\ trace_pmem_store 1 7 (4096 + 64) 8 2 narrow_machine
     = Some (or_else (trace_pmem_store 1 7 (4096 + 64) 8 2 narrow_machine)
               narrow_machine)
  /\ exists m2 victims,
       victims = [fresh_entry 7 4096 8 1; fresh_entry 7 (4096 + 64) 8 2]
       /\ pmat_cache_entries (pmem m2) = []
       /\ maybe_simulate_crash m2
          = Some (or_else
                    (trace_pmem_store 1 7 (4096 + 64) 8 2 narrow_machine)
                    narrow_machine)
       /\ In CrashCheck
            (events_since narrow_machine
               (or_else (trace_pmem_store 1 7 (4096 + 64) 8 2 narrow_machine)
                  narrow_machine)).
Proof.
  assert (Ha : is_pmem_access (4096 + 64) 8 narrow_machine = Some true)
    by (vm_compute; reflexivity).
  assert (Hs : trace_pmem_store 1 7 (4096 + 64) 8 2 narrow_machine
               = Some (or_else
                         (trace_pmem_store 1 7 (4096 + 64) 8 2 narrow_machine)
                         narrow_machine)) by (vm_compute; reflexivity).
  split; [exact Ha|]. split; [exact Hs|].
  pose proof (store_capacity_then_crash_check 1 7 (4096 + 64) 8 2
                narrow_machine _ Ha Hs) as H.
  assert (Hl : OSetGen_Lookup cmp_pmat_cache_entries
                 (pmat_cache_entries (pmem narrow_machine))
                 (store_key (4096 + 64)) = None) by (vm_compute; reflexivity).
  rewrite Hl in H.
  destruct H as (m1 & m2 & victims & w & Hc1 & _ & _ & _ & _ & Hv & Hif
                 & Hcrash & Hin).
  rewrite Hc1 in Hv, Hif.
  assert (Hvs : fst (select_random (fun r => negb (r mod 2 =? 0))
                       (oset_place cmp_pmat_cache_entries
                          (fresh_entry 7 (4096 + 64) 8 2)
                          (pmat_cache_entries (pmem narrow_machine)))
                       (sys narrow_machine))
                = [fresh_entry 7 4096 8 1; fresh_entry 7 (4096 + 64) 8 2])
    by (vm_compute; reflexivity).
  assert (Hgt : (OSetGen_Size
                   (oset_place cmp_pmat_cache_entries
                      (fresh_entry 7 (4096 + 64) 8 2)
                      (pmat_cache_entries (pmem narrow_machine)))
                 >? NUM_CACHE_ENTRIES (lim narrow_machine)) = true)
    by (vm_compute; reflexivity).
  rewrite Hvs in Hv. rewrite Hgt in Hif. destruct Hif as (_ & Hc2 & _).
  subst victims.
  assert (Hf : filter
                 (fun x => negb (existsb (fun v => addr v =? addr x)
                                   [fresh_entry 7 4096 8 1;
                                    fresh_entry 7 (4096 + 64) 8 2]))
                 (oset_place cmp_pmat_cache_entries
                    (fresh_entry 7 (4096 + 64) 8 2)
                    (pmat_cache_entries (pmem narrow_machine))) = [])
    by (vm_compute; reflexivity).
  rewrite Hf in Hc2.
  exists m2, [fresh_entry 7 4096 8 1; fresh_entry 7 (4096 + 64) 8 2].
  split; [reflexivity|]. split; [exact Hc2|]. split; [exact Hcrash|exact Hin].
Defined.

Lemma simulate_crash_classifies_witness :
  pmat_verifier (pmem eager_registered) = Some "/bin/false"
  /\ pmat_registered_files (pmem eager_registered) <> []
  /\ exists m',
       simulate_crash eager_registered = Some m'
       /\ pmat_num_verifications (pmem m') = 1
       /\ pmat_num_bad_verifications (pmem m') = 1
       /\ events_since eager_registered m'
          = [Exec "/bin/cp" ["cp"; "r1"; "r1.1.bad"; "--reflink=auto"]].
Proof.
  assert (Hv : pmat_verifier (pmem eager_registered) = Some "/bin/false")
    by (vm_compute; reflexivity).
  assert (Hf : pmat_registered_files (pmem eager_registered) <> [])
    by (vm_compute; discriminate).
  assert (Hk : 0 <= pmat_num_verifications (pmem eager_registered)
               < 2 ^ 31 - 1) by (vm_compute; split; [discriminate|reflexivity]).
  assert (Hb : 0 <= pmat_num_bad_verifications (pmem eager_registered)
               < 2 ^ 63 - 1) by (vm_compute; split; [discriminate|reflexivity]).
  split; [exact Hv|]. split; [exact Hf|].
  destruct (simulate_crash_classifies eager_registered "/bin/false"
              Hv Hf Hk Hb) as (Hex & _ & _).
  destruct (Hex eq_refl) as (m' & Hs & Hn & Hrest).
  exists m'. split; [exact Hs|]. split; [exact Hn|].
  assert (Hst : (VKI_WEXITSTATUS
                   (cr_retval
                      (w_verifier_runs (sys eager_registered)
                         (pmat_num_verifications (pmem eager_registered))))
                 =? 0) = false) by (vm_compute; reflexivity).
  rewrite Hst in Hrest. exact Hrest.
Defined.

Lemma register_creates_backing_file_witness :
  TRIM_CACHELINE 4096 = 4096
  /\ exists m' f,
       pmat_handle_client_request 1 (PMC_PMAT_REGISTER (Some "r1") 4096 128)
         plain_machine = Some (true, m')
       /\ w_files (sys m') "r1" = Some f
       /\ List.length (f_bytes f) = 128%nat
       /\ f_mode f = 420.
Proof.
  split; [reflexivity|].
  destruct (register_creates_backing_file 1 "r1" 4096 128 plain_machine)
    as (m' & f & Hr & Hf & _ & Hlen & Hmode & _).
  - reflexivity.
  - lia.
  - reflexivity.
  - vm_compute. discriminate.
  - reflexivity.
  - exists m', f. repeat split; assumption.
Defined.

Lemma transient_request_witness :
  pmat_registered_files (pmem registered_machine) <> []
  /\ (forall r, In r (pmat_registered_files (pmem registered_machine)) ->
        rf_size r <> 0
        /\ ~ (rf_addr r <= 8192 <= wrap64 (rf_addr r + rf_size r)))
  /\ pmat_handle_client_request 1 (PMC_PMAT_TRANSIENT 8192 8)
       registered_machine = Some (true, registered_machine)
  /\ lookup_file (4096 + 64) registered_machine
     = Some (Some (mk_registered_file "r1" 4096 128 3))
  /\ exists m',
       pmat_handle_client_request 1 (PMC_PMAT_TRANSIENT (4096 + 64) 8)
         registered_machine = Some (true, m')
       /\ OSetGen_Contains cmp_pmat_transient_entries
            (pmat_transient_addresses (pmem m'))
            (mk_transient_entry (4096 + 64) 8) = true.
Proof.
  assert (Hne : pmat_registered_files (pmem registered_machine) <> [])
    by (vm_compute; discriminate).
  assert (Hout : forall r,
             In r (pmat_registered_files (pmem registered_machine)) ->
             rf_size r <> 0
             /\ ~ (rf_addr r <= 8192 <= wrap64 (rf_addr r + rf_size r))).
  { intros r Hr. vm_compute in Hr. destruct Hr as [<-|[]]. split.
    - vm_compute. discriminate.
    - vm_compute. intros [_ Hle]. apply Hle. reflexivity. }
  assert (Hl : lookup_file (4096 + 64) registered_machine
               = Some (Some (mk_registered_file "r1" 4096 128 3)))
    by (vm_compute; reflexivity).
  split; [exact Hne|]. split; [exact Hout|].
  destruct (transient_request 1 8192 8 registered_machine) as (Hnoop & _).
  split; [exact (Hnoop Hne (or_intror Hout))|].
  split; [exact Hl|].
  destruct (transient_request 1 (4096 + 64) 8 registered_machine)
    as (_ & Hadd & _).
  apply Hadd. right. eexists. exact Hl.
Defined.

(** The flush of a line that the full write buffer already holds: the
    entry the buffer has for the other line stays, and so does the other
    line's entry in the cache. *)
Lemma do_flush_moves_one_line_witness :
  do_flush 1 4096 64 refilled_machine
  = Some (or_else (do_flush 1 4096 64 refilled_machine) refilled_machine)
  /\ OSetGen_Size (pmat_write_buffer_entries (pmem refilled_machine))
     = NUM_WB_ENTRIES (lim refilled_machine)
  /\ wb_size_after_move 4096 refilled_machine
     <= NUM_WB_ENTRIES (lim refilled_machine)
  /\ pmat_cache_entries
       (pmem (or_else (do_flush 1 4096 64 refilled_machine) refilled_machine))
     = [fresh_entry 7 (4096 + 64) 8 4]
  /\ In (mk_wb_entry (fresh_entry 7 (4096 + 64) 8 2) 1)
       (pmat_write_buffer_entries
          (pmem (or_else (do_flush 1 4096 64 refilled_machine)
                   refilled_machine))).
Proof.
  assert (H : do_flush 1 4096 64 refilled_machine
              = Some (or_else (do_flush 1 4096 64 refilled_machine)
                        refilled_machine)) by (vm_compute; reflexivity).
  assert (Hfull : OSetGen_Size
                    (pmat_write_buffer_entries (pmem refilled_machine))
                  = NUM_WB_ENTRIES (lim refilled_machine))
    by (vm_compute; reflexivity).
  assert (Hfit : wb_size_after_move 4096 refilled_machine
                 <= NUM_WB_ENTRIES (lim refilled_machine))
    by (vm_compute; discriminate).
  assert (Hin : In (mk_wb_entry (fresh_entry 7 (4096 + 64) 8 2) 1)
                  (pmat_write_buffer_entries (pmem refilled_machine)))
    by (vm_compute; right; left; reflexivity).
  assert (Hne : wb_addr (mk_wb_entry (fresh_entry 7 (4096 + 64) 8 2) 1)
                <> TRIM_CACHELINE 4096) by (vm_compute; discriminate).
  assert (Hc : filter (fun e => negb (TRIM_CACHELINE 4096 =? addr e))
                 (pmat_cache_entries (pmem refilled_machine))
               = [fresh_entry 7 (4096 + 64) 8 4])
    by (vm_compute; reflexivity).
  split; [exact H|]. split; [exact Hfull|]. split; [exact Hfit|].
  destruct (do_flush_moves_one_line 1 4096 64 refilled_machine _ H)
    as (_ & Hcache & _ & Hrest).
  destruct (Hrest Hfit) as (Hstay & _).
  split; [rewrite Hcache; exact Hc|].
  exact (Hstay _ Hin Hne).
Defined.

(** ** The further properties at work on small runs *)

Lemma reached_registered_machine : reached registered_machine.
Proof.
  unfold registered_machine.
  destruct (run _ plain_machine) as [m|] eqn:Em; simpl.
  - eapply reached_plain_run; [|exact Em]. calls_ok.
  - apply reached_init.
Qed.

Lemma distinct_files_registered_machine : distinct_files registered_machine.
Proof.
  intros r1 r2 p H1 H2 _ _. vm_compute in H1, H2.
  destruct H1 as [<-|[]], H2 as [<-|[]]. reflexivity.
Qed.

(** The first address past the end of [r1] counts as tracked. *)
Lemma tracked_iff_inside_single_region_witness :
  pmat_registered_files (pmem registered_machine)
  = [mk_registered_file "r1" 4096 128 3]
  /\ rf_size (mk_registered_file "r1" 4096 128 3) <> 0
  /\ pmat_transient_addresses (pmem registered_machine) = []
  /\ is_pmem_access (4096 + 128) 8 registered_machine = Some true.
Proof.
  assert (H1 : pmat_registered_files (pmem registered_machine)
               = [mk_registered_file "r1" 4096 128 3])
    by (vm_compute; reflexivity).
  assert (H2 : rf_size (mk_registered_file "r1" 4096 128 3) <> 0)
    by (vm_compute; discriminate).
  assert (H3 : pmat_transient_addresses (pmem registered_machine) = [])
    by (vm_compute; reflexivity).
  split; [exact H1|]. split; [exact H2|]. split; [exact H3|].
  rewrite (tracked_iff_inside_single_region (4096 + 128) 8 _
             registered_machine H1 H2 H3).
  reflexivity.
Defined.

Lemma store_outside_regions_is_noop_witness :
  (forall r, In r (pmat_registered_files (pmem registered_machine)) ->
     rf_size r <> 0
     /\ ~ (rf_addr r <= 8192 <= wrap64 (rf_addr r + rf_size r)))
  /\ trace_pmem_store 1 7 8192 8 1 registered_machine
     = Some registered_machine.
Proof.
  assert (H : forall r, In r (pmat_registered_files (pmem registered_machine))
                -> rf_size r <> 0
                   /\ ~ (rf_addr r <= 8192
                         <= wrap64 (rf_addr r + rf_size r))).
  { intros r Hr. vm_compute in Hr. destruct Hr as [<-|[]]. split.
    - vm_compute. discriminate.
    - vm_compute. intros [_ Hle]. apply Hle. reflexivity. }
  split; [exact H|].
  exact (store_outside_regions_is_noop 1 7 8192 8 1 registered_machine H).
Defined.

Lemma zero_size_region_aborts_witness :
  pmat_registered_files (pmem plain_machine) = []
  /\ pmat_handle_client_request 1 (PMC_PMAT_REGISTER (Some "r0") 4096 0)
       plain_machine = Some (true, empty_region_machine)
  /\ forall T context a size value,
       trace_pmem_store T context a size value empty_region_machine = None.
Proof.
  assert (H0 : pmat_registered_files (pmem plain_machine) = [])
    by reflexivity.
  assert (H1 : pmat_handle_client_request 1
                 (PMC_PMAT_REGISTER (Some "r0") 4096 0) plain_machine
               = Some (true, empty_region_machine))
    by (vm_compute; reflexivity).
  split; [exact H0|]. split; [exact H1|].
  destruct (zero_size_region_aborts 1 "r0" 4096 plain_machine _ H0 H1)
    as (H & _).
  exact H.
Defined.

(** The writeback of a line of [r1] leaves the file at its 128 bytes. *)
Lemma write_to_file_merges_witness :
  write_to_file pending_line registered_machine = Some written_machine
  /\ exists f',
       w_files (sys written_machine) "r1" = Some f'
       /\ List.length (f_bytes f') = 128%nat.
Proof.
  assert (H : write_to_file pending_line registered_machine
              = Some written_machine) by (vm_compute; reflexivity).
  split; [exact H|].
  destruct (write_to_file_merges pending_line registered_machine _ H)
    as (path & off & f & f' & Hs & Hf & Hf' & _ & Hlen & _).
  vm_compute in Hs. injection Hs as <- <-.
  exists f'. split; [exact Hf'|].
  rewrite Hlen. vm_compute in Hf. injection Hf as <-. reflexivity.
Defined.

Lemma store_flush_fence_persists_witness :
  reached registered_machine
  /\ distinct_files registered_machine
  /\ word 4096 /\ 1 <= 8 <= 8
  /\ OFFSET_CACHELINE 4096 + 8 <= 64
  /\ is_pmem_access 4096 8 registered_machine = Some true
  /\ run [Store 1 7 4096 8 0x1122334455667788; Flush 1 4096; Fence 1]
       registered_machine = Some persisted_machine
  /\ forall i, (i < Z.to_nat 8)%nat ->
       backing_byte persisted_machine (store_key 4096)
         (Z.to_nat (OFFSET_CACHELINE 4096) + i)
       = Some (value_byte 0x1122334455667788 8 i).
Proof.
  assert (Hw : word 4096) by (unfold word; lia).
  assert (Hs : 1 <= 8 <= 8) by lia.
  assert (Ho : OFFSET_CACHELINE 4096 + 8 <= 64)
    by (vm_compute; discriminate).
  assert (Ha : is_pmem_access 4096 8 registered_machine = Some true)
    by (vm_compute; reflexivity).
  assert (Hr : run [Store 1 7 4096 8 0x1122334455667788; Flush 1 4096;
                    Fence 1] registered_machine = Some persisted_machine)
    by (vm_compute; reflexivity).
  repeat (split; [first [exact reached_registered_machine
                        |exact distinct_files_registered_machine
                        |exact Hw|exact Hs|exact Ho|exact Ha|exact Hr]|]).
  exact (store_flush_fence_persists 1 7 4096 8 0x1122334455667788
           registered_machine persisted_machine
           reached_registered_machine distinct_files_registered_machine
           Hw Hs Ho Ha Hr).
Defined.

Lemma store_flush_with_fence_persists_witness :
  reached registered_machine
  /\ distinct_files registered_machine
  /\ word 4096 /\ 1 <= 8 <= 8
  /\ OFFSET_CACHELINE 4096 + 8 <= 64
  /\ is_pmem_access 4096 8 registered_machine = Some true
  /\ run [Store 1 7 4096 8 0x1122334455667788; FlushFence 1 4096]
       registered_machine = Some flush_fenced_machine
  /\ forall i, (i < Z.to_nat 8)%nat ->
       backing_byte flush_fenced_machine (store_key 4096)
         (Z.to_nat (OFFSET_CACHELINE 4096) + i)
       = Some (value_byte 0x1122334455667788 8 i).
Proof.
  assert (Hw : word 4096) by (unfold word; lia).
  assert (Hs : 1 <= 8 <= 8) by lia.
  assert (Ho : OFFSET_CACHELINE 4096 + 8 <= 64)
    by (vm_compute; discriminate).
  assert (Ha : is_pmem_access 4096 8 registered_machine = Some true)
    by (vm_compute; reflexivity).
  assert (Hr : run [Store 1 7 4096 8 0x1122334455667788; FlushFence 1 4096]
                 registered_machine = Some flush_fenced_machine)
    by (vm_compute; reflexivity).
  repeat (split; [first [exact reached_registered_machine
                        |exact distinct_files_registered_machine
                        |exact Hw|exact Hs|exact Ho|exact Ha|exact Hr]|]).
  exact (store_flush_with_fence_persists 1 7 4096 8 0x1122334455667788
           registered_machine flush_fenced_machine
           reached_registered_machine distinct_files_registered_machine
           Hw Hs Ho Ha Hr).
Defined.

Lemma store_leaves_files_witness :
  OSetGen_Size (pmat_cache_entries (pmem registered_machine))
  < NUM_CACHE_ENTRIES (lim registered_machine)
  /\ trace_pmem_store 1 7 4096 8 1 registered_machine = Some stored_machine
  /\ w_files (sys stored_machine) = w_files (sys registered_machine)
  /\ pmat_write_buffer_entries (pmem stored_machine)
     = pmat_write_buffer_entries (pmem registered_machine).
Proof.
  assert (Hc : OSetGen_Size (pmat_cache_entries (pmem registered_machine))
               < NUM_CACHE_ENTRIES (lim registered_machine))
    by (vm_compute; reflexivity).
  assert (Hs : trace_pmem_store 1 7 4096 8 1 registered_machine
               = Some stored_machine) by (vm_compute; reflexivity).
  split; [exact Hc|]. split; [exact Hs|].
  exact (store_leaves_files 1 7 4096 8 1 registered_machine stored_machine
           Hc Hs).
Defined.

Lemma flush_moves_line_to_write_buffer_witness :
  OSetGen_Lookup cmp_pmat_cache_entries
    (pmat_cache_entries (pmem stored_machine)) (store_key 4096)
  = Some (fresh_entry 7 4096 8 1)
  /\ ~ line_in_write_buffer stored_machine (TRIM_CACHELINE 4096)
  /\ OSetGen_Size (pmat_write_buffer_entries (pmem stored_machine))
     < NUM_WB_ENTRIES (lim stored_machine)
  /\ trace_pmem_flush 1 4096 stored_machine = Some flushed_machine
  /\ pmat_write_buffer_entries (pmem flushed_machine)
     = oset_place cmp_pmat_write_buffer_entries pending_line
         (pmat_write_buffer_entries (pmem stored_machine)).
Proof.
  assert (Hl : OSetGen_Lookup cmp_pmat_cache_entries
                 (pmat_cache_entries (pmem stored_machine)) (store_key 4096)
               = Some (fresh_entry 7 4096 8 1)) by (vm_compute; reflexivity).
  assert (Hn : ~ line_in_write_buffer stored_machine (TRIM_CACHELINE 4096)).
  { intro H. vm_compute in H. exact H. }
  assert (Hc : OSetGen_Size (pmat_write_buffer_entries (pmem stored_machine))
               < NUM_WB_ENTRIES (lim stored_machine))
    by (vm_compute; reflexivity).
  assert (Hf : trace_pmem_flush 1 4096 stored_machine = Some flushed_machine)
    by (vm_compute; reflexivity).
  split; [exact Hl|]. split; [exact Hn|]. split; [exact Hc|].
  split; [exact Hf|].
  destruct (flush_moves_line_to_write_buffer 1 4096 _ stored_machine
              flushed_machine Hl Hn Hc Hf) as (H & _).
  exact H.
Defined.

(** Unregistering [r1] by the first address past its end. *)
Lemma register_then_unregister_witness :
  128 <> 0
  /\ 4096 <= 4224 <= wrap64 (4096 + 128)
  /\ lookup_file 4224 plain_machine = Some None
  /\ pmat_handle_client_request 1 (PMC_PMAT_REGISTER (Some "r1") 4096 128)
       plain_machine = Some (true, registered_machine)
  /\ exists m2,
       pmat_handle_client_request 1 (PMC_PMAT_UNREGISTER_BY_ADDR 4224)
         registered_machine = Some (true, m2)
       /\ pmat_registered_files (pmem m2)
          = pmat_registered_files (pmem plain_machine)
       /\ sys m2 = sys registered_machine.
Proof.
  assert (H0 : 128 <> 0) by discriminate.
  assert (H1 : 4096 <= 4224 <= wrap64 (4096 + 128))
    by (vm_compute; split; discriminate).
  assert (H2 : lookup_file 4224 plain_machine = Some None)
    by (vm_compute; reflexivity).
  assert (H3 : pmat_handle_client_request 1
                 (PMC_PMAT_REGISTER (Some "r1") 4096 128) plain_machine
               = Some (true, registered_machine))
    by (vm_compute; reflexivity).
  split; [exact H0|]. split; [exact H1|]. split; [exact H2|].
  split; [exact H3|].
  exact (register_then_unregister 1 "r1" 4096 128 4224 plain_machine
           registered_machine H0 H1 H2 H3).
Defined.

(** The line stored into [r1] cannot be flushed once [r1] is gone. *)
Lemma unregister_orphans_pending_lines_witness :
  pmat_handle_client_request 1 (PMC_PMAT_UNREGISTER_BY_ADDR 4096)
    stored_machine = Some (true, orphaned_machine)
  /\ lookup_file (TRIM_CACHELINE 4096) orphaned_machine = Some None
  /\ line_in_cache stored_machine (TRIM_CACHELINE 4096)
  /\ pmat_cache_entries (pmem orphaned_machine)
     = pmat_cache_entries (pmem stored_machine)
  /\ forall T', trace_pmem_flush T' 4096 orphaned_machine = None.
Proof.
  assert (H1 : pmat_handle_client_request 1 (PMC_PMAT_UNREGISTER_BY_ADDR 4096)
                 stored_machine = Some (true, orphaned_machine))
    by (vm_compute; reflexivity).
  assert (H2 : lookup_file (TRIM_CACHELINE 4096) orphaned_machine
               = Some None) by (vm_compute; reflexivity).
  assert (H3 : line_in_cache stored_machine (TRIM_CACHELINE 4096))
    by (vm_compute; left; reflexivity).
  split; [exact H1|]. split; [exact H2|]. split; [exact H3|].
  destruct (unregister_orphans_pending_lines 1 4096 4096 true stored_machine
              orphaned_machine H1 H2) as (Hc & _ & Hf & _).
  split; [exact Hc|]. exact (Hf H3).
Defined.

Lemma transient_range_is_ignored_witness :
  pmat_handle_client_request 1 (PMC_PMAT_TRANSIENT 4096 8) registered_machine
  = Some (true, transient_machine)
  /\ forall T' context value,
       trace_pmem_store T' context 4096 8 value transient_machine
       = Some transient_machine.
Proof.
  assert (H : pmat_handle_client_request 1 (PMC_PMAT_TRANSIENT 4096 8)
                registered_machine = Some (true, transient_machine))
    by (vm_compute; reflexivity).
  split; [exact H|].
  exact (transient_range_is_ignored 1 4096 8 true registered_machine
           transient_machine H).
Defined.

Lemma no_verifier_no_verification_witness :
  pmat_verifier (pmem plain_machine) = None
  /\ run forced_run plain_machine
     = Some (or_else (run forced_run plain_machine) plain_machine)
  /\ verification_state (or_else (run forced_run plain_machine) plain_machine)
     = verification_state plain_machine.
Proof.
  assert (H0 : pmat_verifier (pmem plain_machine) = None) by reflexivity.
  assert (H1 : run forced_run plain_machine
               = Some (or_else (run forced_run plain_machine) plain_machine))
    by (vm_compute; reflexivity).
  split; [exact H0|]. split; [exact H1|].
  destruct (no_verifier_no_verification forced_run plain_machine _ H0 H1)
    as (H & _).
  exact H.
Defined.

(** With the checks off, a verifier that would fail at every crash check is
    never run. *)
Lemma disabled_crash_checks_never_fire_witness :
  pmat_should_verify (pmem disabled_machine) = false
  /\ forallb (fun c => negb (crash_request c)) persisting_run = true
  /\ run persisting_run disabled_machine
     = Some (or_else (run persisting_run disabled_machine) disabled_machine)
  /\ verification_state
       (or_else (run persisting_run disabled_machine) disabled_machine)
     = verification_state disabled_machine.
Proof.
  assert (H0 : pmat_should_verify (pmem disabled_machine) = false)
    by (vm_compute; reflexivity).
  assert (H1 : forallb (fun c => negb (crash_request c)) persisting_run
               = true) by reflexivity.
  assert (H2 : run persisting_run disabled_machine
               = Some (or_else (run persisting_run disabled_machine)
                         disabled_machine)) by (vm_compute; reflexivity).
  split; [exact H0|]. split; [exact H1|]. split; [exact H2|].
  destruct (disabled_crash_checks_never_fire persisting_run disabled_machine
              _ H0 H1 H2) as (H & _).
  exact H.
Defined.

Lemma min_max_track_the_samples_witness :
  [3; 1; 2]%Q <> []
  /\ (forall x, In x [3; 1; 2]%Q -> (0 < x)%Q)
  /\ (pmat_min_verification_time (pmem plain_machine) == 0)%Q
  /\ (pmat_max_verification_time (pmem plain_machine) == 0)%Q
  /\ In (pmat_min_verification_time
           (record_all [3; 1; 2]%Q (pmem plain_machine))) [3; 1; 2]%Q
  /\ In (pmat_max_verification_time
           (record_all [3; 1; 2]%Q (pmem plain_machine))) [3; 1; 2]%Q.
Proof.
  assert (H0 : [3; 1; 2]%Q <> []) by discriminate.
  assert (H1 : forall x, In x [3; 1; 2]%Q -> (0 < x)%Q).
  { intros x [<-|[<-|[<-|[]]]]; reflexivity. }
  assert (H2 : (pmat_min_verification_time (pmem plain_machine) == 0)%Q)
    by reflexivity.
  assert (H3 : (pmat_max_verification_time (pmem plain_machine) == 0)%Q)
    by reflexivity.
  split; [exact H0|]. split; [exact H1|]. split; [exact H2|].
  split; [exact H3|].
  destruct (min_max_track_the_samples [3; 1; 2]%Q (pmem plain_machine)
              H0 H1 H2 H3) as (Hmin & Hmax & _).
  split; [exact Hmin|exact Hmax].
Defined.


(** Of the constant [2^32 + 5] the store callback sees 5. *)
Lemma widen_const_keeps_low_32_bits_witness :
  0 <= 4294967301 < 2 ^ 64
  /\ widen_const (Ico_U64 4294967301) = Some (4294967301 mod 2 ^ 32).
Proof.
  assert (H0 : 0 <= 4294967301 < 2 ^ 64) by lia.
  split; [exact H0|].
  destruct (widen_const_keeps_low_32_bits 4294967301 H0) as (H & _).
  exact H.
Defined.

Lemma sqrt_returns_small_arguments_witness :
  ((1 # 4) <= 1 + sqrt_error)%Q /\ sqrt 11 (1 # 4) = Some (1 # 4)%Q.
Proof.
  assert (H0 : ((1 # 4) <= 1 + sqrt_error)%Q) by (vm_compute; discriminate).
  split; [exact H0|].
  exact (sqrt_returns_small_arguments 10 (1 # 4) H0).
Defined.

Lemma scientificNotation_never_returns_for_negative_witness :
  (- (5) < 0)%Q /\ scientificNotation 100 (- (5)) = None.
Proof.
  assert (H0 : (- (5) < 0)%Q) by reflexivity.
  split; [exact H0|].
  exact (scientificNotation_never_returns_for_negative 100 (- (5)) H0).
Defined.

Lemma store_is_read_back_from_cache_witness :
  OSetGen_Size (pmat_cache_entries (pmem registered_machine))
  < NUM_CACHE_ENTRIES (lim registered_machine)
  /\ 1 <= 8 <= 8
  /\ OFFSET_CACHELINE 4096 + 8 <= 64
  /\ is_pmem_access 4096 8 registered_machine = Some true
  /\ trace_pmem_store 1 7 4096 8 1 registered_machine = Some stored_machine
  /\ exists e,
       OSetGen_Lookup cmp_pmat_cache_entries
         (pmat_cache_entries (pmem stored_machine)) (store_key 4096) = Some e
       /\ holds_store 4096 8 1 e
       /\ lastPendingStore e = 7.
Proof.
  assert (Hc : OSetGen_Size (pmat_cache_entries (pmem registered_machine))
               < NUM_CACHE_ENTRIES (lim registered_machine))
    by (vm_compute; reflexivity).
  assert (Hs : 1 <= 8 <= 8) by lia.
  assert (Ho : OFFSET_CACHELINE 4096 + 8 <= 64)
    by (vm_compute; discriminate).
  assert (Ha : is_pmem_access 4096 8 registered_machine = Some true)
    by (vm_compute; reflexivity).
  assert (Ht : trace_pmem_store 1 7 4096 8 1 registered_machine
               = Some stored_machine) by (vm_compute; reflexivity).
  split; [exact Hc|]. split; [exact Hs|]. split; [exact Ho|].
  split; [exact Ha|]. split; [exact Ht|].
  destruct (store_is_read_back_from_cache 1 7 4096 8 1 registered_machine
              stored_machine Hc Hs Ho Ha Ht) as (e & Hl & Hh & Hp & _).
  exists e. split; [exact Hl|]. split; [exact Hh|exact Hp].
Defined.

Lemma write_to_file_idempotent_witness :
  write_to_file pending_line registered_machine = Some written_machine
  /\ exists m2,
       write_to_file pending_line written_machine = Some m2
       /\ (forall q, w_files (sys m2) q = w_files (sys written_machine) q)
       /\ pmem m2 = pmem written_machine.
Proof.
  assert (H : write_to_file pending_line registered_machine
              = Some written_machine) by (vm_compute; reflexivity).
  split; [exact H|].
  exact (write_to_file_idempotent pending_line registered_machine
           written_machine H).
Defined.

Lemma fence_returns_witness :
  (pmat_should_verify (pmem flushed_machine) = false
   \/ pmat_verifier (pmem flushed_machine) = None)
  /\ (forall w, In w (pmat_write_buffer_entries (pmem flushed_machine)) ->
                tid w = 1 -> writable flushed_machine (wb_addr w))
  /\ exists m', do_fence 1 flushed_machine = Some m'.
Proof.
  assert (H0 : pmat_should_verify (pmem flushed_machine) = false
               \/ pmat_verifier (pmem flushed_machine) = None)
    by (right; vm_compute; reflexivity).
  assert (H1 : forall w,
             In w (pmat_write_buffer_entries (pmem flushed_machine)) ->
             tid w = 1 -> writable flushed_machine (wb_addr w)).
  { intros w Hw _. vm_compute in Hw. destruct Hw as [<-|[]].
    exists (mk_registered_file "r1" 4096 128 3), "r1"%string,
           (mk_file 420 (repeat 0 128)).
    repeat split; vm_compute; reflexivity. }
  split; [exact H0|]. split; [exact H1|].
  exact (fence_returns 1 flushed_machine H0 H1).
Defined.

(** A request without a name is turned down. *)
Lemma register_is_turned_down_witness :
  (@None string = None \/ 4096 mod 64 <> 0)
  /\ exists m',
       pmat_handle_client_request 1 (PMC_PMAT_REGISTER None 4096 128)
         plain_machine = Some (false, m').
Proof.
  assert (H0 : @None string = None \/ 4096 mod 64 <> 0)
    by (left; reflexivity).
  split; [exact H0|].
  destruct (register_is_turned_down 1 None 4096 128 plain_machine)
    as [[_ H] _].
  exact (H H0).
Defined.


(** From 1.9 s to 3.1 s, across the borrow of a second. *)
Lemma diff_converts_the_elapsed_time_witness :
  0 <= 1 /\ 3 < 2 ^ 63
  /\ 0 <= 900000000 < 1000000000
  /\ 0 <= 100000000 < 1000000000
  /\ (1 < 3 \/ (1 = 3 /\ 900000000 <= 100000000))
  /\ tv_sec (Binary64.diff_temp (mk_timespec 1 900000000)
               (mk_timespec 3 100000000)) * 1000000000
     + tv_nsec (Binary64.diff_temp (mk_timespec 1 900000000)
                  (mk_timespec 3 100000000))
     = (3 * 1000000000 + 100000000) - (1 * 1000000000 + 900000000).
Proof.
  assert (H0 : 0 <= 1) by lia.
  assert (H1 : 3 < 2 ^ 63) by lia.
  assert (H2 : 0 <= 900000000 < 1000000000) by lia.
  assert (H3 : 0 <= 100000000 < 1000000000) by lia.
  assert (H4 : 1 < 3 \/ (1 = 3 /\ 900000000 <= 100000000)) by (left; lia).
  split; [exact H0|]. split; [exact H1|]. split; [exact H2|].
  split; [exact H3|]. split; [exact H4|].
  destruct (diff_converts_the_elapsed_time (mk_timespec 1 900000000)
              (mk_timespec 3 100000000) H0 H1 H2 H3 H4)
    as ((_ & _ & H) & _).
  exact H.
Defined.
